(** * ECO-pytorch: the training harness of [main.py]

    A shallow embedding of [main.py]: weight-transplant resolution
    ([init_ECO], [init_C3DRes18] and the gap fill of [main]), the
    learning-rate schedule, the training and evaluation loops, the metric
    accumulator, the checkpoint store and the control flow of [main].

    Floating-point numbers are idealised as real numbers.  Python
    dictionaries keyed by strings are finite maps.  Exceptions are the
    left summand of a result type. *)

From Stdlib Require Import Reals Lra Lia ZArith List String Ascii DecimalString
  DecimalZ DecimalPos.
From stdpp Require Import gmap strings list fin_maps.
Import ListNotations.

Local Open Scope string_scope.
Local Open Scope list_scope.

(** ** Exceptions and fallible computations *)

Inductive exn : Type :=
| ValueError (msg : string)
| KeyError (key : string)
| IndexError
| UnboundLocalError (var : string)
| ZeroDivisionError
| RuntimeError (msg : string)
| FileNotFoundError (path : string)
| URLError (url : string).

Definition result (A : Type) : Type := exn + A.

Definition ok {A} (a : A) : result A := inr a.
Definition raise {A} (e : exn) : result A := inl e.

Definition rbind {A B} (c : result A) (k : A → result B) : result B :=
  match c with
  | inl e => inl e
  | inr a => k a
  end.

Notation "x <- c ;; k" := (rbind c (fun x => k))
  (at level 100, c at next level, right associativity, only parsing).

(** [for x in xs: acc = f(acc, x)], up to the first exception. *)
Fixpoint foldM {A B} (f : A → B → result A) (a : A) (xs : list B) : result A :=
  match xs with
  | [] => ok a
  | x :: xs' => a' <- f a x ;; foldM f a' xs'
  end.

(** A computation that may also change a state of type [S]: the state comes
    back whether or not an exception was raised. *)
Definition pbind {S A B} (c : S → S * result A) (k : A → S → S * result B)
  : S → S * result B :=
  λ w, match c w with
       | (w', inl e) => (w', inl e)
       | (w', inr a) => k a w'
       end.

Notation "x <~ c ;; k" := (pbind c (fun x => k))
  (at level 100, c at next level, right associativity, only parsing).

Definition lift {S A} (r : result A) : S → S * result A := λ w, (w, r).

Definition is_ok {A} (c : result A) : Prop := ∃ a, c = inr a.
Definition is_error {A} (c : result A) : Prop := ∃ e, c = inl e.

(** Comparisons of real numbers are decided classically. *)
#[global] Instance Rgt_decision (x y : R) : Decision (x > y)%R := Rgt_dec x y.

(** Python's [d[k]] on a dictionary. *)
Definition getitem {V} (d : gmap string V) (k : string) : result V :=
  match d !! k with
  | Some v => ok v
  | None => raise (KeyError k)
  end.

(** Python's [xs[i]] on a tuple or list, for a non-negative [i]. *)
Definition index {A} (xs : list A) (i : nat) : result A :=
  match xs !! i with
  | Some x => ok x
  | None => raise IndexError
  end.

(** Python's [needle in hay] on strings. *)
Fixpoint str_in (needle hay : string) : bool :=
  if String.prefix needle hay then true
  else match hay with
       | EmptyString => false
       | String _ hay' => str_in needle hay'
       end.

(** ** Tensors

    A tensor is a shape and a value at every index.  Only the operations
    [main.py] calls are modelled. *)

Module Tensor.

Record tensor : Type := mk { shape : list nat; at_ : list nat → R }.

(** [torch.DoubleTensor(size).zero_()] *)
Definition zeros (sz : list nat) : tensor :=
  {| shape := sz; at_ := fun _ => 0%R |}.

(** [torch.nn.init.constant_(t, c)]: every entry becomes [c]. *)
Definition constant_ (t : tensor) (c : R) : tensor :=
  {| shape := shape t; at_ := fun _ => c |}.

(** [t.narrow(dim, start, len)]: the slice [start .. start+len) of axis
    [dim]. *)
Definition narrow (t : tensor) (dim start len : nat) : tensor :=
  {| shape := <[dim := len]> (shape t);
     at_ := fun idx => at_ t (alter (Nat.add start) dim idx) |}.

(** The size of one chunk, [ceil(n / chunks)]. *)
Definition chunk_len (n chunks : nat) : nat := (n + chunks - 1) / chunks.

(** How many chunks [torch.chunk] returns for an axis of length [n]. *)
Definition num_chunks (n chunks : nat) : nat :=
  let cs := chunk_len n chunks in
  if (cs =? 0)%nat then chunks else (n + cs - 1) / cs.

(** [torch.chunk(t, chunks, dim)]: consecutive slices of [chunk_len]
    entries; the last one may be shorter.  Fails when [t] has no axis
    [dim] or [chunks] is not positive. *)
Definition chunk (t : tensor) (chunks dim : nat) : result (list tensor) :=
  match shape t !! dim with
  | None => raise (RuntimeError "Dimension out of range")
  | Some n =>
      if (chunks =? 0)%nat then
        raise (RuntimeError "chunk expects `chunks` to be greater than 0")
      else
        let cs := chunk_len n chunks in
        ok (map (fun i => narrow t dim (i * cs) (Nat.min cs (n - i * cs)))
              (seq 0 (num_chunks n chunks)))
  end.

(** The value of [torch.cat(ts, dim)] at [idx]: walk the tensors,
    subtracting their lengths along [dim]. *)
Fixpoint cat_at (ts : list tensor) (dim : nat) (idx : list nat) : R :=
  match ts with
  | [] => 0%R
  | t :: rest =>
      let n := default 0%nat (shape t !! dim) in
      if (default 0%nat (idx !! dim) <? n)%nat then at_ t idx
      else cat_at rest dim (alter (fun j => (j - n)%nat) dim idx)
  end.

Definition same_off_axis (dim : nat) (t u : tensor) : bool :=
  bool_decide (<[dim := 0%nat]> (shape t) = <[dim := 0%nat]> (shape u)).

(** [torch.cat(ts, dim)]: fails on an empty sequence, on a missing axis
    and when the tensors disagree on another axis. *)
Definition cat (ts : list tensor) (dim : nat) : result tensor :=
  match ts with
  | [] => raise (RuntimeError "expected a non-empty list of Tensors")
  | t0 :: _ =>
      if bool_decide (dim < length (shape t0))%nat
         && forallb (same_off_axis dim t0) ts
      then ok {| shape :=
                   <[dim := sum_list (map (fun t => default 0%nat (shape t !! dim)) ts)]>
                     (shape t0);
                 at_ := cat_at ts dim |}
      else raise (RuntimeError "Sizes of tensors must match except in dimension")
  end.

End Tensor.

Import Tensor.

(** ** The run configuration ([args], the parsed command line) *)

Record Args : Type := {
  dataset : string;
  arch : string;
  pretrained_parts : string;
  modality : string;
  loss_type : string;
  snapshot_pref : string;
  resume : string;
  rgb_prefix : string;
  flow_prefix : string;
  train_list : string;
  val_list : string;
  batch_size : nat;
  lr : R;
  momentum : R;
  lr_steps : list Z;
  weight_decay : R;
  nesterov : bool;
  iter_size : Z;
  clip_gradient : option R;
  print_freq : Z;
  eval_freq : Z;
  evaluate : bool;
  start_epoch : Z;
  epochs : Z
}.

(** ** Weight transplant: [init_ECO], [init_C3DRes18] and the gap fill *)

Abbreviation state_dict := (gmap string tensor).

(** The pretrained checkpoints the resolver asks for: what the URL of the 2D
    weights serves ([None]: the download fails) and the two files of the
    directory [models] ([None]: the file cannot be loaded). *)
Record Pretrained : Type := {
  weights_2d : option state_dict;
  weights_3d : option state_dict;
  weights_eco : option state_dict
}.

(** [torch.load(path)] of a local file. *)
Definition load (path : string) (f : option state_dict) : result state_dict :=
  match f with
  | Some d => ok d
  | None => raise (FileNotFoundError path)
  end.

(** The download cache of [torch.utils.model_zoo]: the files of its
    directory, by file name. *)
Abbreviation cache := (gmap string state_dict).

Fixpoint last_segment (s cur : string) : string :=
  match s with
  | EmptyString => cur
  | String c s' =>
      if Ascii.eqb c "/" then last_segment s' EmptyString
      else last_segment s' (String.append cur (String c EmptyString))
  end.

(** The file name under which [load_url] keeps a download: the last segment
    of the URL. *)
Definition url_filename (url : string) : string := last_segment url EmptyString.

(** [torch.utils.model_zoo.load_url(url)]: the file of the cache directory
    when it is there; otherwise the download, which is written to the cache
    directory before it is loaded. *)
Definition load_url (url : string) (served : option state_dict)
  : cache → cache * result state_dict :=
  λ z, match z !! url_filename url with
       | Some d => (z, ok d)
       | None =>
           match served with
           | Some d => (<[url_filename url := d]> z, ok d)
           | None => (z, raise (URLError url))
           end
       end.

Definition weight_url_2d : string :=
  "https://yjxiong.blob.core.windows.net/ssn-models/bninception_rgb_kinetics_init-d4ee618d3399.pth".
Definition path_3d : string := "models/C3DResNet18_rgb_16F_kinetics_v1.pth.tar".
Definition path_eco : string := "models/eco_lite_rgb_16F_kinetics_v2.pth.tar".
Definition res3a_2_weight : string := "module.base_model.res3a_2.weight".

(** [(k in model_dict) and (v.size() == model_dict[k].size())] *)
Definition fits (model_dict : state_dict) (k : string) (v : tensor) : bool :=
  match model_dict !! k with
  | Some t => bool_decide (shape v = shape t)
  | None => false
  end.

(** [{"module.base_model."+k: v for k, v in src.items()
      if "module.base_model."+k in model_dict}] *)
Definition remap_2d (model_dict src : state_dict) : state_dict :=
  filter (λ kv, is_Some (model_dict !! kv.1))
    (kmap (String.append "module.base_model.") src).

(** [{k: v for k, v in src.items() if fits}] *)
Definition keep_fitting (model_dict src : state_dict) : state_dict :=
  filter (λ kv, fits model_dict kv.1 kv.2 = true) src.

(** [for k, v in src.items(): if fits: new_state_dict[k] = v] *)
Definition transplant (model_dict src new_state_dict : state_dict) : state_dict :=
  map_fold (λ k v acc, if fits model_dict k v then <[k := v]> acc else acc)
    new_state_dict src.

(** The channel repair of the [3D] and [both] branches. *)
Definition channel_repair (src new_state_dict : state_dict) : result state_dict :=
  w <- getitem src res3a_2_weight ;;
  res3a_2_weight_chunk <- chunk w 4 1 ;;
  c0 <- index res3a_2_weight_chunk 0 ;;
  c1 <- index res3a_2_weight_chunk 1 ;;
  c2 <- index res3a_2_weight_chunk 2 ;;
  r <- cat [c0; c1; c2] 1 ;;
  ok (<[res3a_2_weight := r]> new_state_dict).

(** [init_ECO(model_dict)]; the state threaded through is the download
    cache, which only [load_url] touches. *)
Definition init_ECO (files : Pretrained) (args : Args) (model_dict : state_dict)
  : cache → cache * result state_dict :=
  if String.eqb (pretrained_parts args) "scratch" then lift (ok ∅)
  else if String.eqb (pretrained_parts args) "2D" then
    pretrained_dict_2d <~ load_url weight_url_2d (weights_2d files) ;;
    lift (ok (remap_2d model_dict pretrained_dict_2d))
  else if String.eqb (pretrained_parts args) "3D" then
    lift (pretrained_dict_3d <- load path_3d (weights_3d files) ;;
          channel_repair pretrained_dict_3d
            (transplant model_dict pretrained_dict_3d ∅))
  else if String.eqb (pretrained_parts args) "finetune" then
    lift (pretrained_dict <- load path_eco (weights_eco files) ;;
          ok (keep_fitting model_dict pretrained_dict))
  else if String.eqb (pretrained_parts args) "both" then
    pretrained_dict_2d <~ load_url weight_url_2d (weights_2d files) ;;
    lift (pretrained_dict_3d <- load path_3d (weights_3d files) ;;
          channel_repair pretrained_dict_3d
            (transplant model_dict pretrained_dict_3d
               (remap_2d model_dict pretrained_dict_2d)))
  else lift (raise (UnboundLocalError "new_state_dict")).

(** The message of line 254, with its double quotes. *)
Definition C3DRes18_parts_message : string :=
  String.append "For C3DRes18, "
    (String "034"%char
       (String.append "--pretrained_parts"
          (String "034"%char " can only be chosen from [scratch, 3D]"))).

Definition init_C3DRes18 (files : Pretrained) (args : Args) (model_dict : state_dict)
  : result state_dict :=
  if String.eqb (pretrained_parts args) "scratch" then ok ∅
  else if String.eqb (pretrained_parts args) "3D" then
    pretrained_dict <- load path_3d (weights_3d files) ;;
    ok (keep_fitting model_dict pretrained_dict)
  else raise (ValueError C3DRes18_parts_message).

(** [main], lines 79-82: neither branch binds [new_state_dict] for another
    architecture, and line 84 then reads an unbound name. *)
Definition resolve (files : Pretrained) (args : Args) (model_dict : state_dict)
  : cache → cache * result state_dict :=
  if String.eqb (arch args) "ECO" then init_ECO files args model_dict
  else if String.eqb (arch args) "C3DRes18" then
    lift (init_C3DRes18 files args model_dict)
  else lift (raise (UnboundLocalError "new_state_dict")).

(** The entries of the resolved mapping that did not go through the test
    [fits]: the repaired weight, and an entry remapped from the 2D checkpoint
    [load_url] returns. *)
Definition unchecked (files : Pretrained) (args : Args) (z : cache) (k : string)
    (v : tensor) : Prop :=
  arch args = "ECO"
  ∧ ((k = res3a_2_weight
      ∧ (pretrained_parts args = "3D" ∨ pretrained_parts args = "both"))
     ∨ ((pretrained_parts args = "2D" ∨ pretrained_parts args = "both")
        ∧ ∃ d2 k0, (load_url weight_url_2d (weights_2d files) z).2 = ok d2
                   ∧ k = String.append "module.base_model." k0
                   ∧ d2 !! k0 = Some v)).

(** [[k for k in model_dict.keys() if k not in new_state_dict]] *)
Definition un_init_dict_keys (model_dict new_state_dict : state_dict) : list string :=
  filter (λ k, new_state_dict !! k = None) (map_to_list model_dict).*1.

Section GapFill.

(** [xavier_uniform_] draws from the random generator of the library, whose
    state is threaded through, and raises on a tensor it has no fans for. *)
Context {rng : Type}.
Variable xavier_uniform_ : rng → tensor → result (rng * tensor).

(** The body of the loop of lines 88-99 for one key [k] of shape [sz]. *)
Definition default_init (g : rng) (k : string) (sz : list nat)
  : result (rng * tensor) :=
  let t := zeros sz in
  if str_in "weight" k then
    if str_in "bn" k then ok (g, constant_ t 1)
    else xavier_uniform_ g t
  else if str_in "bias" k then ok (g, constant_ t 0)
  else ok (g, t).

(** What the loop leaves under a key [k] it fills, for a target of size
    [sz]: a name holding [weight] and [bn] gets constant 1, another name
    holding [weight] a Xavier draw, a name holding [bias] but not [weight]
    constant 0, and any other name stays zero-filled. *)
Definition filled_as (k : string) (sz : list nat) (v : tensor) : Prop :=
  (str_in "weight" k = true → str_in "bn" k = true →
     v = constant_ (zeros sz) 1)
  ∧ (str_in "weight" k = true → str_in "bn" k = false →
       ∃ g g', xavier_uniform_ g (zeros sz) = ok (g', v))
  ∧ (str_in "weight" k = false → str_in "bias" k = true →
       v = constant_ (zeros sz) 0)
  ∧ (str_in "weight" k = false → str_in "bias" k = false → v = zeros sz).

Definition gap_fill_step (model_dict : state_dict)
    (acc : rng * state_dict) (k : string) : result (rng * state_dict) :=
  t <- getitem model_dict k ;;
  r <- default_init acc.1 k (shape t) ;;
  ok (r.1, <[k := r.2]> acc.2).

(** The loop of lines 88-99; an exception of [xavier_uniform_] ends it. *)
Definition gap_fill (g : rng) (model_dict new_state_dict : state_dict)
  : result (rng * state_dict) :=
  foldM (gap_fill_step model_dict) (g, new_state_dict)
    (un_init_dict_keys model_dict new_state_dict).

(** Lines 79-99 of [main]: the state handed to [load_state_dict]. *)
Definition initial_state (files : Pretrained) (args : Args) (g : rng)
    (model_dict : state_dict) : cache → cache * result (rng * state_dict) :=
  new_state_dict <~ resolve files args model_dict ;;
  lift (gap_fill g model_dict new_state_dict).

End GapFill.

(** ** The metric accumulator, [class AverageMeter] *)

Module AverageMeter.

Record t : Type := mk { val : R; avg : R; sum : R; count : nat }.

(** [reset]: the state [__init__] leaves. *)
Definition reset : t := {| val := 0; avg := 0; sum := 0; count := 0 |}.

(** [update(val, n)].  The division [self.sum / self.count] raises when the
    count is still zero. *)
Definition update (m : t) (v : R) (n : nat) : result t :=
  let sum' := (sum m + v * INR n)%R in
  let count' := (count m + n)%nat in
  if (count' =? 0)%nat then raise ZeroDivisionError
  else ok {| val := v; avg := (sum' / INR count')%R; sum := sum'; count := count' |}.

End AverageMeter.

(** ** Parameter groups and the learning-rate schedule *)

Module Optim.

(** One entry of [optimizer.param_groups], as [get_optim_policies] builds it
    and [adjust_learning_rate] updates it. *)
Record param_group : Type := mk {
  name : string;
  lr_mult : R;
  decay_mult : R;
  lr : R;
  weight_decay : R
}.

End Optim.

(** [sum(epoch >= np.array(lr_steps))]: how many thresholds the epoch has
    reached. *)
Definition steps_passed (epoch : Z) (lr_steps : list Z) : nat :=
  length (filter (λ s, (s ≤ epoch)%Z) lr_steps).

(** [args.lr * 0.1 ** steps_passed] *)
Definition decayed_lr (args : Args) (epoch : Z) : R :=
  (lr args * (1 / 10) ^ steps_passed epoch (lr_steps args))%R.

Definition adjust_group (args : Args) (epoch : Z) (g : Optim.param_group)
  : Optim.param_group :=
  {| Optim.name := Optim.name g;
     Optim.lr_mult := Optim.lr_mult g;
     Optim.decay_mult := Optim.decay_mult g;
     Optim.lr := (decayed_lr args epoch * Optim.lr_mult g)%R;
     Optim.weight_decay := (weight_decay args * Optim.decay_mult g)%R |}.

Definition adjust_learning_rate (args : Args) (param_groups : list Optim.param_group)
    (epoch : Z) : list Optim.param_group :=
  map (adjust_group args epoch) param_groups.

(** ** Batches

    [torch.utils.data.DataLoader] cuts the sample sequence of an epoch into
    consecutive batches of [batch_size] samples; the last batch holds what
    is left.  Iterating a loader yields [len(loader)] batches. *)

Fixpoint batches_aux {A} (fuel bs : nat) (xs : list A) : list (list A) :=
  match fuel with
  | O => []
  | S fuel' =>
      match xs with
      | [] => []
      | _ :: _ => take bs xs :: batches_aux fuel' bs (drop bs xs)
      end
  end.

Definition DataLoader {A} (bs : nat) (xs : list A) : list (list A) :=
  batches_aux (length xs) bs xs.

(** ** Gradient clipping *)

Definition l2_norm (g : list R) : R :=
  sqrt (fold_right (λ x acc, x * x + acc)%R 0%R g).

(** Modelled from the spec: [torch.nn.utils.clip_grad_norm_] is called by
    [train] but its code is not part of [main.py].  Following section 4.3 and
    section 8 of the specification: the global L2 norm over all gradients is
    computed; when it exceeds [max_norm] every gradient is multiplied by
    [max_norm / norm]; the norm measured before clipping is returned. *)
Definition clip_grad_norm_ (g : list R) (max_norm : R) : list R * R :=
  let total_norm := l2_norm g in
  (if bool_decide (total_norm > max_norm)%R
   then map (Rmult (max_norm / total_norm)) g
   else g,
   total_norm).

(** ** Printed lines and other observable events *)

Inductive event : Type :=
| ClippingGradient (total_norm coef : R)
| Progress (epoch i : Z)
| TestProgress (i : Z)
| TestingResults (top1_avg : R)
| ModelConstructed (num_class : Z)
| StateDictLoaded
| CheckpointLoaded (path : string) (epoch : Z)
| NoCheckpointFound (path : string)
| LoadersBuilt
| OptimizerBuilt
| EpochStarted (epoch : Z).

(** ** The checkpoint store *)

Record checkpoint : Type := {
  ck_epoch : Z;
  ck_arch : string;
  ck_state_dict : state_dict;
  ck_best_prec1 : R
}.

(** The files a run reads and writes, by path. *)
Abbreviation filesystem := (gmap string checkpoint).

Definition lower_ascii (c : ascii) : ascii :=
  let n := nat_of_ascii c in
  if (65 <=? n)%nat && (n <=? 90)%nat then ascii_of_nat (n + 32) else c.

(** [s.lower()], on ASCII text. *)
Fixpoint lower (s : string) : string :=
  match s with
  | EmptyString => EmptyString
  | String c s' => String (lower_ascii c) (lower s')
  end.

(** [str(n)] for an integer. *)
Definition str (n : Z) : string := NilZero.string_of_int (Z.to_int n).

(** [sep.join(parts)] *)
Definition join (sep : string) (parts : list string) : string :=
  String.concat sep parts.

Definition checkpoint_filename (args : Args) (epoch : Z) (filename : string) : string :=
  join "_" [snapshot_pref args; lower (modality args); "epoch"; str epoch; filename].

Definition best_name (args : Args) : string :=
  join "_" [snapshot_pref args; lower (modality args); "model_best.pth.tar"].

(** [shutil.copyfile(src, dst)] *)
Definition copyfile (src dst : string) (fs : filesystem) : filesystem :=
  match fs !! src with
  | Some c => <[dst := c]> fs
  | None => fs
  end.

(** [save_checkpoint(state, is_best)] with the default
    [filename='checkpoint.pth.tar']. *)
Definition save_checkpoint (args : Args) (state : checkpoint) (is_best : bool)
    (fs : filesystem) : filesystem :=
  let filename := checkpoint_filename args (ck_epoch state) "checkpoint.pth.tar" in
  let fs' := <[filename := state]> fs in
  if is_best then copyfile filename (best_name args) fs' else fs'.

(** Lines 190-197 of [main]: remember the best precision and save. *)
Definition remember_best (args : Args) (epoch : Z) (sd : state_dict)
    (prec1 best_prec1 : R) (fs : filesystem) : R * filesystem :=
  let is_best := bool_decide (prec1 > best_prec1)%R in
  let best_prec1' := Rmax prec1 best_prec1 in
  (best_prec1',
   save_checkpoint args
     {| ck_epoch := epoch + 1; ck_arch := arch args;
        ck_state_dict := sd; ck_best_prec1 := best_prec1' |}
     is_best fs).

(** ** The training and evaluation loops *)

Fixpoint mapM {A B} (f : A → result B) (xs : list A) : result (list B) :=
  match xs with
  | [] => ok []
  | x :: xs' => y <- f x ;; ys <- mapM f xs' ;; ok (y :: ys)
  end.

(** [a, b = xs] *)
Definition unpack2 {A} (xs : list A) : result (A * A) :=
  match xs with
  | [a; b] => ok (a, b)
  | _ => raise (ValueError "not enough values to unpack")
  end.

(** [i % m == 0] on Python integers. *)
Definition divides (m i : Z) : result bool :=
  if (m =? 0)%Z then raise ZeroDivisionError else ok (i mod m =? 0)%Z.

Record learner {net buffers : Type} : Type := {
  model : net;                               (* the parameters of the network *)
  grad : option (list R);                    (* [p.grad], all parameters flattened *)
  param_groups : list Optim.param_group;     (* [optimizer.param_groups] *)
  buf : buffers;                             (* the optimizer's own state *)
  n_steps : nat                              (* ghost: calls of [optimizer.step()] *)
}.
Arguments learner : clear implicits.

Record meters : Type := {
  losses : AverageMeter.t;
  top1 : AverageMeter.t;
  top5 : AverageMeter.t
}.

Definition fresh_meters : meters :=
  {| losses := AverageMeter.reset; top1 := AverageMeter.reset;
     top5 := AverageMeter.reset |}.

Section Loops.

(** The collaborators: the network ([forward], with its mode), the loss,
    automatic differentiation ([backward]: the gradient of the loss of a
    batch at the current parameters), the optimizer's [step] and
    [Tensor.topk] on one row of scores. *)
Context {clip net buffers : Type}.
Variable forward : bool → net → list clip → list (list R).
Variable criterion : list (list R) → list nat → R.
Variable backward : net → list (clip * nat) → list R.
Variable step : list Optim.param_group → buffers → net → list R → buffers * net.
Variable topk : nat → list R → result (list nat).

(** [target.view(1, -1).expand_as(pred)], column by column: the labels as
    they are when there is one per score row, a single label repeated for
    every row, and an exception otherwise. *)
Definition expand_as {A} (target : list nat) (pred : list A) : result (list nat) :=
  if (length target =? length pred)%nat then ok target
  else match target with
       | [t] => ok (replicate (length pred) t)
       | _ => raise (RuntimeError "expand_as: sizes do not match")
       end.

(** [accuracy(output, target, topk)]: [pred] has one row of [maxk] class
    indices per sample; [correct], transposed, one row per rank. *)
Definition accuracy (output : list (list R)) (target : list nat) (ks : list nat)
  : result (list R) :=
  let maxk := max_list ks in
  let batch_size := length target in
  pred <- mapM (topk maxk) output ;;
  expanded <- expand_as target pred ;;
  let correct :=
    map (λ r, zip_with (λ p t, bool_decide (p !! r = Some t)) pred expanded)
      (seq 0 maxk) in
  mapM (λ k,
          if (batch_size =? 0)%nat then raise ZeroDivisionError
          else
            let correct_k := length (filter (λ b, b = true) (concat (take k correct))) in
            ok (INR correct_k * (100 / INR batch_size))%R)
    ks.

(** The forward pass and the three meter updates shared by both loops. *)
Definition measure (training : bool) (m : net) (b : list (clip * nat)) (ms : meters)
  : result meters :=
  let input := b.*1 in
  let target := b.*2 in
  let output := forward training m input in
  let loss := criterion output target in
  precs <- accuracy output target [1; 5]%nat ;;
  p <- unpack2 precs ;;
  losses' <- AverageMeter.update (losses ms) loss (length input) ;;
  top1' <- AverageMeter.update (top1 ms) p.1 (length input) ;;
  top5' <- AverageMeter.update (top5 ms) p.2 (length input) ;;
  ok {| losses := losses'; top1 := top1'; top5 := top5' |}.

(** [loss.backward()]: gradients add up in [p.grad]. *)
Definition accumulate (acc : option (list R)) (g : list R) : list R :=
  match acc with
  | None => g
  | Some a => zip_with Rplus a g
  end.

(** Lines 311-314 and 321-324: clip, and report when the norm exceeded the
    bound. *)
Definition clip_and_report (args : Args) (g : list R) (out : list event)
  : list R * list event :=
  match clip_gradient args with
  | Some max_norm =>
      let '(g', total_norm) := clip_grad_norm_ g max_norm in
      (g',
       if bool_decide (total_norm > max_norm)%R
       then out ++ [ClippingGradient total_norm (max_norm / total_norm)]
       else out)
  | None => (g, out)
  end.

Record train_state : Type := {
  lrn : learner net buffers;
  mets : meters;
  out : list event
}.

(** [optimizer.step()] on the gradients [g]. *)
Definition optimizer_step (l : learner net buffers) (g : list R) : learner net buffers :=
  let '(buf', model') := step (param_groups l) (buf l) (model l) g in
  {| model := model'; grad := Some g; param_groups := param_groups l;
     buf := buf'; n_steps := S (n_steps l) |}.

(** Lines 304-319: the branch taken when [i % args.iter_size == 0]. *)
Definition boundary (args : Args) (l : learner net buffers) (g : list R)
    (out : list event) : learner net buffers * list R * list event :=
  let g1 := if (iter_size args =? 1)%Z then g
            else map (λ x, x / IZR (iter_size args))%R g in
  let '(g2, out') := clip_and_report args g1 out in
  let l' := optimizer_step l g2 in
  (l', map (λ _, 0%R) g2, out').

(** The body of the loop of [train] for batch [i], lines 281-340. *)
Definition train_batch (args : Args) (epoch : Z) (i : Z) (b : list (clip * nat))
    (st : train_state) : result train_state :=
  mets' <- measure true (model (lrn st)) b (mets st) ;;
  let g := accumulate (grad (lrn st)) (backward (model (lrn st)) b) in
  at_boundary <- divides (iter_size args) i ;;
  let '(l1, g1, out1) :=
    if at_boundary : bool then boundary args (lrn st) g (out st)
    else (lrn st, g, out st) in
  let '(g2, out2) := clip_and_report args g1 out1 in
  let l2 := optimizer_step l1 g2 in
  printing <- divides (print_freq args) i ;;
  ok {| lrn := l2; mets := mets';
        out := if printing : bool then out2 ++ [Progress epoch i] else out2 |}.

(** [for i, (input, target) in enumerate(train_loader)] with the [break] of
    line 279; [n] is [len(train_loader)]. *)
Fixpoint train_loop (args : Args) (epoch n i : Z) (batches : list (list (clip * nat)))
    (st : train_state) : result train_state :=
  match batches with
  | [] => ok st
  | b :: rest =>
      if (i =? n - 1)%Z then ok st
      else
        st' <- train_batch args epoch i b st ;;
        train_loop args epoch n (i + 1) rest st'
  end.

(** [train(train_loader, model, criterion, optimizer, epoch)] *)
Definition train (args : Args) (train_loader : list (list (clip * nat)))
    (l : learner net buffers) (epoch : Z) : result train_state :=
  train_loop args epoch (Z.of_nat (length train_loader)) 0 train_loader
    {| lrn := l; mets := fresh_meters; out := [] |}.

(** The body of the loop of [validate] for batch [i], lines 360-386. *)
Definition validate_batch (args : Args) (m : net) (i : Z) (b : list (clip * nat))
    (st : meters * list event) : result (meters * list event) :=
  mets' <- measure false m b st.1 ;;
  printing <- divides (print_freq args) i ;;
  ok (mets', if printing : bool then st.2 ++ [TestProgress i] else st.2).

Fixpoint validate_loop (args : Args) (m : net) (n i : Z)
    (batches : list (list (clip * nat))) (st : meters * list event)
  : result (meters * list event) :=
  match batches with
  | [] => ok st
  | b :: rest =>
      if (i =? n - 1)%Z then ok st
      else
        st' <- validate_batch args m i b st ;;
        validate_loop args m n (i + 1) rest st'
  end.

(** [validate(val_loader, model, criterion, iter)]: the value returned is
    [top1.avg]; the second component is what was printed. *)
Definition validate (args : Args) (val_loader : list (list (clip * nat))) (m : net)
  : result (R * list event) :=
  st <- validate_loop args m (Z.of_nat (length val_loader)) 0 val_loader
          (fresh_meters, []) ;;
  ok (AverageMeter.avg (top1 st.1),
      st.2 ++ [TestingResults (AverageMeter.avg (top1 st.1))]).

End Loops.

(** ** [main] *)

(** Lines 40-52: the class count and, where the branch binds it, the
    frame-filename format. *)
Definition dataset_config (args : Args) : result (Z * option string) :=
  if String.eqb (dataset args) "ucf101" then ok (101%Z, Some "{:05d}.jpg")
  else if String.eqb (dataset args) "hmdb51" then ok (51%Z, None)
  else if String.eqb (dataset args) "kinetics" then ok (400%Z, Some "{:05d}.jpg")
  else if String.eqb (dataset args) "something" then ok (174%Z, Some "{:04d}.jpg")
  else raise (ValueError (String.append "Unknown dataset " (dataset args))).

(** Lines 125-128: [data_length] is bound for three modalities only. *)
Definition data_length_of (args : Args) : option nat :=
  if String.eqb (modality args) "RGB" then Some 1%nat
  else if String.eqb (modality args) "Flow" || String.eqb (modality args) "RGBDiff"
  then Some 5%nat
  else None.

(** Reading a local variable of [main]. *)
Definition read_local {A} (var : string) (v : option A) : result A :=
  match v with
  | Some a => ok a
  | None => raise (UnboundLocalError var)
  end.

(** The arguments of [TSNDataSet] that [main] computes, in the order the
    call evaluates them: [new_length], then [image_tmpl]. *)
Definition dataset_arguments (args : Args) (data_length : option nat)
    (rgb_read_format : option string) : result (nat * string) :=
  new_length <- read_local "data_length" data_length ;;
  image_tmpl <-
    (if String.eqb (modality args) "RGB" || String.eqb (modality args) "RGBDiff"
     then fmt <- read_local "rgb_read_format" rgb_read_format ;;
          ok (String.append (rgb_prefix args) fmt)
     else fmt <- read_local "rgb_read_format" rgb_read_format ;;
          ok (String.append (flow_prefix args) fmt)) ;;
  ok (new_length, image_tmpl).

(** What a run can observe and change outside its own variables: the
    checkpoint files it reads and writes by path ([fs]), what it printed, the
    random generator, and the directory in which [model_zoo] keeps its
    downloads ([zoo]).  The download directory is kept apart from the
    checkpoint files: it is the library's own, and no path of a run is taken
    to point into it. *)
Record world {rng : Type} : Type := {
  fs : filesystem;
  trace : list event;
  gen : rng;
  zoo : cache
}.
Arguments world : clear implicits.

(** A step of [main]: it may change the world and may raise. *)
Definition prog (rng A : Type) : Type := world rng → world rng * result A.

Definition emit {rng} (es : list event) : prog rng unit :=
  λ w, ({| fs := fs w; trace := trace w ++ es; gen := gen w; zoo := zoo w |}, ok tt).

(** What [main] hands back when it returns normally. *)
Record outcome {net buffers : Type} : Type := {
  final : learner net buffers;
  best_prec1 : R
}.
Arguments outcome : clear implicits.

(** What the set-up of [main] leaves in its local variables. *)
Record setup {net clip : Type} : Type := {
  su_policies : list Optim.param_group;
  su_model : net;
  su_start_epoch : Z;
  su_best_prec1 : R;
  su_train : list (clip * nat);
  su_val : list (clip * nat)
}.
Arguments setup : clear implicits.

(** The events of [main] that precede the construction of the loaders. *)
Definition early_event (e : event) : Prop :=
  match e with
  | ModelConstructed _ | StateDictLoaded | CheckpointLoaded _ _
  | NoCheckpointFound _ => True
  | _ => False
  end.

(** The events of the set-up phase of [main]. *)
Definition setup_event (e : event) : Prop :=
  match e with
  | ModelConstructed _ | StateDictLoaded | CheckpointLoaded _ _
  | NoCheckpointFound _ | LoadersBuilt => True
  | _ => False
  end.

Section Main.

Context {clip net buffers rng : Type}.
Variable forward : bool → net → list clip → list (list R).
Variable criterion : list (list R) → list nat → R.
Variable backward : net → list (clip * nat) → list R.
Variable step : list Optim.param_group → buffers → net → list R → buffers * net.
Variable topk : nat → list R → result (list nat).
Variable xavier_uniform_ : rng → tensor → result (rng * tensor).

(** Further collaborators of [main]: the model class [TSN] with its
    [state_dict], [load_state_dict] and [get_optim_policies], the dataset
    class, the shuffling of the training loader, the pretrained files and
    the constructor [torch.optim.SGD(policies, lr, momentum, weight_decay,
    nesterov)], which answers with the fresh state of the optimizer or
    raises. *)
Variable TSN : Args → Z → result net.
Variable state_dict_of : net → state_dict.
Variable load_state_dict : net → state_dict → result net.
Variable get_optim_policies : net → list Optim.param_group.
Variable TSNDataSet : string → nat → string → list (clip * nat).
Variable shuffle : rng → list (clip * nat) → rng * list (clip * nat).
Variable files : Pretrained.
Variable SGD : list Optim.param_group → R → R → R → bool → result buffers.

(** Lines 79-103: resolve, fill the gaps, load.  After an exception the
    state of the generator is not looked at again. *)
Definition initialise (args : Args) (m : net) : prog rng net :=
  λ w,
    match initial_state xavier_uniform_ files args (gen w) (state_dict_of m) (zoo w) with
    | (z', inl e) =>
        ({| fs := fs w; trace := trace w; gen := gen w; zoo := z' |}, inl e)
    | (z', inr (g', new_state_dict)) =>
        let w' := {| fs := fs w; trace := trace w; gen := g'; zoo := z' |} in
        match load_state_dict m new_state_dict with
        | inl e => (w', inl e)
        | inr m' => ((emit [StateDictLoaded] w').1, ok m')
        end
    end.

(** Lines 105-115: resume from a checkpoint when one is there. *)
Definition resume_from (args : Args) (m : net) (best : R)
  : prog rng (net * Z * R) :=
  λ w,
    if String.eqb (resume args) "" then (w, ok (m, start_epoch args, best))
    else
      match fs w !! resume args with
      | Some ck =>
          match load_state_dict m (ck_state_dict ck) with
          | inl e => (w, inl e)
          | inr m' =>
              ((emit [CheckpointLoaded (resume args) (ck_epoch ck)] w).1,
               ok (m', ck_epoch ck, ck_best_prec1 ck))
          end
      | None =>
          ((emit [NoCheckpointFound (resume args)] w).1,
           ok (m, start_epoch args, best))
      end.

(** The constructor of a loader refuses a batch size that is not positive. *)
Definition check_batch_size (args : Args) : result unit :=
  if (batch_size args =? 0)%nat
  then raise (ValueError "batch_size should be a positive integer value")
  else ok tt.

(** Lines 130-158: the two loaders, as their datasets. *)
Definition build_loaders (args : Args) (rgb_read_format : option string)
  : prog rng (list (clip * nat) * list (clip * nat)) :=
  a <~ lift (dataset_arguments args (data_length_of args) rgb_read_format) ;;
  let train_set := TSNDataSet (train_list args) a.1 a.2 in
  _ <~ lift (check_batch_size args) ;;
  a' <~ lift (dataset_arguments args (data_length_of args) rgb_read_format) ;;
  let val_set := TSNDataSet (val_list args) a'.1 a'.2 in
  _ <~ lift (check_batch_size args) ;;
  _ <~ emit [LoadersBuilt] ;;
  lift (ok (train_set, val_set)).

(** One pass over the shuffled training loader. *)
Definition train_epoch (args : Args) (train_set : list (clip * nat))
    (l : learner net buffers) (epoch : Z) : prog rng (learner net buffers) :=
  λ w,
    let '(g', samples) := shuffle (gen w) train_set in
    let w' := {| fs := fs w; trace := trace w ++ [EpochStarted epoch]; gen := g';
                 zoo := zoo w |} in
    match train forward criterion backward step topk args
            (DataLoader (batch_size args) samples) l epoch with
    | inl e => (w', inl e)
    | inr st => ((emit (out st) w').1, ok (lrn st))
    end.

Definition run_validate (args : Args) (val_set : list (clip * nat)) (m : net)
  : prog rng R :=
  λ w,
    match validate forward criterion topk args
            (DataLoader (batch_size args) val_set) m with
    | inl e => (w, inl e)
    | inr r => ((emit r.2 w).1, ok r.1)
    end.

(** Lines 186-197: evaluate and checkpoint, when the epoch is due. *)
Definition evaluate_epoch (args : Args) (val_set : list (clip * nat))
    (l : learner net buffers) (epoch : Z) (best : R) : prog rng R :=
  due <~ lift (d <- divides (eval_freq args) (epoch + 1) ;;
               ok (d || (epoch =? epochs args - 1)%Z)) ;;
  if due : bool then
    prec1 <~ run_validate args val_set (model l) ;;
    λ w,
      let r := remember_best args epoch (state_dict_of (model l)) prec1 best (fs w) in
      ({| fs := r.2; trace := trace w; gen := gen w; zoo := zoo w |}, ok r.1)
  else lift (ok best).

(** Lines 179-197: [count] epochs starting at [epoch]. *)
Fixpoint epoch_loop (args : Args) (train_set val_set : list (clip * nat))
    (count : nat) (epoch : Z) (l : learner net buffers) (best : R)
  : prog rng (outcome net buffers) :=
  match count with
  | O => lift (ok {| final := l; best_prec1 := best |})
  | S count' =>
      let l0 := {| model := model l; grad := grad l;
                   param_groups := adjust_learning_rate args (param_groups l) epoch;
                   buf := buf l; n_steps := n_steps l |} in
      l1 <~ train_epoch args train_set l0 epoch ;;
      best' <~ evaluate_epoch args val_set l1 epoch best ;;
      epoch_loop args train_set val_set count' (epoch + 1) l1 best'
  end.

(** Lines 40-158 of [main]: everything before the loss is chosen;
    [best_prec1] starts at 0 (line 20). *)
Definition set_up (args : Args) : prog rng (setup net clip) :=
  cfg <~ lift (dataset_config args) ;;
  m0 <~ lift (TSN args cfg.1) ;;
  _ <~ emit [ModelConstructed cfg.1] ;;
  let policies := get_optim_policies m0 in
  m1 <~ initialise args m0 ;;
  r <~ resume_from args m1 0%R ;;
  sets <~ build_loaders args cfg.2 ;;
  lift (ok {| su_policies := policies; su_model := r.1.1; su_start_epoch := r.1.2;
              su_best_prec1 := r.2; su_train := sets.1; su_val := sets.2 |}).

(** Lines 160-197 of [main]: the loss, the optimizer, and either one
    evaluation or the epochs. *)
Definition run (args : Args) (su : setup net clip) : prog rng (outcome net buffers) :=
  _ <~ lift (if String.eqb (loss_type args) "nll" then ok tt
             else raise (ValueError "Unknown loss type")) ;;
  optimizer <~ lift (SGD (su_policies su) (lr args) (momentum args)
                        (weight_decay args) (nesterov args)) ;;
  _ <~ emit [OptimizerBuilt] ;;
  let l := {| model := su_model su; grad := None; param_groups := su_policies su;
              buf := optimizer; n_steps := 0 |} in
  if evaluate args then
    _ <~ run_validate args (su_val su) (su_model su) ;;
    lift (ok {| final := l; best_prec1 := su_best_prec1 su |})
  else
    epoch_loop args (su_train su) (su_val su)
      (Z.to_nat (epochs args - su_start_epoch su)) (su_start_epoch su) l
      (su_best_prec1 su).

(** [main()] *)
Definition main (args : Args) : prog rng (outcome net buffers) :=
  su <~ set_up args ;;
  run args su.

End Main.

(** ** Indexed runs and reference inputs *)

(** Run a loop body on every element of [xs] in order, counting from [i]. *)
Fixpoint run_indexed {B S} (body : Z → B → S → result S) (i : Z) (xs : list B)
    (st : S) : result S :=
  match xs with
  | [] => ok st
  | x :: rest => st' <- body i x st ;; run_indexed body (i + 1) rest st'
  end.

(** Following the specification, which speaks of top-1 accuracy: the class
    predicted for a row of scores is the one [Tensor.topk] ranks first. *)
Definition predicted (topk : nat → list R → result (list nat)) (row : list R)
  : option nat :=
  match topk 5%nat row with
  | inr idx => idx !! 0%nat
  | inl _ => None
  end.

(** The top-1 hits among rows of scores and their labels: the samples whose
    predicted class is their label. *)
Definition hits_among (topk : nat → list R → result (list nat))
    (output : list (list R)) (target : list nat) : nat :=
  length (filter (λ p, predicted topk p.1 = Some p.2) (zip output target)).

(** The top-1 hits of a batch under the model [m]. *)
Definition top1_hits {clip net} (forward : bool → net → list clip → list (list R))
    (topk : nat → list R → result (list nat)) (training : bool) (m : net)
    (b : list (clip * nat)) : nat :=
  hits_among topk (forward training m b.*1) b.*2.

(** The batch indices among [i], [i + 1], ... ([n] of them) that are
    multiples of [freq]: those for which a loop prints its progress line. *)
Definition multiples (freq i : Z) (n : nat) : list Z :=
  filter (λ j, (j mod freq = 0)%Z) (map (λ k, (i + Z.of_nat k)%Z) (seq 0 n)).

Definition is_progress (e : event) : bool :=
  match e with
  | Progress _ _ => true
  | _ => false
  end.

Definition sum_R (xs : list R) : R := fold_right Rplus 0%R xs.

(** Configurations used to exercise the statements below. *)
Definition make_args (dataset arch pretrained_parts modality loss_type resume : string)
    (iter_size : Z) (clip_gradient : option R) : Args :=
  {| dataset := dataset; arch := arch; pretrained_parts := pretrained_parts;
     modality := modality; loss_type := loss_type; snapshot_pref := "run";
     resume := resume; rgb_prefix := ""; flow_prefix := "";
     train_list := "train.txt"; val_list := "val.txt"; batch_size := 4;
     lr := 1 / 10; momentum := 9 / 10; lr_steps := [30; 60; 90]%Z;
     weight_decay := 5 / 10000; nesterov := false;
     iter_size := iter_size; clip_gradient := clip_gradient; print_freq := 20;
     eval_freq := 5; evaluate := false; start_epoch := 0; epochs := 5 |}.

Definition example_args : Args :=
  make_args "ucf101" "ECO" "scratch" "RGB" "nll" "" 1 None.

Definition example_checkpoint : checkpoint :=
  {| ck_epoch := 3; ck_arch := "ECO"; ck_state_dict := ∅; ck_best_prec1 := 0 |}.

(** A target with one convolution weight of size 3 x 3, and a 2D
    checkpoint that holds a weight of size 2 x 3 under the same name. *)
Definition target_example : state_dict :=
  {["module.base_model.conv1.weight" := zeros [3; 3]]}.

Definition files_example : Pretrained :=
  {| weights_2d := Some {["conv1.weight" := zeros [2; 3]]};
     weights_3d := None; weights_eco := None |}.

(** A 3D checkpoint whose special weight has eight input channels. *)
Definition files_3d_example : Pretrained :=
  {| weights_2d := None;
     weights_3d := Some {[res3a_2_weight := zeros [2; 8; 3; 3; 3]]};
     weights_eco := None |}.

(** A generator-free stand-in for [xavier_uniform_]: it refuses a tensor of
    fewer than two axes, as the library does, and leaves any other as it
    is. *)
Definition no_xavier (g : unit) (t : tensor) : result (unit * tensor) :=
  if (length (shape t) <? 2)%nat
  then raise (ValueError
    "Fan in and fan out can not be computed for tensor with fewer than 2 dimensions")
  else ok (g, t).

(** Stand-ins for the collaborators: a network of five classes whose
    scores are all zero, a loss that is constantly zero, a gradient that is
    1 for every parameter, plain stochastic gradient descent with learning
    rate 1 (no momentum, no weight decay), and a [topk] that answers with
    the first [k] indices, which is a correct answer when all scores are
    equal. *)
Definition toy_forward (training : bool) (m : list R) (xs : list unit)
  : list (list R) :=
  map (λ _, [0; 0; 0; 0; 0]%R) xs.

Definition toy_criterion (output : list (list R)) (target : list nat) : R := 0%R.

Definition unit_gradient (m : list R) (b : list (unit * nat)) : list R :=
  map (λ _, 1%R) m.

Definition plain_sgd (groups : list Optim.param_group) (b : unit) (m g : list R)
  : unit * list R :=
  (tt, zip_with (λ p d, p - 1 * d)%R m g).

Definition first_indices (k : nat) (row : list R) : result (list nat) :=
  if (length row <? k)%nat then raise (RuntimeError "k out of range")
  else ok (seq 0 k).

(** Stand-ins for the collaborators of [main]: a model of one parameter
    whose state dict is the example target, a loader of state dicts that
    accepts everything, one parameter group, empty datasets and no
    shuffling. *)
Definition toy_TSN (args : Args) (num_class : Z) : result (list R) := ok [0%R].
Definition toy_state_dict_of (m : list R) : state_dict := target_example.
Definition toy_load_state_dict (m : list R) (sd : state_dict) : result (list R) :=
  ok m.
Definition toy_policies (m : list R) : list Optim.param_group :=
  [{| Optim.name := "all"; Optim.lr_mult := 1; Optim.decay_mult := 1;
      Optim.lr := 0; Optim.weight_decay := 0 |}].

(** A stand-in for the constructor of the optimizer: as the library does,
    it refuses Nesterov momentum without a positive momentum, and an empty
    list of parameter groups. *)
Definition toy_SGD (policies : list Optim.param_group) (lr momentum weight_decay : R)
    (nesterov : bool) : result unit :=
  if nesterov && negb (bool_decide (momentum > 0)%R)
  then raise (ValueError "Nesterov momentum requires a momentum and zero dampening")
  else match policies with
       | [] => raise (ValueError "optimizer got an empty parameter list")
       | _ :: _ => ok tt
       end.
Definition toy_dataset (list_file : string) (new_length : nat) (image_tmpl : string)
  : list (unit * nat) := [].
Definition toy_shuffle (g : unit) (xs : list (unit * nat))
  : unit * list (unit * nat) := (g, xs).
Definition empty_world : world unit :=
  {| fs := ∅; trace := []; gen := tt; zoo := ∅ |}.

(** [main] with the stand-ins, over the example checkpoints. *)
Definition toy_main : Args → prog unit (outcome (list R) unit) :=
  main toy_forward toy_criterion unit_gradient plain_sgd first_indices no_xavier
    toy_TSN toy_state_dict_of toy_load_state_dict toy_policies toy_dataset
    toy_shuffle files_example toy_SGD.

(** One parameter, initially 0, and no gradient yet. *)
Definition learner0 : learner (list R) unit :=
  {| model := [0%R]; grad := None; param_groups := []; buf := tt; n_steps := 0 |}.

(** A loader of three batches of one sample each. *)
Definition three_batches : list (list (unit * nat)) :=
  [[(tt, 0%nat)]; [(tt, 0%nat)]; [(tt, 0%nat)]].

(** Nine samples, of classes 0 to 8. *)
Definition nine_samples : list (unit * nat) :=
  map (λ c, (tt, c)) (seq 0 9).

(** A run that accumulates over two batches and does not clip. *)
Definition accumulate_args : Args :=
  make_args "ucf101" "ECO" "scratch" "RGB" "nll" "" 2 None.

(** A run that clips at norm 1. *)
Definition clip_args : Args :=
  make_args "ucf101" "ECO" "scratch" "RGB" "nll" "" 1 (Some 1%R).

(** The sum of the top-1 meter is between 0 and 100 times its count, its
    average is between 0 and 100 and is the sum over the count. *)
Definition meter_ok (m : AverageMeter.t) : Prop :=
  (0 <= AverageMeter.sum m <= 100 * INR (AverageMeter.count m))%R
  ∧ (0 <= AverageMeter.avg m <= 100)%R
  ∧ (AverageMeter.avg m * INR (AverageMeter.count m) = AverageMeter.sum m)%R.

(** [for v, n in updates: meter.update(v, n)] *)
Fixpoint run_updates (m : AverageMeter.t) (updates : list (R * nat))
  : result AverageMeter.t :=
  match updates with
  | [] => ok m
  | (v, n) :: rest => m' <- AverageMeter.update m v n ;; run_updates m' rest
  end.

(** ** Quantities of the further properties *)

(** The weighted sum and the total weight of a sequence of meter updates. *)
Definition weighted_sum (us : list (R * nat)) : R :=
  sum_R (map (λ u, u.1 * INR u.2)%R us).
Definition total_weight (us : list (R * nat)) : nat := sum_list (map snd us).

(** How many samples have their class at rank [r] of their prediction. *)
Definition hits (r : nat) (pred : list (list nat)) (target : list nat) : nat :=
  length (filter (λ b, b = true)
            (zip_with (λ p t, bool_decide (p !! r = Some t)) pred target)).

(** How many of the [n] batch indices [i], [i + 1], ... are multiples of
    [iter]. *)
Definition boundaries (iter : Z) (i : Z) (n : nat) : nat :=
  length (filter (λ j, (j mod iter = 0)%Z) (map (λ k, (i + Z.of_nat k)%Z) (seq 0 n))).

(** A string without the character [_]. *)
Fixpoint no_underscore (s : string) : bool :=
  match s with
  | EmptyString => true
  | String c s' => negb (Ascii.eqb c "_") && no_underscore s'
  end.

(** The names under which a run saves: the best-model file and the
    checkpoint of some epoch. *)
Definition run_file (args : Args) (p : string) : Prop :=
  p = best_name args ∨ ∃ e, p = checkpoint_filename args e "checkpoint.pth.tar".

(** How a run may change the download cache: not at all, or by the file of
    the 2D weights, which [init_ECO] downloads for the [2D] and [both]
    sources when the cache does not have it. *)
Definition cache_step (files : Pretrained) (args : Args) (z z' : cache) : Prop :=
  z' = z
  ∨ (arch args = "ECO"
     ∧ (pretrained_parts args = "2D" ∨ pretrained_parts args = "both")
     ∧ z !! url_filename weight_url_2d = None
     ∧ ∃ d, weights_2d files = Some d
          ∧ z' = <[url_filename weight_url_2d := d]> z).

(** How the best-model file and the best precision move together: both
    unchanged, or the precision strictly higher and stored in the file. *)
Definition best_file_state (args : Args) (best best' : R) (fs0 fs1 : filesystem)
  : Prop :=
  (best' = best ∧ fs1 !! best_name args = fs0 !! best_name args)
  ∨ ((best' > best)%R
     ∧ ∃ ck, fs1 !! best_name args = Some ck
           ∧ ck_best_prec1 ck = best' ∧ ck_arch ck = arch args).

(** The configurations whose resolution ends with the channel repair. *)
Definition repairs (args : Args) : Prop :=
  arch args = "ECO"
  ∧ (pretrained_parts args = "3D" ∨ pretrained_parts args = "both").

(** A run that only evaluates. *)
Definition evaluate_args : Args :=
  {| dataset := "ucf101"; arch := "ECO"; pretrained_parts := "scratch";
     modality := "RGB"; loss_type := "nll"; snapshot_pref := "run";
     resume := ""; rgb_prefix := ""; flow_prefix := "";
     train_list := "train.txt"; val_list := "val.txt"; batch_size := 4;
     lr := 1 / 10; momentum := 9 / 10; lr_steps := [30; 60; 90]%Z;
     weight_decay := 5 / 10000; nesterov := false;
     iter_size := 1; clip_gradient := None; print_freq := 20;
     eval_freq := 5; evaluate := true; start_epoch := 0; epochs := 5 |}.

(** A run with an evaluation frequency of zero. *)
Definition zero_eval_args : Args :=
  {| dataset := "ucf101"; arch := "ECO"; pretrained_parts := "scratch";
     modality := "RGB"; loss_type := "nll"; snapshot_pref := "run";
     resume := ""; rgb_prefix := ""; flow_prefix := "";
     train_list := "train.txt"; val_list := "val.txt"; batch_size := 4;
     lr := 1 / 10; momentum := 9 / 10; lr_steps := [30; 60; 90]%Z;
     weight_decay := 5 / 10000; nesterov := false;
     iter_size := 1; clip_gradient := None; print_freq := 20;
     eval_freq := 0; evaluate := false; start_epoch := 0; epochs := 5 |}.

(** Both pretrained checkpoints: the 2D one of [files_example] and the 3D
    one of [files_3d_example]. *)
Definition files_both_example : Pretrained :=
  {| weights_2d := Some {["conv1.weight" := zeros [2; 3]]};
     weights_3d := Some {[res3a_2_weight := zeros [2; 8; 3; 3; 3]]};
     weights_eco := None |}.

(** The set-up of a run resumed at epoch 4, over empty datasets. *)
Definition last_epoch_setup : setup (list R) unit :=
  {| su_policies := toy_policies [0%R]; su_model := [0%R]; su_start_epoch := 4;
     su_best_prec1 := 0; su_train := []; su_val := [] |}.

(** [main] from the choice of the loss on, with the stand-ins. *)
Definition toy_run : Args → setup (list R) unit → prog unit (outcome (list R) unit) :=
  run toy_forward toy_criterion unit_gradient plain_sgd first_indices
    toy_state_dict_of toy_shuffle toy_SGD.

(** * Properties *)

Local Open Scope nat_scope.

(** ** Strings and file names *)

Lemma append_inj_l (p a b : string) : String.append p a = String.append p b → a = b.
Proof.
  induction p as [|c p IH]; simpl; [done|].
  intros H. injection H as H. by apply IH.
Qed.

Lemma checkpoint_filename_eq (args : Args) (epoch : Z) (filename : string) :
  checkpoint_filename args epoch filename =
  String.append (snapshot_pref args) (String.append "_"
    (String.append (lower (modality args)) (String.append "_epoch_"
      (String.append (str epoch) (String.append "_" filename))))).
Proof. reflexivity. Qed.

Lemma best_name_eq (args : Args) :
  best_name args =
  String.append (snapshot_pref args) (String.append "_"
    (String.append (lower (modality args)) "_model_best.pth.tar")).
Proof. reflexivity. Qed.

Lemma checkpoint_filename_not_best (args : Args) (epoch : Z) (filename : string) :
  checkpoint_filename args epoch filename ≠ best_name args.
Proof.
  rewrite checkpoint_filename_eq, best_name_eq. intros H.
  do 3 apply append_inj_l in H. simpl in H. discriminate.
Qed.

(** ** The checkpoint store *)

Lemma lookup_copyfile_dst (src dst : string) (fs0 : filesystem) (c : checkpoint) :
  fs0 !! src = Some c → copyfile src dst fs0 !! dst = Some c.
Proof. intros H. unfold copyfile. rewrite H. apply lookup_insert_eq. Qed.

Lemma lookup_copyfile_other (src dst p : string) (fs0 : filesystem) :
  p ≠ dst → copyfile src dst fs0 !! p = fs0 !! p.
Proof.
  intros H. unfold copyfile. destruct (fs0 !! src); [|done].
  by rewrite lookup_insert_ne.
Qed.

Lemma save_checkpoint_written (args : Args) (state : checkpoint) (is_best : bool)
    (fs0 : filesystem) :
  save_checkpoint args state is_best fs0
    !! checkpoint_filename args (ck_epoch state) "checkpoint.pth.tar" = Some state.
Proof.
  unfold save_checkpoint. destruct is_best; [|apply lookup_insert_eq].
  rewrite lookup_copyfile_other by apply checkpoint_filename_not_best.
  apply lookup_insert_eq.
Qed.

Lemma save_checkpoint_best (args : Args) (state : checkpoint) (is_best : bool)
    (fs0 : filesystem) :
  save_checkpoint args state is_best fs0 !! best_name args
  = if is_best then Some state else fs0 !! best_name args.
Proof.
  unfold save_checkpoint. destruct is_best.
  - apply lookup_copyfile_dst, lookup_insert_eq.
  - rewrite lookup_insert_ne; [done|]. apply checkpoint_filename_not_best.
Qed.

Lemma save_checkpoint_other (args : Args) (state : checkpoint) (is_best : bool)
    (fs0 : filesystem) (p : string) :
  p ≠ checkpoint_filename args (ck_epoch state) "checkpoint.pth.tar" →
  p ≠ best_name args →
  save_checkpoint args state is_best fs0 !! p = fs0 !! p.
Proof.
  intros H1 H2. unfold save_checkpoint. destruct is_best.
  - rewrite lookup_copyfile_other by done. by rewrite lookup_insert_ne.
  - by rewrite lookup_insert_ne.
Qed.

(** C7, as amended.  [save_checkpoint] writes the checkpoint under
    [<run_prefix>_<modality in lower case>_epoch_<epoch>_checkpoint.pth.tar].
    When [is_best] holds the same checkpoint is also stored under
    [<run_prefix>_<modality in lower case>_model_best.pth.tar], replacing
    what was there; otherwise that file is left as it was.  No other path
    changes. *)
Theorem save_checkpoint_files (args : Args) (state : checkpoint) (is_best : bool)
    (fs0 : filesystem) :
  let written :=
    String.append (snapshot_pref args) (String.append "_"
      (String.append (lower (modality args)) (String.append "_epoch_"
        (String.append (str (ck_epoch state)) "_checkpoint.pth.tar")))) in
  let best :=
    String.append (snapshot_pref args) (String.append "_"
      (String.append (lower (modality args)) "_model_best.pth.tar")) in
  let fs' := save_checkpoint args state is_best fs0 in
  fs' !! written = Some state
  ∧ fs' !! best = (if is_best then Some state else fs0 !! best)
  ∧ ∀ p, p ≠ written → p ≠ best → fs' !! p = fs0 !! p.
Proof.
  intros written best fs'.
  change written with (checkpoint_filename args (ck_epoch state) "checkpoint.pth.tar").
  change best with (best_name args). subst fs'.
  split; [apply save_checkpoint_written|].
  split; [apply save_checkpoint_best|].
  intros p. apply save_checkpoint_other.
Qed.

(** C7, as stated, fails: with run prefix [run], modality [RGB] and epoch 3
    a best save into an empty directory writes
    [run_rgb_epoch_3_checkpoint.pth.tar] and [run_rgb_model_best.pth.tar];
    no file with a name of the stated pattern exists afterwards, whether
    the modality is spelled as given or in lower case. *)
Lemma save_checkpoint_stated_names_absent :
  let fs' := save_checkpoint example_args example_checkpoint true ∅ in
  checkpoint_filename example_args 3 "checkpoint.pth.tar"
    = "run_rgb_epoch_3_checkpoint.pth.tar"
  ∧ best_name example_args = "run_rgb_model_best.pth.tar"
  ∧ fs' !! "run_RGB_epoch_3_checkpoint.tar" = None
  ∧ fs' !! "run_rgb_epoch_3_checkpoint.tar" = None
  ∧ fs' !! "run_RGB_model_best.tar" = None
  ∧ fs' !! "run_rgb_model_best.tar" = None.
Proof.
  intros fs'. split; [reflexivity|]. split; [reflexivity|].
  subst fs'. repeat split;
    (rewrite save_checkpoint_other; [apply lookup_empty | discriminate | discriminate]).
Qed.

(** ** Promotion of the best model *)

Lemma remember_best_exceeds (args : Args) (epoch : Z) (sd : state_dict)
    (prec1 best : R) (fs0 : filesystem) :
  (prec1 > best)%R →
  let r := remember_best args epoch sd prec1 best fs0 in
  r.1 = prec1
  ∧ r.2 !! best_name args
    = Some {| ck_epoch := epoch + 1; ck_arch := arch args;
              ck_state_dict := sd; ck_best_prec1 := prec1 |}.
Proof.
  intros H r. subst r. unfold remember_best. simpl.
  rewrite bool_decide_eq_true_2 by done.
  rewrite save_checkpoint_best.
  rewrite Rmax_left by lra. done.
Qed.

Lemma remember_best_not_exceeds (args : Args) (epoch : Z) (sd : state_dict)
    (prec1 best : R) (fs0 : filesystem) :
  ¬ (prec1 > best)%R →
  let r := remember_best args epoch sd prec1 best fs0 in
  r.1 = best ∧ r.2 !! best_name args = fs0 !! best_name args.
Proof.
  intros H r. subst r. unfold remember_best. simpl.
  rewrite bool_decide_eq_false_2 by done.
  rewrite save_checkpoint_best.
  rewrite Rmax_right by lra. done.
Qed.

Section Promotion.

Context {clip net buffers rng : Type}.
Variable forward : bool → net → list clip → list (list R).
Variable criterion : list (list R) → list nat → R.
Variable topk : nat → list R → result (list nat).
Variable state_dict_of : net → state_dict.

Lemma evaluate_epoch_due (args : Args) (val_set : list (clip * nat))
    (l : learner net buffers) (epoch : Z) (best prec1 : R) (w w1 : world rng) :
  divides (eval_freq args) (epoch + 1) = ok true ∨
    (divides (eval_freq args) (epoch + 1) = ok false ∧ epoch = (epochs args - 1)%Z) →
  run_validate forward criterion topk args val_set (model l) w = (w1, ok prec1) →
  evaluate_epoch forward criterion topk state_dict_of args val_set l epoch best w
  = (let r := remember_best args epoch (state_dict_of (model l)) prec1 best (fs w1) in
     ({| fs := r.2; trace := trace w1; gen := gen w1; zoo := zoo w1 |}, ok r.1)).
Proof.
  intros Hdue Hv. unfold evaluate_epoch, pbind, lift.
  destruct Hdue as [-> | [-> ->]]; simpl.
  - by rewrite Hv.
  - rewrite Z.eqb_refl. by rewrite Hv.
Qed.

Lemma evaluate_epoch_not_due (args : Args) (val_set : list (clip * nat))
    (l : learner net buffers) (epoch : Z) (best : R) (w : world rng) :
  divides (eval_freq args) (epoch + 1) = ok false →
  epoch ≠ (epochs args - 1)%Z →
  evaluate_epoch forward criterion topk state_dict_of args val_set l epoch best w
  = (w, ok best).
Proof.
  intros Hd Hne. unfold evaluate_epoch, pbind, lift. rewrite Hd. simpl.
  by rewrite (proj2 (Z.eqb_neq _ _) Hne).
Qed.

Lemma run_validate_fs (args : Args) (val_set : list (clip * nat)) (m : net)
    (w w1 : world rng) (r : result R) :
  run_validate forward criterion topk args val_set m w = (w1, r) →
  fs w1 = fs w ∧ gen w1 = gen w ∧ zoo w1 = zoo w.
Proof.
  unfold run_validate. destruct (validate _ _ _ _ _ _) as [e|v]; intros H.
  - by injection H as <- _.
  - by injection H as <- _.
Qed.

(** C8.  When an epoch is evaluated and [validate] returns [prec1], the
    best-model file is overwritten exactly when [prec1] is strictly greater
    than the best precision recorded so far: in that case the file then holds
    the new checkpoint and the recorded best becomes [prec1]; otherwise the
    best-model file and the recorded best are as they were before. *)
Theorem best_model_promotion (args : Args) (val_set : list (clip * nat))
    (l : learner net buffers) (epoch : Z) (best prec1 : R) (w w1 : world rng) :
  divides (eval_freq args) (epoch + 1) = ok true ∨
    (divides (eval_freq args) (epoch + 1) = ok false ∧ epoch = (epochs args - 1)%Z) →
  run_validate forward criterion topk args val_set (model l) w = (w1, ok prec1) →
  ∃ w' best',
    evaluate_epoch forward criterion topk state_dict_of args val_set l epoch best w
      = (w', ok best')
    ∧ ((prec1 > best)%R →
         best' = prec1
         ∧ fs w' !! best_name args
           = Some {| ck_epoch := epoch + 1; ck_arch := arch args;
                     ck_state_dict := state_dict_of (model l);
                     ck_best_prec1 := prec1 |})
    ∧ (¬ (prec1 > best)%R →
         best' = best ∧ fs w' !! best_name args = fs w !! best_name args).
Proof.
  intros Hdue Hv. eexists _, _. split.
  - by apply evaluate_epoch_due.
  - simpl. destruct (run_validate_fs _ _ _ _ _ _ Hv) as [<- _].
    split; intros H.
    + by apply remember_best_exceeds.
    + by apply remember_best_not_exceeds.
Qed.

End Promotion.

(** ** The learning-rate schedule *)

Lemma adjust_learning_rate_lookup (args : Args) (groups : list Optim.param_group)
    (epoch : Z) (i : nat) :
  adjust_learning_rate args groups epoch !! i = adjust_group args epoch <$> groups !! i.
Proof. unfold adjust_learning_rate. apply list_lookup_fmap. Qed.

Lemma decayed_lr_example (args : Args) :
  lr_steps args = [30; 60; 90]%Z → lr args = (1 / 10)%R →
  decayed_lr args 29 = (1 / 10)%R
  ∧ decayed_lr args 30 = (1 / 100)%R
  ∧ decayed_lr args 90 = (1 / 10000)%R.
Proof.
  intros Hs Hl. unfold decayed_lr. rewrite Hs, Hl.
  repeat split; vm_compute steps_passed; simpl; lra.
Qed.

Section Schedule.

Context {clip net buffers rng : Type}.
Variable forward : bool → net → list clip → list (list R).
Variable criterion : list (list R) → list nat → R.
Variable backward : net → list (clip * nat) → list R.
Variable step : list Optim.param_group → buffers → net → list R → buffers * net.
Variable topk : nat → list R → result (list nat).
Variable state_dict_of : net → state_dict.
Variable shuffle : rng → list (clip * nat) → rng * list (clip * nat).

(** C3.  Every epoch of the loop of [main] starts by adjusting the
    parameter groups, before the training pass.  The adjustment keeps the
    groups in place and in order and sets, in each group, the learning rate
    to [base_lr * 0.1 ^ k * lr_mult], where [k] counts the thresholds of
    [lr_steps] that are at most the epoch, and the weight decay to
    [base_decay * decay_mult].  With thresholds 30, 60, 90 and base rate 0.1
    the decayed base rate is 0.1 at epoch 29, 0.01 at epoch 30 and 0.0001 at
    epoch 90. *)
Theorem learning_rate_schedule (args : Args) :
  (∀ train_set val_set count epoch (l : learner net buffers) best,
     epoch_loop forward criterion backward step topk state_dict_of shuffle
       args train_set val_set (S count) epoch l best
     = pbind
         (train_epoch forward criterion backward step topk shuffle args train_set
            {| model := model l; grad := grad l;
               param_groups := adjust_learning_rate args (param_groups l) epoch;
               buf := buf l; n_steps := n_steps l |} epoch)
         (λ l1,
            pbind (evaluate_epoch forward criterion topk state_dict_of args val_set
                     l1 epoch best)
              (λ best',
                 epoch_loop forward criterion backward step topk state_dict_of
                   shuffle args train_set val_set count (epoch + 1) l1 best')))
  ∧ (∀ groups epoch,
       length (adjust_learning_rate args groups epoch) = length groups
       ∧ ∀ i g, groups !! i = Some g →
           ∃ g', adjust_learning_rate args groups epoch !! i = Some g'
             ∧ Optim.lr g'
               = (lr args
                  * (1 / 10) ^ length (filter (λ s, (s ≤ epoch)%Z) (lr_steps args))
                  * Optim.lr_mult g)%R
             ∧ Optim.weight_decay g' = (weight_decay args * Optim.decay_mult g)%R
             ∧ Optim.name g' = Optim.name g
             ∧ Optim.lr_mult g' = Optim.lr_mult g
             ∧ Optim.decay_mult g' = Optim.decay_mult g)
  ∧ (lr_steps args = [30; 60; 90]%Z → lr args = (1 / 10)%R →
       decayed_lr args 29 = (1 / 10)%R
       ∧ decayed_lr args 30 = (1 / 100)%R
       ∧ decayed_lr args 90 = (1 / 10000)%R).
Proof.
  split; [reflexivity|]. split; [|apply decayed_lr_example].
  intros groups epoch. split.
  - unfold adjust_learning_rate. apply length_map.
  - intros i g Hg. exists (adjust_group args epoch g).
    rewrite adjust_learning_rate_lookup, Hg. done.
Qed.

End Schedule.

(** ** Chunks and concatenation *)

Lemma chunk_len_4 (c : nat) : chunk_len (4 * c) 4 = c.
Proof.
  unfold chunk_len. symmetry. apply (Nat.div_unique _ _ _ 3); lia.
Qed.

Lemma num_chunks_4 (c : nat) : num_chunks (4 * c) 4 = 4.
Proof.
  unfold num_chunks. rewrite chunk_len_4.
  destruct c as [|c]; [reflexivity|].
  replace (S c =? 0) with false by reflexivity.
  symmetry. apply (Nat.div_unique _ _ _ c); lia.
Qed.

Lemma chunk_4 (w : tensor) (c : nat) :
  shape w !! 1 = Some (4 * c) →
  chunk w 4 1 = ok [narrow w 1 0 c; narrow w 1 c c; narrow w 1 (2 * c) c;
                    narrow w 1 (3 * c) c].
Proof.
  intros H. unfold chunk. rewrite H. simpl "=?".
  cbv iota. rewrite num_chunks_4, chunk_len_4. unfold ok. f_equal.
  simpl.
  repeat match goal with |- _ :: _ = _ :: _ => f_equal end;
    try (f_equal; lia); done.
Qed.

Lemma alter_fix {A} (f : A → A) (i : nat) (l : list A) (x : A) :
  l !! i = Some x → f x = x → alter f i l = l.
Proof.
  intros Hl Hf. apply list_eq. intros k. destruct (decide (k = i)) as [->|Hk].
  - rewrite list_lookup_alter_eq, Hl. simpl. by rewrite Hf.
  - by rewrite list_lookup_alter_ne.
Qed.

Lemma alter_none {A} (f : A → A) (i : nat) (l : list A) :
  l !! i = None → alter f i l = l.
Proof.
  intros Hl. apply list_eq. intros k. destruct (decide (k = i)) as [->|Hk].
  - rewrite list_lookup_alter_eq, Hl. done.
  - by rewrite list_lookup_alter_ne.
Qed.

Lemma narrow_shape_axis (w : tensor) (dim start len : nat) :
  (dim < length (shape w))%nat → shape (narrow w dim start len) !! dim = Some len.
Proof. intros H. simpl. by apply list_lookup_insert_eq. Qed.

Lemma at_narrow_shift (w : tensor) (start len j : nat) (idx : list nat) :
  idx !! 1 = Some j → (start ≤ j)%nat →
  at_ (narrow w 1 start len) (alter (λ k, k - start)%nat 1 idx) = at_ w idx.
Proof.
  intros Hj Hle. simpl. rewrite list_alter_alter_eq.
  f_equal. apply (alter_fix _ _ _ j); [done|]. simpl. lia.
Qed.

Lemma at_narrow_0 (w : tensor) (len : nat) (idx : list nat) :
  at_ (narrow w 1 0 len) idx = at_ w idx.
Proof.
  simpl. f_equal. destruct (idx !! 1) as [j|] eqn:E.
  - by apply (alter_fix _ _ _ j).
  - by apply alter_none.
Qed.

Lemma cat_at_cons (t : tensor) (rest : list tensor) (dim n : nat) (idx : list nat) :
  shape t !! dim = Some n →
  cat_at (t :: rest) dim idx
  = if default 0 (idx !! dim) <? n then at_ t idx
    else cat_at rest dim (alter (λ j, j - n) dim idx).
Proof. intros H. simpl. by rewrite H. Qed.

Lemma default_alter_sub (n i : nat) (idx : list nat) :
  default 0 (alter (λ j, j - n) i idx !! i) = default 0 (idx !! i) - n.
Proof. rewrite list_lookup_alter_eq. by destruct (idx !! i). Qed.

Lemma lookup_of_default_pos (i j : nat) (idx : list nat) :
  default 0 (idx !! i) = j → 0 < j → idx !! i = Some j.
Proof. destruct (idx !! i); simpl; intros; [congruence | lia]. Qed.

(** The first three of four chunks, put together again. *)
Lemma cat_first_three (w : tensor) (c : nat) :
  shape w !! 1 = Some (4 * c) →
  ∃ r, cat [narrow w 1 0 c; narrow w 1 c c; narrow w 1 (2 * c) c] 1 = ok r
     ∧ shape r = <[1 := 3 * c]> (shape w)
     ∧ ∀ idx, default 0 (idx !! 1) < 3 * c → at_ r idx = at_ w idx.
Proof.
  intros H. pose proof (lookup_lt_Some _ _ _ H) as Hlen.
  eexists. split; [|split].
  - unfold cat. rewrite bool_decide_eq_true_2 by (simpl; by rewrite length_insert).
    replace (forallb _ _) with true; [reflexivity|].
    symmetry. simpl. unfold same_off_axis. simpl.
    rewrite !list_insert_insert_eq. by rewrite !bool_decide_eq_true_2.
  - simpl. rewrite !list_lookup_insert_eq by done. simpl.
    rewrite list_insert_insert_eq. f_equal; lia.
  - intros idx Hidx. cbn [at_].
    remember (default 0 (idx !! 1)) as j eqn:Ej. symmetry in Ej.
    rewrite (cat_at_cons _ _ _ c) by (by apply narrow_shape_axis). rewrite Ej.
    destruct (Nat.ltb_spec j c) as [Hj|Hj]; [apply at_narrow_0|].
    assert (Hsome : idx !! 1 = Some j) by (apply lookup_of_default_pos; [done|lia]).
    rewrite (cat_at_cons _ _ _ c) by (by apply narrow_shape_axis).
    rewrite default_alter_sub, Ej.
    destruct (Nat.ltb_spec (j - c) c) as [Hj1|Hj1].
    { by apply (at_narrow_shift _ _ _ j). }
    rewrite (cat_at_cons _ _ _ c) by (by apply narrow_shape_axis).
    rewrite !default_alter_sub, Ej.
    destruct (Nat.ltb_spec (j - c - c) c) as [Hj2|Hj2]; [|lia].
    rewrite list_alter_alter_eq.
    rewrite <- (at_narrow_shift w (2 * c) c j idx) by (done || lia).
    f_equal. apply list_alter_ext; [|done]. intros; simpl; lia.
Qed.

Lemma channel_repair_ok (src nsd : state_dict) (w : tensor) (c : nat) :
  src !! res3a_2_weight = Some w →
  shape w !! 1 = Some (4 * c) →
  ∃ r, channel_repair src nsd = ok (<[res3a_2_weight := r]> nsd)
     ∧ cat [narrow w 1 0 c; narrow w 1 c c; narrow w 1 (2 * c) c] 1 = ok r
     ∧ shape r = <[1 := 3 * c]> (shape w)
     ∧ ∀ idx, default 0 (idx !! 1) < 3 * c → at_ r idx = at_ w idx.
Proof.
  intros Hw Hs. destruct (cat_first_three w c Hs) as (r & Hcat & Hshape & Hat).
  exists r. split; [|done].
  unfold channel_repair, getitem. rewrite Hw. cbn [rbind ok].
  rewrite (chunk_4 w c Hs). cbn [rbind ok]. unfold index. cbn [lookup list_lookup rbind ok].
  by rewrite Hcat.
Qed.

Lemma channel_repair_other (src nsd nsd' : state_dict) (k : string) :
  channel_repair src nsd = ok nsd' → k ≠ res3a_2_weight → nsd' !! k = nsd !! k.
Proof.
  unfold channel_repair. intros H Hk.
  destruct (getitem src res3a_2_weight) as [|w]; cbn [rbind] in H; [done|].
  destruct (chunk w 4 1) as [|cks]; cbn [rbind] in H; [done|].
  destruct (index cks 0) as [|c0]; cbn [rbind] in H; [done|].
  destruct (index cks 1) as [|c1]; cbn [rbind] in H; [done|].
  destruct (index cks 2) as [|c2]; cbn [rbind] in H; [done|].
  destruct (cat [c0; c1; c2] 1) as [|r]; cbn [rbind] in H; [done|].
  injection H as <-. by rewrite lookup_insert_ne.
Qed.

Lemma fits_shape (model_dict : state_dict) (k : string) (v t : tensor) :
  fits model_dict k v = true → model_dict !! k = Some t → shape v = shape t.
Proof.
  unfold fits. intros H Hk. rewrite Hk in H. by apply bool_decide_eq_true in H.
Qed.

Lemma lookup_keep_fitting (model_dict src : state_dict) (k : string) (v : tensor) :
  keep_fitting model_dict src !! k = Some v ↔ src !! k = Some v ∧ fits model_dict k v = true.
Proof. unfold keep_fitting. by rewrite map_lookup_filter_Some. Qed.

Lemma lookup_transplant (model_dict src base : state_dict) (k : string) :
  transplant model_dict src base !! k
  = match src !! k with
    | Some v => if fits model_dict k v then Some v else base !! k
    | None => base !! k
    end.
Proof.
  unfold transplant.
  apply (map_fold_weak_ind
           (λ r m, r !! k = match m !! k with
                            | Some v => if fits model_dict k v then Some v else base !! k
                            | None => base !! k
                            end)).
  - by rewrite lookup_empty.
  - intros i x m r Hi IH. destruct (decide (i = k)) as [->|Hne].
    + rewrite lookup_insert_eq. destruct (fits model_dict k x).
      * by rewrite lookup_insert_eq.
      * by rewrite IH, Hi.
    + rewrite (lookup_insert_ne m) by done. destruct (fits model_dict i x).
      * by rewrite lookup_insert_ne.
      * done.
Qed.

#[local] Instance append_inj (p : string) : Inj (=) (=) (String.append p).
Proof. intros a b. apply append_inj_l. Qed.

Lemma lookup_remap_2d (model_dict src : state_dict) (k : string) (v : tensor) :
  remap_2d model_dict src !! k = Some v
  ↔ is_Some (model_dict !! k)
    ∧ ∃ k0, k = String.append "module.base_model." k0 ∧ src !! k0 = Some v.
Proof.
  unfold remap_2d. rewrite map_lookup_filter_Some, lookup_kmap_Some by apply _.
  simpl. tauto.
Qed.

(** ** The download cache *)

Lemma pbind_lift {S A B} (c : S → S * result A) (f : A → result B) (z : S) :
  pbind c (λ a, lift (f a)) z = ((c z).1, rbind (c z).2 f).
Proof. unfold pbind, lift. by destruct (c z) as [z' [e|a]]. Qed.

Lemma load_url_value (url : string) (served : option state_dict) (z : cache)
    (d : state_dict) :
  (load_url url served z).2 = ok d
  ↔ z !! url_filename url = Some d
    ∨ (z !! url_filename url = None ∧ served = Some d).
Proof.
  unfold load_url. destruct (z !! url_filename url) as [d0|]; simpl.
  - split; [intros H; injection H as ->; by left|].
    intros [H|[H _]]; [by injection H as ->|done].
  - destruct served as [d0|]; simpl.
    + split; [intros H; injection H as ->; by right|].
      intros [H|[_ H]]; [done|by injection H as ->].
    + split; [done|]. by intros [H|[_ H]].
Qed.

(** [load_url] changes the cache by at most the file it downloaded. *)
Lemma load_url_cache (url : string) (served : option state_dict) (z : cache) :
  (load_url url served z).1 = z
  ∨ (z !! url_filename url = None
     ∧ ∃ d, served = Some d ∧ (load_url url served z).1 = <[url_filename url := d]> z).
Proof.
  unfold load_url. destruct (z !! url_filename url) as [d0|]; [by left|].
  destruct served as [d|]; [|by left]. right. eauto.
Qed.

(** The resolver changes the cache by at most the download of the 2D
    weights. *)
Lemma resolve_cache (files : Pretrained) (args : Args) (model_dict : state_dict)
    (z : cache) :
  cache_step files args z (resolve files args model_dict z).1.
Proof.
  unfold cache_step, resolve. destruct (String.eqb (arch args) "ECO") eqn:Ea.
  2:{ left. destruct (String.eqb (arch args) "C3DRes18"); reflexivity. }
  apply String.eqb_eq in Ea. unfold init_ECO.
  destruct (String.eqb _ "scratch"); [left; reflexivity|].
  destruct (String.eqb _ "2D") eqn:E2.
  { apply String.eqb_eq in E2. rewrite pbind_lift. cbn [fst].
    destruct (load_url_cache weight_url_2d (weights_2d files) z)
      as [->|(Hn & d & Hd & ->)]; [by left|].
    right. split; [done|]. split; [by left|]. split; [done|]. by exists d. }
  destruct (String.eqb _ "3D"); [left; reflexivity|].
  destruct (String.eqb _ "finetune"); [left; reflexivity|].
  destruct (String.eqb _ "both") eqn:E5; [|left; reflexivity].
  apply String.eqb_eq in E5.
  rewrite (pbind_lift (load_url weight_url_2d (weights_2d files))). cbn [fst].
  destruct (load_url_cache weight_url_2d (weights_2d files) z)
    as [->|(Hn & d & Hd & ->)]; [by left|].
  right. split; [done|]. split; [by right|]. split; [done|]. by exists d.
Qed.

Section GapFillFacts.

Context {rng : Type}.
Variable xavier_uniform_ : rng → tensor → result (rng * tensor).

Lemma default_init_filled (g g' : rng) (k : string) (sz : list nat) (v : tensor) :
  default_init xavier_uniform_ g k sz = ok (g', v) →
  filled_as xavier_uniform_ k sz v.
Proof.
  unfold filled_as, default_init.
  destruct (str_in "weight" k), (str_in "bn" k), (str_in "bias" k);
    intros H; repeat split; intros Hw Hb; try discriminate;
    first [by injection H as _ <- | by exists g, g'].
Qed.

Lemma default_init_shape (g g' : rng) (k : string) (sz : list nat) (v : tensor) :
  (∀ g0 t g1 v, xavier_uniform_ g0 t = ok (g1, v) → shape v = shape t) →
  default_init xavier_uniform_ g k sz = ok (g', v) → shape v = sz.
Proof.
  intros Hx. unfold default_init.
  destruct (str_in "weight" k), (str_in "bn" k), (str_in "bias" k);
    intros H; try (by injection H as _ <-); by apply Hx in H.
Qed.

(** Only [xavier_uniform_] can make the body of the loop raise. *)
Lemma default_init_succeeds (g : rng) (k : string) (sz : list nat) :
  (str_in "weight" k = true → str_in "bn" k = false →
     is_ok (xavier_uniform_ g (zeros sz))) →
  is_ok (default_init xavier_uniform_ g k sz).
Proof.
  unfold default_init.
  destruct (str_in "weight" k), (str_in "bn" k), (str_in "bias" k);
    intros H; try (by eexists); by apply H.
Qed.

Lemma default_init_fails (g : rng) (k : string) (sz : list nat) :
  str_in "weight" k = true → str_in "bn" k = false →
  is_error (xavier_uniform_ g (zeros sz)) →
  is_error (default_init xavier_uniform_ g k sz).
Proof. unfold default_init. by intros -> ->. Qed.

Lemma elem_of_un_init_dict_keys (model_dict nsd : state_dict) (k : string) :
  k ∈ un_init_dict_keys model_dict nsd ↔ nsd !! k = None ∧ is_Some (model_dict !! k).
Proof.
  unfold un_init_dict_keys. rewrite list_elem_of_filter, list_elem_of_fmap.
  split.
  - intros [Hn [[k' t] [-> Hin]]]. apply elem_of_map_to_list in Hin. eauto.
  - intros [Hn [t Ht]]. split; [done|]. exists (k, t). split; [done|].
    by apply elem_of_map_to_list.
Qed.

Lemma NoDup_un_init_dict_keys (model_dict nsd : state_dict) :
  NoDup (un_init_dict_keys model_dict nsd).
Proof. apply NoDup_filter, NoDup_fst_map_to_list. Qed.

Lemma gap_fill_step_ok (model_dict : state_dict) (g g' : rng) (acc st : state_dict)
    (k : string) :
  gap_fill_step xavier_uniform_ model_dict (g, acc) k = ok (g', st) →
  ∃ t v, model_dict !! k = Some t
       ∧ default_init xavier_uniform_ g k (shape t) = ok (g', v)
       ∧ st = <[k := v]> acc.
Proof.
  unfold gap_fill_step, getitem. cbn [fst snd].
  destruct (model_dict !! k) as [t|]; cbn [rbind ok]; [|done].
  destruct (default_init _ _ _ _) as [e|[g1 v]] eqn:E; cbn [rbind ok]; [done|].
  cbn [fst snd]. intros H. injection H as <- <-. by exists t, v.
Qed.

Lemma foldM_gap_fill_step (model_dict : state_dict) (ks : list string) :
  NoDup ks → ∀ (g g' : rng) (acc st : state_dict),
  foldM (gap_fill_step xavier_uniform_ model_dict) (g, acc) ks = ok (g', st) →
  (∀ k, k ∉ ks → st !! k = acc !! k)
  ∧ (∀ k t, k ∈ ks → model_dict !! k = Some t →
       ∃ g0 g1 v, default_init xavier_uniform_ g0 k (shape t) = ok (g1, v)
                ∧ st !! k = Some v).
Proof.
  induction 1 as [|k0 ks Hk0 Hnd IH]; intros g g' acc st; cbn [foldM].
  - intros H. injection H as <- <-. split; [done|].
    intros k t Hk. by apply elem_of_nil in Hk.
  - destruct (gap_fill_step _ _ _ _) as [e|[g1 acc1]] eqn:E; cbn [rbind]; [done|].
    intros H. apply IH in H as [IH1 IH2].
    apply gap_fill_step_ok in E as (t0 & v0 & Ht0 & Hd & ->).
    split.
    + intros k Hk. apply not_elem_of_cons in Hk as [Hne Hk].
      rewrite IH1 by done. by rewrite lookup_insert_ne.
    + intros k t Hk Ht. apply elem_of_cons in Hk as [->|Hk]; [|by eapply IH2].
      rewrite IH1 by done. rewrite Ht in Ht0. injection Ht0 as <-.
      exists g, g1, v0. by rewrite lookup_insert_eq.
Qed.

Lemma foldM_gap_fill_succeeds (model_dict : state_dict) (ks : list string) :
  (∀ k, k ∈ ks → ∃ t, model_dict !! k = Some t
                    ∧ ∀ g0, is_ok (default_init xavier_uniform_ g0 k (shape t))) →
  ∀ (g : rng) (acc : state_dict),
    is_ok (foldM (gap_fill_step xavier_uniform_ model_dict) (g, acc) ks).
Proof.
  induction ks as [|k0 ks IH]; intros Hks g acc; cbn [foldM]; [by eexists|].
  destruct (Hks k0) as (t & Ht & Hd); [by left|].
  unfold gap_fill_step at 1, getitem. cbn [fst snd]. rewrite Ht. cbn [rbind ok].
  destruct (Hd g) as [[g1 v] ->]. cbn [rbind ok].
  apply IH. intros k Hk. apply Hks. by right.
Qed.

Lemma foldM_gap_fill_fails (model_dict : state_dict) (ks : list string)
    (k : string) (t : tensor) :
  k ∈ ks → model_dict !! k = Some t →
  (∀ g0, is_error (default_init xavier_uniform_ g0 k (shape t))) →
  ∀ (g : rng) (acc : state_dict),
    is_error (foldM (gap_fill_step xavier_uniform_ model_dict) (g, acc) ks).
Proof.
  intros Hk Ht Hd. induction ks as [|k0 ks IH]; intros g acc;
    [by apply elem_of_nil in Hk|].
  cbn [foldM].
  destruct (gap_fill_step _ _ _ _) as [e|[g1 acc1]] eqn:E; cbn [rbind];
    [by exists e|].
  apply elem_of_cons in Hk as [->|Hk]; [|by apply IH].
  apply gap_fill_step_ok in E as (t0 & v0 & Ht0 & Hd0 & _).
  rewrite Ht in Ht0. injection Ht0 as <-.
  destruct (Hd g) as [e He]. rewrite He in Hd0. done.
Qed.

Lemma gap_fill_resolved (g g' : rng) (model_dict nsd st : state_dict) (k : string)
    (v : tensor) :
  gap_fill xavier_uniform_ g model_dict nsd = ok (g', st) →
  nsd !! k = Some v → st !! k = Some v.
Proof.
  unfold gap_fill. intros H Hk.
  apply (foldM_gap_fill_step model_dict _ (NoDup_un_init_dict_keys model_dict nsd))
    in H as [H1 _].
  rewrite H1; [done|]. rewrite elem_of_un_init_dict_keys. intros [Hn _]. congruence.
Qed.

Lemma gap_fill_unresolved (g g' : rng) (model_dict nsd st : state_dict) (k : string)
    (t : tensor) :
  gap_fill xavier_uniform_ g model_dict nsd = ok (g', st) →
  nsd !! k = None → model_dict !! k = Some t →
  ∃ g0 g1 v, default_init xavier_uniform_ g0 k (shape t) = ok (g1, v)
           ∧ st !! k = Some v.
Proof.
  unfold gap_fill. intros H Hn Ht.
  apply (foldM_gap_fill_step model_dict _ (NoDup_un_init_dict_keys model_dict nsd))
    in H as [_ H2].
  apply H2; [|done]. rewrite elem_of_un_init_dict_keys. eauto.
Qed.

Lemma gap_fill_elsewhere (g g' : rng) (model_dict nsd st : state_dict) (k : string) :
  gap_fill xavier_uniform_ g model_dict nsd = ok (g', st) →
  nsd !! k = None → model_dict !! k = None → st !! k = None.
Proof.
  unfold gap_fill. intros H Hn Ht.
  apply (foldM_gap_fill_step model_dict _ (NoDup_un_init_dict_keys model_dict nsd))
    in H as [H1 _].
  rewrite H1; [done|]. rewrite elem_of_un_init_dict_keys. intros [_ [t Ht']]. congruence.
Qed.

(** The gap fill succeeds when [xavier_uniform_] accepts the tensors it is
    called on. *)
Lemma gap_fill_succeeds (g : rng) (model_dict nsd : state_dict) :
  (∀ k t, model_dict !! k = Some t → nsd !! k = None →
     str_in "weight" k = true → str_in "bn" k = false →
     ∀ g0, is_ok (xavier_uniform_ g0 (zeros (shape t)))) →
  is_ok (gap_fill xavier_uniform_ g model_dict nsd).
Proof.
  intros Hx. unfold gap_fill. apply foldM_gap_fill_succeeds.
  intros k Hk. apply elem_of_un_init_dict_keys in Hk as [Hn [t Ht]].
  exists t. split; [done|]. intros g0. apply default_init_succeeds.
  intros Hw Hb. by eapply Hx.
Qed.

(** It raises when [xavier_uniform_] refuses one of them. *)
Lemma gap_fill_fails (g : rng) (model_dict nsd : state_dict) (k : string) (t : tensor) :
  model_dict !! k = Some t → nsd !! k = None →
  str_in "weight" k = true → str_in "bn" k = false →
  (∀ g0, is_error (xavier_uniform_ g0 (zeros (shape t)))) →
  is_error (gap_fill xavier_uniform_ g model_dict nsd).
Proof.
  intros Ht Hn Hw Hb Hx. unfold gap_fill.
  apply (foldM_gap_fill_fails model_dict _ k t); [|done|].
  - apply elem_of_un_init_dict_keys. eauto.
  - intros g0. by apply default_init_fails.
Qed.

End GapFillFacts.

Lemma init_C3DRes18_shapes (files : Pretrained) (args : Args)
    (model_dict nsd : state_dict) (k : string) (v t : tensor) :
  init_C3DRes18 files args model_dict = ok nsd →
  nsd !! k = Some v → model_dict !! k = Some t → shape v = shape t.
Proof.
  unfold init_C3DRes18. intros H Hv Ht.
  destruct (String.eqb _ "scratch").
  { injection H as <-. by rewrite lookup_empty in Hv. }
  destruct (String.eqb _ "3D"); [|done].
  destruct (load _ _) as [|d]; cbn [rbind] in H; [done|].
  injection H as <-. apply lookup_keep_fitting in Hv as [_ Hf].
  by eapply fits_shape.
Qed.

(** An entry the channel repair leaves in a transplant over [base] fits the
    target or comes from [base]. *)
Lemma repaired_entry (model_dict src base nsd : state_dict) (k : string)
    (v t : tensor) :
  channel_repair src (transplant model_dict src base) = ok nsd →
  k ≠ res3a_2_weight →
  nsd !! k = Some v → model_dict !! k = Some t →
  shape v = shape t ∨ base !! k = Some v.
Proof.
  intros H Hk Hv Ht.
  rewrite (channel_repair_other _ _ _ _ H Hk), lookup_transplant in Hv.
  destruct (src !! k) as [x|]; [|by right].
  destruct (fits model_dict k x) eqn:Hf; [|by right].
  injection Hv as ->. left. by eapply fits_shape.
Qed.

Lemma init_ECO_shapes (files : Pretrained) (args : Args)
    (model_dict nsd : state_dict) (z : cache) (k : string) (v t : tensor) :
  arch args = "ECO" →
  (init_ECO files args model_dict z).2 = ok nsd →
  nsd !! k = Some v → model_dict !! k = Some t →
  shape v = shape t ∨ unchecked files args z k v.
Proof.
  intros Ha. unfold init_ECO, unchecked.
  destruct (String.eqb _ "scratch") eqn:E1.
  { intros H. injection H as <-. by rewrite lookup_empty. }
  destruct (String.eqb _ "2D") eqn:E2.
  { apply String.eqb_eq in E2. rewrite pbind_lift. cbn [snd].
    destruct (load_url _ _ _).2 as [|d2] eqn:Hu; cbn [rbind]; [done|].
    intros H Hv _. injection H as <-. apply lookup_remap_2d in Hv as [_ (k0 & -> & Hk0)].
    right. split; [done|]. right. split; [by left|]. by exists d2, k0. }
  destruct (String.eqb _ "3D") eqn:E3.
  { apply String.eqb_eq in E3. unfold lift. cbn [snd].
    destruct (load _ _) as [|d]; cbn [rbind]; [done|]. intros H Hv Ht.
    destruct (decide (k = res3a_2_weight)) as [->|Hk].
    { right. split; [done|]. left. split; [done|]. by left. }
    destruct (repaired_entry _ _ _ _ _ _ _ H Hk Hv Ht) as [Hs|Hb]; [by left|].
    by rewrite lookup_empty in Hb. }
  destruct (String.eqb _ "finetune") eqn:E4.
  { unfold lift. cbn [snd].
    destruct (load _ _) as [|d]; cbn [rbind]; [done|]. intros H Hv Ht.
    injection H as <-. apply lookup_keep_fitting in Hv as [_ Hf].
    left. by eapply fits_shape. }
  destruct (String.eqb _ "both") eqn:E5; [|done].
  apply String.eqb_eq in E5. unfold pbind, lift.
  destruct (load_url _ _ _) as [z' [|d2]] eqn:Hu; cbn [snd]; [done|].
  assert (Hu2 : (load_url weight_url_2d (weights_2d files) z).2 = ok d2)
    by (by rewrite Hu).
  destruct (load _ _) as [|d]; cbn [rbind]; [done|]. intros H Hv Ht.
  destruct (decide (k = res3a_2_weight)) as [->|Hk].
  { right. split; [done|]. left. split; [done|]. by right. }
  destruct (repaired_entry _ _ _ _ _ _ _ H Hk Hv Ht) as [Hs|Hb]; [by left|].
  apply lookup_remap_2d in Hb as [_ (k0 & -> & Hk0)].
  right. split; [done|]. right. split; [by right|]. by exists d2, k0.
Qed.

(** Every entry of the resolved mapping has the target's shape, unless it
    did not go through the shape test. *)
Lemma resolve_shapes (files : Pretrained) (args : Args)
    (model_dict nsd : state_dict) (z : cache) (k : string) (v t : tensor) :
  (resolve files args model_dict z).2 = ok nsd →
  nsd !! k = Some v → model_dict !! k = Some t →
  shape v = shape t ∨ unchecked files args z k v.
Proof.
  unfold resolve. destruct (String.eqb (arch args) "ECO") eqn:Ea.
  - apply String.eqb_eq in Ea. by apply init_ECO_shapes.
  - destruct (String.eqb (arch args) "C3DRes18"); unfold lift; cbn [snd]; [|done].
    intros H Hv Ht. left. by eapply init_C3DRes18_shapes.
Qed.

Section Resolution.

Context {rng : Type}.
Variable xavier_uniform_ : rng → tensor → result (rng * tensor).

Lemma initial_state_value (files : Pretrained) (args : Args) (g : rng)
    (model_dict : state_dict) (z : cache) :
  initial_state xavier_uniform_ files args g model_dict z
  = ((resolve files args model_dict z).1,
     rbind (resolve files args model_dict z).2 (gap_fill xavier_uniform_ g model_dict)).
Proof. unfold initial_state. apply pbind_lift. Qed.

(** C2, as amended.  Whenever resolution succeeds and [xavier_uniform_]
    accepts every tensor it is called on, the gap fill succeeds and every
    parameter name of the target's state dict is present in the state handed
    to the model.  A name the resolver did not provide holds a tensor of the
    target's shape: constant 1 if the name contains [weight] and [bn], a
    Xavier draw if it contains [weight] but not [bn], constant 0 if it
    contains [bias] but not [weight], and zeros otherwise.  A name the
    resolver provided keeps the resolver's tensor; that tensor has the
    target's shape unless it is the repaired weight or an entry remapped from
    the 2D checkpoint, which are kept without a shape test.  When
    [xavier_uniform_] refuses the tensor of a name it is called for (the
    library refuses a tensor of fewer than two axes), the initialisation
    raises and no state is handed to the model. *)
Theorem initial_state_covers_target (files : Pretrained) (args : Args) (g : rng)
    (z : cache) (model_dict nsd : state_dict) :
  (resolve files args model_dict z).2 = ok nsd →
  (∀ g0 t g1 v, xavier_uniform_ g0 t = ok (g1, v) → shape v = shape t) →
  ((∀ k t, model_dict !! k = Some t → nsd !! k = None →
      str_in "weight" k = true → str_in "bn" k = false →
      ∀ g0, is_ok (xavier_uniform_ g0 (zeros (shape t)))) →
   ∃ g' st,
     (initial_state xavier_uniform_ files args g model_dict z).2 = ok (g', st)
     ∧ ∀ k t, model_dict !! k = Some t →
         ∃ v, st !! k = Some v
           ∧ match nsd !! k with
             | Some v0 => v = v0 ∧ (shape v = shape t ∨ unchecked files args z k v)
             | None => shape v = shape t ∧ filled_as xavier_uniform_ k (shape t) v
             end)
  ∧ (∀ k t, model_dict !! k = Some t → nsd !! k = None →
       str_in "weight" k = true → str_in "bn" k = false →
       (∀ g0, is_error (xavier_uniform_ g0 (zeros (shape t)))) →
       is_error (initial_state xavier_uniform_ files args g model_dict z).2).
Proof.
  intros Hres Hshape. rewrite initial_state_value. cbn [snd]. rewrite Hres.
  cbn [rbind ok]. split.
  - intros Hx.
    destruct (gap_fill_succeeds xavier_uniform_ g model_dict nsd Hx) as [[g' st] Hg].
    exists g', st. split; [done|].
    intros k t Ht. destruct (nsd !! k) as [v0|] eqn:Hk.
    + exists v0. split; [by eapply gap_fill_resolved|]. split; [done|].
      by eapply resolve_shapes.
    + destruct (gap_fill_unresolved xavier_uniform_ g g' model_dict nsd st k t Hg Hk Ht)
        as (g0 & g1 & v & Hd & Hv).
      exists v. split; [done|]. split.
      * by eapply default_init_shape.
      * by eapply default_init_filled.
  - intros k t Ht Hn Hw Hb Hx. by eapply gap_fill_fails.
Qed.

End Resolution.

Lemma no_xavier_shape (g0 : unit) (t : tensor) (g1 : unit) (v : tensor) :
  no_xavier g0 t = ok (g1, v) → shape v = shape t.
Proof.
  unfold no_xavier. destruct (_ <? _)%nat; [done|]. intros H. by injection H as _ <-.
Qed.

(** C2, as stated, fails: for [ECO] with the [2D] source, a 2D checkpoint
    entry whose remapped name is a target name is kept whatever its shape.
    Here the target expects size 3 x 3 and the state handed to the model
    holds size 2 x 3. *)
Lemma initial_state_shape_mismatch :
  ∃ st v,
    (initial_state no_xavier files_example
       (make_args "ucf101" "ECO" "2D" "RGB" "nll" "" 1 None) tt target_example ∅).2
    = ok (tt, st)
    ∧ target_example !! "module.base_model.conv1.weight" = Some (zeros [3; 3])
    ∧ st !! "module.base_model.conv1.weight" = Some v
    ∧ shape v = [2; 3]
    ∧ shape v ≠ shape (zeros [3; 3]).
Proof.
  pose (nsd := remap_2d target_example {["conv1.weight" := zeros [2; 3]]}).
  assert (Hn : nsd !! "module.base_model.conv1.weight" = Some (zeros [2; 3])).
  { apply lookup_remap_2d. split.
    - unfold target_example. rewrite lookup_singleton_eq. eauto.
    - exists "conv1.weight". split; [reflexivity|]. apply lookup_singleton_eq. }
  destruct (gap_fill_succeeds no_xavier tt target_example nsd) as [[[] st] Hg].
  { intros k t Hk Hnk. unfold target_example in Hk.
    apply lookup_singleton_Some in Hk as [<- <-]. congruence. }
  exists st, (zeros [2; 3]).
  split; [|split; [|split; [|split]]].
  - rewrite initial_state_value. cbn [snd].
    change (resolve _ _ _ _).2 with (ok nsd : result state_dict).
    exact Hg.
  - apply lookup_singleton_eq.
  - by eapply gap_fill_resolved.
  - reflexivity.
  - discriminate.
Qed.

(** The other way the initialisation ends: a target whose only parameter is
    a weight of one axis that the resolver does not provide. *)
Lemma initial_state_one_axis_raises :
  is_error
    (initial_state no_xavier files_example example_args tt
       {["module.fc.weight" := zeros [3]]} ∅).2.
Proof.
  rewrite initial_state_value.
  change (resolve _ _ _ _).2 with (ok ∅ : result state_dict). cbn [rbind ok].
  apply (gap_fill_fails no_xavier tt _ ∅ "module.fc.weight" (zeros [3])).
  - apply lookup_singleton_eq.
  - apply lookup_empty.
  - reflexivity.
  - reflexivity.
  - intros g0. by eexists.
Qed.

Lemma initial_state_covers_target_witness :
  (∃ g' st,
     (initial_state no_xavier files_example example_args tt target_example ∅).2
     = ok (g', st)
     ∧ ∀ k t, target_example !! k = Some t →
         ∃ v, st !! k = Some v
           ∧ match (∅ : state_dict) !! k with
             | Some v0 =>
                 v = v0
                 ∧ (shape v = shape t ∨ unchecked files_example example_args ∅ k v)
             | None => shape v = shape t ∧ filled_as no_xavier k (shape t) v
             end)
  ∧ (∀ k t, target_example !! k = Some t → (∅ : state_dict) !! k = None →
       str_in "weight" k = true → str_in "bn" k = false →
       (∀ g0, is_error (no_xavier g0 (zeros (shape t)))) →
       is_error
         (initial_state no_xavier files_example example_args tt target_example ∅).2).
Proof.
  destruct (initial_state_covers_target no_xavier files_example example_args tt ∅
              target_example ∅) as [H1 H2].
  - reflexivity.
  - apply no_xavier_shape.
  - split; [|exact H2]. apply H1.
    intros k t Hk _ _ _ g0. unfold target_example in Hk.
    apply lookup_singleton_Some in Hk as [_ <-]. by eexists.
Defined.

(** ** The channel repair *)

Lemma load_url_succeeds (url : string) (served : option state_dict) (z : cache) :
  is_Some served ∨ is_Some (z !! url_filename url) →
  is_ok (load_url url served z).2.
Proof.
  unfold load_url. intros H.
  destruct (z !! url_filename url) as [d0|]; [by eexists|].
  destruct served as [d|]; [by eexists|]. by destruct H as [[? ?]|[? ?]].
Qed.

(** In [3D] mode, and in [both] mode once [load_url] has answered, the
    resolver ends with the channel repair of a transplant. *)
Lemma resolve_repairs (files : Pretrained) (args : Args) (model_dict src : state_dict)
    (z : cache) :
  arch args = "ECO" →
  pretrained_parts args = "3D"
    ∨ (pretrained_parts args = "both"
       ∧ is_ok (load_url weight_url_2d (weights_2d files) z).2) →
  weights_3d files = Some src →
  ∃ base, (resolve files args model_dict z).2
          = channel_repair src (transplant model_dict src base)
        ∧ ((pretrained_parts args = "3D" ∧ base = ∅)
           ∨ (pretrained_parts args = "both"
              ∧ ∃ d2, (load_url weight_url_2d (weights_2d files) z).2 = ok d2
                    ∧ base = remap_2d model_dict d2)).
Proof.
  intros Ha Hm Hs. unfold resolve, init_ECO. rewrite Ha.
  cbn [String.eqb Ascii.eqb Bool.eqb].
  destruct Hm as [E | [E [d Hd]]]; rewrite E; cbn [String.eqb Ascii.eqb Bool.eqb].
  - exists ∅. rewrite Hs. unfold lift. cbn [load rbind ok snd]. split; [done|]. by left.
  - exists (remap_2d model_dict d). unfold pbind, lift.
    destruct (load_url _ _ _) as [z' r]. cbn [snd] in Hd. subst r.
    rewrite Hs. cbn [load rbind ok snd]. split; [done|]. right. eauto.
Qed.

(** C4.  For [ECO] with the [3D] source (and with [both], once the 2D
    checkpoint is loaded, from the download or from the cache), if the
    special convolution weight of the 3D checkpoint has input-channel width
    [4 * c], resolution succeeds and the entry resolved for that name is the
    concatenation, along axis 1, of the first three of the four chunks
    [torch.chunk] yields; each chunk is the slice of [c] consecutive input
    channels; the result has input-channel width [3 * c], the source's sizes
    on the other axes, and agrees with the source at every index whose input
    channel is below [3 * c]. *)
Theorem channel_repair_first_three_chunks (files : Pretrained) (args : Args)
    (model_dict src : state_dict) (z : cache) (w : tensor) (c : nat) :
  arch args = "ECO" →
  pretrained_parts args = "3D"
    ∨ (pretrained_parts args = "both"
       ∧ (is_Some (weights_2d files) ∨ is_Some (z !! url_filename weight_url_2d))) →
  weights_3d files = Some src →
  src !! res3a_2_weight = Some w →
  shape w !! 1 = Some (4 * c) →
  ∃ nsd r,
    (resolve files args model_dict z).2 = ok nsd
    ∧ nsd !! res3a_2_weight = Some r
    ∧ chunk w 4 1
      = ok [narrow w 1 0 c; narrow w 1 c c; narrow w 1 (2 * c) c;
            narrow w 1 (3 * c) c]
    ∧ cat [narrow w 1 0 c; narrow w 1 c c; narrow w 1 (2 * c) c] 1 = ok r
    ∧ shape r = <[1 := 3 * c]> (shape w)
    ∧ shape r !! 1 = Some (3 * c)
    ∧ ∀ idx, default 0 (idx !! 1) < 3 * c → at_ r idx = at_ w idx.
Proof.
  intros Harch Hmode Hsrc Hw Hs.
  destruct (resolve_repairs files args model_dict src z Harch) as (base & Hres & _);
    [|done|].
  { destruct Hmode as [E | [E Hd]]; [by left|]. right. split; [done|].
    by apply load_url_succeeds. }
  destruct (channel_repair_ok src (transplant model_dict src base) w c Hw Hs)
    as (r & Hr & Hcat & Hshape & Hat).
  exists (<[res3a_2_weight := r]> (transplant model_dict src base)), r.
  split; [by rewrite Hres|]. split; [apply lookup_insert_eq|].
  split; [by apply chunk_4|]. split; [done|]. split; [done|]. split; [|done].
  rewrite Hshape. apply list_lookup_insert_eq. by eapply lookup_lt_Some.
Qed.

Lemma channel_repair_first_three_chunks_witness :
  let w := zeros [2; 8; 3; 3; 3] in
  ∃ nsd r,
    (resolve files_3d_example (make_args "ucf101" "ECO" "3D" "RGB" "nll" "" 1 None)
       target_example ∅).2 = ok nsd
    ∧ nsd !! res3a_2_weight = Some r
    ∧ chunk w 4 1
      = ok [narrow w 1 0 2; narrow w 1 2 2; narrow w 1 (2 * 2) 2;
            narrow w 1 (3 * 2) 2]
    ∧ cat [narrow w 1 0 2; narrow w 1 2 2; narrow w 1 (2 * 2) 2] 1 = ok r
    ∧ shape r = <[1 := 3 * 2]> (shape w)
    ∧ shape r !! 1 = Some (3 * 2)
    ∧ ∀ idx, default 0 (idx !! 1) < 3 * 2 → at_ r idx = at_ w idx.
Proof.
  intros w.
  apply (channel_repair_first_three_chunks files_3d_example
           (make_args "ucf101" "ECO" "3D" "RGB" "nll" "" 1 None) target_example
           {[res3a_2_weight := zeros [2; 8; 3; 3; 3]]} ∅ w 2).
  - reflexivity.
  - left. reflexivity.
  - reflexivity.
  - apply lookup_singleton_eq.
  - reflexivity.
Defined.

(** ** Batching *)

Lemma batches_aux_nonempty {A} (fuel bs : nat) (xs : list A) :
  0 < bs → Forall (λ b, 0 < length b ≤ bs) (batches_aux fuel bs xs).
Proof.
  intros Hbs. revert xs. induction fuel as [|fuel IH]; intros xs; simpl; [constructor|].
  destruct xs as [|x xs]; [constructor|]. constructor; [|apply IH].
  rewrite length_take. simpl. lia.
Qed.

Lemma DataLoader_nonempty {A} (bs : nat) (xs : list A) :
  0 < bs → Forall (λ b, 0 < length b ≤ bs) (DataLoader bs xs).
Proof. apply batches_aux_nonempty. Qed.

Lemma DataLoader_nine {A} (xs : list A) :
  length xs = 9 →
  ∃ b1 b2 b3, DataLoader 4 xs = [b1; b2; b3]
    ∧ length b1 = 4 ∧ length b2 = 4 ∧ length b3 = 1
    ∧ removelast (DataLoader 4 xs) = [b1; b2].
Proof.
  intros H.
  do 10 (destruct xs as [|? xs]; [discriminate H || idtac|]); [|discriminate H].
  eexists _, _, _. repeat split.
Qed.

(** Every batch but the last is full. *)
Lemma batches_aux_full {A} (bs : nat) :
  0 < bs → ∀ (fuel : nat) (xs : list A), length xs ≤ fuel →
  length (concat (removelast (batches_aux fuel bs xs)))
  = bs * (length (batches_aux fuel bs xs) - 1).
Proof.
  intros Hbs. induction fuel as [|fuel IH]; intros xs Hx; [simpl; lia|].
  destruct xs as [|x xs]; [simpl; lia|].
  cbn [batches_aux].
  specialize (IH (drop bs (x :: xs))).
  destruct (batches_aux fuel bs (drop bs (x :: xs))) as [|b rest] eqn:E.
  { simpl. lia. }
  assert (Hlt : bs < length (x :: xs)).
  { destruct (decide (bs < length (x :: xs))) as [|Hn]; [done|].
    rewrite drop_ge in E by lia. by destruct fuel. }
  change (removelast (take bs (x :: xs) :: b :: rest))
    with (take bs (x :: xs) :: removelast (b :: rest)).
  cbn [concat]. rewrite length_app, length_take, IH.
  2:{ rewrite length_drop. simpl in Hx |- *. lia. }
  cbn [length] in *. nia.
Qed.

Lemma DataLoader_full {A} (bs : nat) (xs : list A) :
  0 < bs →
  length (concat (removelast (DataLoader bs xs)))
  = bs * (length (DataLoader bs xs) - 1).
Proof. intros Hbs. by apply batches_aux_full. Qed.

Lemma Forall_removelast {A} (P : A → Prop) (l : list A) :
  Forall P l → Forall P (removelast l).
Proof.
  induction 1 as [|x l Hx Hl IH]; simpl; [constructor|].
  destruct l; [constructor|]. by constructor.
Qed.

Lemma length_removelast {A} (l : list A) : length (removelast l) = length l - 1.
Proof.
  induction l as [|x l IH]; [done|]. simpl. destruct l; [done|].
  simpl in *. lia.
Qed.

(** ** The loops stop before the last batch *)

Section LoopFacts.

Context {clip net buffers : Type}.
Variable forward : bool → net → list clip → list (list R).
Variable criterion : list (list R) → list nat → R.
Variable backward : net → list (clip * nat) → list R.
Variable step : list Optim.param_group → buffers → net → list R → buffers * net.
Variable topk : nat → list R → result (list nat).

Lemma train_loop_removelast (args : Args) (epoch : Z)
    (batches : list (list (clip * nat))) :
  ∀ (i : Z) (st : train_state),
    train_loop forward criterion backward step topk args epoch
      (i + Z.of_nat (length batches)) i batches st
    = run_indexed (train_batch forward criterion backward step topk args epoch)
        i (removelast batches) st.
Proof.
  induction batches as [|b rest IH]; intros i st; [done|].
  cbn [train_loop]. destruct rest as [|b' rest].
  - replace (i =? _)%Z with true; [done|]. symmetry. apply Z.eqb_eq. simpl. lia.
  - replace (i =? _)%Z with false.
    2:{ symmetry. apply Z.eqb_neq. simpl length. lia. }
    change (removelast (b :: b' :: rest)) with (b :: removelast (b' :: rest)).
    cbn [run_indexed]. destruct (train_batch _ _ _ _ _ _ _ _ _ _) as [e|st']; [done|].
    cbn [rbind]. rewrite <- IH. f_equal. simpl length. lia.
Qed.

Lemma validate_loop_removelast (args : Args) (m : net)
    (batches : list (list (clip * nat))) :
  ∀ (i : Z) (st : meters * list event),
    validate_loop forward criterion topk args m
      (i + Z.of_nat (length batches)) i batches st
    = run_indexed (validate_batch forward criterion topk args m)
        i (removelast batches) st.
Proof.
  induction batches as [|b rest IH]; intros i st; [done|].
  cbn [validate_loop]. destruct rest as [|b' rest].
  - replace (i =? _)%Z with true; [done|]. symmetry. apply Z.eqb_eq. simpl. lia.
  - replace (i =? _)%Z with false.
    2:{ symmetry. apply Z.eqb_neq. simpl length. lia. }
    change (removelast (b :: b' :: rest)) with (b :: removelast (b' :: rest)).
    cbn [run_indexed]. destruct (validate_batch _ _ _ _ _ _ _ _) as [e|st']; [done|].
    cbn [rbind]. rewrite <- IH. f_equal. simpl length. lia.
Qed.

End LoopFacts.

(** ** The metric accumulator *)

Lemma meter_ok_reset : meter_ok AverageMeter.reset.
Proof. unfold meter_ok. simpl. lra. Qed.

Lemma update_succeeds (m : AverageMeter.t) (v : R) (n : nat) :
  0 < n →
  ∃ m', AverageMeter.update m v n = ok m'
    ∧ AverageMeter.sum m' = (AverageMeter.sum m + v * INR n)%R
    ∧ AverageMeter.count m' = AverageMeter.count m + n
    ∧ AverageMeter.avg m'
      = (AverageMeter.sum m' / INR (AverageMeter.count m'))%R.
Proof.
  intros Hn. unfold AverageMeter.update.
  destruct (Nat.eqb_spec (AverageMeter.count m + n) 0) as [E|E]; [lia|].
  eexists. split; [reflexivity|]. done.
Qed.

Lemma update_meter_ok (m m' : AverageMeter.t) (v : R) (n : nat) :
  0 < n → (0 <= v <= 100)%R → meter_ok m →
  AverageMeter.update m v n = ok m' → meter_ok m'.
Proof.
  intros Hn Hv (Hs & Ha & He) Hu.
  destruct (update_succeeds m v n Hn) as (m'' & Hu' & Hsum & Hcount & Havg).
  rewrite Hu in Hu'. injection Hu' as <-.
  assert (Hn' : (0 < INR n)%R) by (apply lt_0_INR; lia).
  assert (Hc : (0 < INR (AverageMeter.count m'))%R) by (apply lt_0_INR; lia).
  assert (Hc' : INR (AverageMeter.count m')
                = (INR (AverageMeter.count m) + INR n)%R)
    by (rewrite Hcount; apply plus_INR).
  assert (Hs' : (0 <= AverageMeter.sum m' <= 100 * INR (AverageMeter.count m'))%R).
  { rewrite Hsum, Hc'. nra. }
  unfold meter_ok. split; [done|]. rewrite Havg. split.
  - split.
    + apply Rmult_le_pos; [lra|]. left. by apply Rinv_0_lt_compat.
    + apply (Rmult_le_reg_r (INR (AverageMeter.count m'))); [done|].
      unfold Rdiv. rewrite Rmult_assoc, Rinv_l by lra. lra.
  - unfold Rdiv. rewrite Rmult_assoc, Rinv_l by lra. lra.
Qed.

(** ** [accuracy] *)

Lemma mapM_succeeds {A B} (f : A → result B) (xs : list A) :
  Forall (λ x, ∃ y, f x = ok y) xs →
  ∃ ys, mapM f xs = ok ys ∧ length ys = length xs.
Proof.
  induction 1 as [|x xs [y Hy] _ [ys [Hys Hlen]]]; simpl.
  - by exists [].
  - rewrite Hy. cbn [rbind ok]. rewrite Hys. cbn [rbind ok].
    exists (y :: ys). split; [done|]. simpl. by rewrite Hlen.
Qed.

Lemma mapM_length {A B} (f : A → result B) (xs : list A) (ys : list B) :
  mapM f xs = ok ys → length ys = length xs.
Proof.
  revert ys. induction xs as [|x xs IH]; intros ys; simpl.
  - intros H. by injection H as <-.
  - destruct (f x) as [|y]; cbn [rbind]; [done|].
    destruct (mapM f xs) as [|ys']; cbn [rbind]; [done|].
    intros H. injection H as <-. simpl. by rewrite (IH ys').
Qed.

Lemma expand_as_same {A} (target : list nat) (pred : list A) :
  length target = length pred → expand_as target pred = ok target.
Proof. intros H. unfold expand_as. by rewrite H, Nat.eqb_refl. Qed.

Lemma hits_cons (r : nat) (p : list nat) (t : nat) (pred : list (list nat))
    (target : list nat) :
  hits r (p :: pred) (t :: target)
  = (if bool_decide (p !! r = Some t) then 1 else 0) + hits r pred target.
Proof.
  unfold hits. cbn [zip_with]. rewrite filter_cons.
  by destruct (bool_decide (p !! r = Some t)).
Qed.

Lemma hits_nil_r (r : nat) (pred : list (list nat)) : hits r pred [] = 0.
Proof. unfold hits. by destruct pred. Qed.

Lemma hits_nil_l (r : nat) (target : list nat) : hits r [] target = 0.
Proof. done. Qed.

Section AccuracyFacts.

Variable topk : nat → list R → result (list nat).

(** The hits [accuracy] counts at rank 0 are the top-1 hits. *)
Lemma hits_predicted (output : list (list R)) :
  ∀ (pred : list (list nat)) (target : list nat),
    mapM (topk 5) output = ok pred →
    hits 0 pred target = hits_among topk output target.
Proof.
  unfold hits_among.
  induction output as [|row output IH]; intros pred target; simpl.
  - intros H. injection H as <-. by rewrite hits_nil_l.
  - destruct (topk 5 row) as [|idx] eqn:E; cbn [rbind]; [done|].
    destruct (mapM (topk 5) output) as [|pred'] eqn:E'; cbn [rbind]; [done|].
    intros H. injection H as <-. destruct target as [|t target].
    { by rewrite hits_nil_r. }
    rewrite hits_cons, (IH pred' target eq_refl). cbn [zip zip_with].
    rewrite filter_cons. cbn [fst snd].
    destruct (decide (predicted topk row = Some t)) as [Hd|Hd];
      unfold predicted in Hd; rewrite E in Hd; case_bool_decide; done.
Qed.

Lemma hits_among_le (output : list (list R)) (target : list nat) :
  hits_among topk output target ≤ length target.
Proof.
  unfold hits_among. etrans; [apply length_filter|]. rewrite length_zip. lia.
Qed.

(** With one label per row, the first value of [accuracy] is the share of
    top-1 hits, in percent. *)
Lemma accuracy_top1 (output : list (list R)) (target : list nat) :
  0 < length target →
  length output = length target →
  Forall (λ row, ∃ idx, topk 5 row = ok idx) output →
  ∃ p5, accuracy topk output target [1; 5]
        = ok [(INR (hits_among topk output target) * (100 / INR (length target)))%R;
              p5].
Proof.
  intros Hpos Hlen Hrows. unfold accuracy.
  change (max_list [1; 5]) with 5.
  destruct (mapM_succeeds (topk 5) output Hrows) as (pred & Hpred & Hp).
  rewrite Hpred. cbn [rbind ok].
  rewrite expand_as_same by lia. cbn [rbind ok mapM].
  replace (length target =? 0) with false
    by (symmetry; apply Nat.eqb_neq; lia).
  cbn [rbind ok]. eexists. f_equal. f_equal.
  cbn [seq map take concat]. rewrite app_nil_r.
  fold (hits 0 pred target). by rewrite (hits_predicted output pred target Hpred).
Qed.

End AccuracyFacts.

(** ** What one pass of a loop body measures *)

Lemma multiples_S (freq i : Z) (n : nat) :
  multiples freq i (S n)
  = (if (i mod freq =? 0)%Z then [i] else []) ++ multiples freq (i + 1) n.
Proof.
  unfold multiples. rewrite <- cons_seq, <- fmap_S_seq. cbn [map].
  rewrite filter_cons. rewrite Z.add_0_r.
  replace (map (λ k, (i + Z.of_nat k)%Z) (S <$> seq 0 n))
    with (map (λ k, (i + 1 + Z.of_nat k)%Z) (seq 0 n)).
  2:{ rewrite <- list_fmap_compose. apply map_ext. intros k. simpl. lia. }
  destruct (Z.eqb_spec (i mod freq) 0) as [E|E]; case_decide; done.
Qed.

Section MeasureFacts.

Context {clip net : Type}.
Variable forward : bool → net → list clip → list (list R).
Variable criterion : list (list R) → list nat → R.
Variable topk : nat → list R → result (list nat).
Variable training : bool.

Hypothesis forward_rows : ∀ m xs, length (forward training m xs) = length xs.
Hypothesis topk_rows :
  ∀ m xs, Forall (λ row, ∃ idx, topk 5 row = ok idx) (forward training m xs).

Lemma measure_run (m : net) (b : list (clip * nat)) (ms : meters) :
  0 < length b → meter_ok (top1 ms) →
  ∃ ms', measure forward criterion topk training m b ms = ok ms'
    ∧ meter_ok (top1 ms')
    ∧ AverageMeter.sum (top1 ms')
      = (AverageMeter.sum (top1 ms)
         + 100 * INR (top1_hits forward topk training m b))%R
    ∧ AverageMeter.count (top1 ms') = AverageMeter.count (top1 ms) + length b
    ∧ AverageMeter.count (losses ms') = AverageMeter.count (losses ms) + length b.
Proof.
  intros Hb Hok. unfold measure, top1_hits.
  set (output := forward training m b.*1). set (target := b.*2).
  assert (Hlt : length target = length b) by (subst target; apply length_fmap).
  assert (Hlo : length output = length target).
  { subst output. by rewrite forward_rows, Hlt, length_fmap. }
  destruct (accuracy_top1 topk output target) as (p5 & ->);
    [lia|done|apply topk_rows|].
  cbn [rbind ok unpack2 fst snd]. rewrite length_fmap.
  set (h := hits_among topk output target).
  assert (Hh : h ≤ length target) by apply hits_among_le.
  assert (Hn : (0 < INR (length target))%R) by (apply lt_0_INR; lia).
  assert (Hh' : (0 <= INR h <= INR (length target))%R).
  { split; [apply pos_INR|]. by apply le_INR. }
  assert (Hp : (INR h * (100 / INR (length target)) * INR (length b)
                = 100 * INR h)%R).
  { rewrite <- Hlt. field. lra. }
  assert (Hr : (0 <= INR h * (100 / INR (length target)) <= 100)%R).
  { split.
    - apply Rmult_le_pos; [lra|]. apply Rmult_le_pos; [lra|].
      left. by apply Rinv_0_lt_compat.
    - apply (Rmult_le_reg_r (INR (length target))); [done|].
      rewrite <- Hlt in Hp. rewrite Hp. nra. }
  destruct (update_succeeds (losses ms) (criterion output target)
              (length b) Hb) as (l' & -> & _ & Hlc & _).
  destruct (update_succeeds (top1 ms) (INR h * (100 / INR (length target)))
              (length b) Hb) as (t1 & Ht1 & Hs & Hc & _).
  destruct (update_succeeds (top5 ms) p5 (length b) Hb) as (t5 & -> & _).
  cbn [rbind ok]. rewrite Ht1. cbn [rbind ok].
  eexists. split; [reflexivity|]. cbn [top1 losses].
  split; [by eapply update_meter_ok|]. split; [|done].
  rewrite Hs, Hp. done.
Qed.

End MeasureFacts.

(** ** The evaluation loop returns the share of top-1 hits *)

Section ValidateFacts.

Context {clip net : Type}.
Variable forward : bool → net → list clip → list (list R).
Variable criterion : list (list R) → list nat → R.
Variable topk : nat → list R → result (list nat).

Hypothesis forward_rows : ∀ m xs, length (forward false m xs) = length xs.
Hypothesis topk_rows :
  ∀ m xs, Forall (λ row, ∃ idx, topk 5 row = ok idx) (forward false m xs).

Lemma validate_run (args : Args) (m : net) (bs : list (list (clip * nat))) :
  print_freq args ≠ 0%Z →
  Forall (λ b, 0 < length b) bs →
  ∀ (i : Z) (ms : meters) (out : list event),
    meter_ok (top1 ms) →
    ∃ ms' out',
      run_indexed (validate_batch forward criterion topk args m) i bs (ms, out)
      = ok (ms', out')
      ∧ meter_ok (top1 ms')
      ∧ AverageMeter.sum (top1 ms')
        = (AverageMeter.sum (top1 ms)
           + 100 * INR (sum_list (map (top1_hits forward topk false m) bs)))%R
      ∧ AverageMeter.count (top1 ms')
        = AverageMeter.count (top1 ms) + length (concat bs)
      ∧ out' = out ++ map TestProgress (multiples (print_freq args) i (length bs)).
Proof.
  intros Hpf. induction 1 as [|b bs Hb _ IH]; intros i ms out Hok.
  - exists ms, out. simpl. split; [done|]. split; [done|]. split; [lra|].
    split; [lia|]. by rewrite app_nil_r.
  - cbn [run_indexed]. unfold validate_batch at 1. cbn [fst snd].
    destruct (measure_run forward criterion topk false forward_rows topk_rows
                m b ms Hb Hok) as (ms1 & -> & Hok1 & Hs1 & Hc1 & _).
    cbn [rbind ok]. unfold divides.
    rewrite (proj2 (Z.eqb_neq _ _) Hpf). cbn [rbind ok].
    edestruct (IH (i + 1)%Z ms1) as (ms' & out' & -> & Hok' & Hs' & Hc' & Ho');
      [done|].
    exists ms', out'. split; [done|]. split; [done|].
    rewrite Hs', Hs1, Hc', Hc1. cbn [map sum_list sum_list_with concat length].
    unfold Datatypes.id. rewrite length_app, plus_INR. split; [lra|]. split; [lia|].
    rewrite Ho', multiples_S.
    destruct (i mod print_freq args =? 0)%Z; by simplify_list_eq.
Qed.

Lemma validate_mean (args : Args) (m : net) (loader : list (list (clip * nat))) :
  print_freq args ≠ 0%Z →
  Forall (λ b, 0 < length b) loader →
  ∃ v out,
    validate forward criterion topk args loader m = ok (v, out)
    ∧ (0 <= v <= 100)%R
    ∧ (v * INR (length (concat (removelast loader)))
       = 100 * INR (sum_list (map (top1_hits forward topk false m)
                                (removelast loader))))%R
    ∧ out = map TestProgress (multiples (print_freq args) 0 (length loader - 1))
            ++ [TestingResults v].
Proof.
  intros Hpf Hne. unfold validate.
  rewrite (validate_loop_removelast forward criterion topk args m loader 0).
  destruct (validate_run args m (removelast loader) Hpf
              (Forall_removelast _ _ Hne) 0%Z fresh_meters [] meter_ok_reset)
    as (ms' & out' & -> & (_ & Hr & He) & Hs & Hc & Ho).
  cbn [rbind ok fst snd]. eexists _, _. split; [reflexivity|]. split; [done|].
  simpl in Hs, Hc. split.
  - rewrite <- Hc, He, Hs. lra.
  - rewrite Ho, length_removelast. done.
Qed.

End ValidateFacts.

(** ** Gradient clipping *)

Lemma sum_squares_nonneg (g : list R) :
  (0 <= fold_right (λ x acc, x * x + acc) 0 g)%R.
Proof. induction g as [|x g IH]; simpl; [lra|nra]. Qed.

Lemma l2_norm_square (g : list R) :
  (l2_norm g * l2_norm g = sum_R (map (λ x, x * x) g))%R ∧ (0 <= l2_norm g)%R.
Proof.
  unfold l2_norm. split; [|apply sqrt_pos].
  rewrite sqrt_sqrt by apply sum_squares_nonneg.
  induction g as [|x g IH]; simpl; [done|]. by rewrite IH.
Qed.

(** C6.  When a max-norm is configured, the clipping step of [train]
    measures the global L2 norm of all gradients (the non-negative number
    whose square is the sum of the squares of all gradient entries).  If the
    norm exceeds the max-norm, every gradient entry is multiplied by
    [max_norm / norm] and one line reporting the norm before clipping and
    the coefficient [max_norm / norm] is printed; otherwise the gradients
    and the output are unchanged. *)
Theorem clip_and_report_scales (args : Args) (g : list R) (out : list event)
    (max_norm : R) :
  clip_gradient args = Some max_norm →
  (l2_norm g * l2_norm g = sum_R (map (λ x, x * x) g))%R
  ∧ (0 <= l2_norm g)%R
  ∧ ((l2_norm g > max_norm)%R →
       clip_and_report args g out
       = (map (Rmult (max_norm / l2_norm g)) g,
          out ++ [ClippingGradient (l2_norm g) (max_norm / l2_norm g)]))
  ∧ (¬ (l2_norm g > max_norm)%R → clip_and_report args g out = (g, out)).
Proof.
  intros Hc. destruct (l2_norm_square g) as [Hsq Hpos].
  split; [done|]. split; [done|].
  unfold clip_and_report, clip_grad_norm_. rewrite Hc. split; intros H.
  - by rewrite !bool_decide_eq_true_2.
  - by rewrite !bool_decide_eq_false_2.
Qed.

Lemma clip_and_report_off (args : Args) (g : list R) (out : list event) :
  clip_gradient args = None → clip_and_report args g out = (g, out).
Proof. intros Hc. unfold clip_and_report. by rewrite Hc. Qed.

Lemma l2_norm_3_4 : l2_norm [3%R; 4%R] = 5%R.
Proof.
  unfold l2_norm. simpl.
  replace (3 * 3 + (4 * 4 + 0))%R with (5 * 5)%R by lra.
  apply sqrt_square. lra.
Qed.

Lemma clip_and_report_scales_witness :
  clip_and_report clip_args [3%R; 4%R] []
  = ([(1 / 5 * 3)%R; (1 / 5 * 4)%R], [ClippingGradient 5 (1 / 5)]).
Proof.
  destruct (clip_and_report_scales clip_args [3%R; 4%R] [] 1%R eq_refl)
    as (_ & _ & H & _).
  rewrite l2_norm_3_4 in H. apply H. lra.
Defined.

(** ** What the training loop measures and prints *)

Lemma clip_and_report_progress (args : Args) (g : list R) (out : list event) :
  filter is_progress (clip_and_report args g out).2 = filter is_progress out.
Proof.
  unfold clip_and_report. destruct (clip_gradient args) as [max_norm|]; [|done].
  unfold clip_grad_norm_. cbn [snd]. destruct (bool_decide _); [|done].
  rewrite filter_app. cbn. by rewrite app_nil_r.
Qed.

Section TrainFacts.

Context {clip net buffers : Type}.
Variable forward : bool → net → list clip → list (list R).
Variable criterion : list (list R) → list nat → R.
Variable backward : net → list (clip * nat) → list R.
Variable step : list Optim.param_group → buffers → net → list R → buffers * net.
Variable topk : nat → list R → result (list nat).

Hypothesis forward_rows : ∀ m xs, length (forward true m xs) = length xs.
Hypothesis topk_rows :
  ∀ m xs, Forall (λ row, ∃ idx, topk 5 row = ok idx) (forward true m xs).

Lemma train_batch_run (args : Args) (epoch i : Z) (b : list (clip * nat))
    (st : train_state (net := net) (buffers := buffers)) :
  iter_size args ≠ 0%Z → print_freq args ≠ 0%Z →
  0 < length b → meter_ok (top1 (mets st)) →
  ∃ st', train_batch forward criterion backward step topk args epoch i b st = ok st'
    ∧ meter_ok (top1 (mets st'))
    ∧ AverageMeter.count (top1 (mets st'))
      = AverageMeter.count (top1 (mets st)) + length b
    ∧ AverageMeter.count (losses (mets st'))
      = AverageMeter.count (losses (mets st)) + length b
    ∧ filter is_progress (out st')
      = filter is_progress (out st)
        ++ (if (i mod print_freq args =? 0)%Z then [Progress epoch i] else []).
Proof.
  intros Hi Hp Hb Hok. unfold train_batch.
  destruct (measure_run forward criterion topk true forward_rows topk_rows
              (model (lrn st)) b (mets st) Hb Hok)
    as (ms1 & -> & Hok1 & _ & Hc1 & Hl1).
  cbn [rbind ok]. unfold divides.
  rewrite (proj2 (Z.eqb_neq _ _) Hi), (proj2 (Z.eqb_neq _ _) Hp). cbn [rbind ok].
  set (g := accumulate _ _).
  assert (Hout1 : filter is_progress
                    (if (i mod iter_size args =? 0)%Z
                     then boundary step args (lrn st) g (out st)
                     else (lrn st, g, out st)).2
                  = filter is_progress (out st)).
  { destruct (_ =? _)%Z; [|done]. unfold boundary.
    pose proof (clip_and_report_progress args
                  (if (iter_size args =? 1)%Z then g
                   else map (λ x, (x / IZR (iter_size args))%R) g) (out st)) as H.
    by destruct (clip_and_report _ _ _) as [g2 out']. }
  destruct (if (i mod iter_size args =? 0)%Z then _ else _) as [[l1 g1] out1].
  cbn [snd] in Hout1.
  pose proof (clip_and_report_progress args g1 out1) as Hout2.
  destruct (clip_and_report args g1 out1) as [g2 out2]. cbn [snd] in Hout2.
  eexists. split; [reflexivity|]. cbn [mets out].
  split; [done|]. split; [done|]. split; [done|].
  destruct (i mod print_freq args =? 0)%Z.
  - rewrite filter_app, Hout2, Hout1. done.
  - by rewrite app_nil_r, Hout2, Hout1.
Qed.

Lemma train_run (args : Args) (epoch : Z) (bs : list (list (clip * nat))) :
  iter_size args ≠ 0%Z → print_freq args ≠ 0%Z →
  Forall (λ b, 0 < length b) bs →
  ∀ (i : Z) (st : train_state),
    meter_ok (top1 (mets st)) →
    ∃ st',
      run_indexed (train_batch forward criterion backward step topk args epoch)
        i bs st = ok st'
      ∧ AverageMeter.count (top1 (mets st'))
        = AverageMeter.count (top1 (mets st)) + length (concat bs)
      ∧ AverageMeter.count (losses (mets st'))
        = AverageMeter.count (losses (mets st)) + length (concat bs)
      ∧ filter is_progress (out st')
        = filter is_progress (out st)
          ++ map (Progress epoch) (multiples (print_freq args) i (length bs)).
Proof.
  intros Hi Hp. induction 1 as [|b bs Hb _ IH]; intros i st Hok.
  - exists st. simpl. split; [done|]. split; [lia|]. split; [lia|].
    by rewrite app_nil_r.
  - cbn [run_indexed].
    destruct (train_batch_run args epoch i b st Hi Hp Hb Hok)
      as (st1 & -> & Hok1 & Hc1 & Hl1 & Ho1).
    cbn [rbind ok].
    destruct (IH (i + 1)%Z st1 Hok1) as (st' & -> & Hc' & Hl' & Ho').
    exists st'. split; [done|].
    rewrite Hc', Hc1, Hl', Hl1. cbn [concat length]. rewrite length_app.
    split; [lia|]. split; [lia|].
    rewrite Ho', Ho1, multiples_S.
    destruct (i mod print_freq args =? 0)%Z; by simplify_list_eq.
Qed.

Lemma train_measures (args : Args) (epoch : Z) (loader : list (list (clip * nat)))
    (l : learner net buffers) :
  iter_size args ≠ 0%Z → print_freq args ≠ 0%Z →
  Forall (λ b, 0 < length b) loader →
  ∃ st,
    train forward criterion backward step topk args loader l epoch = ok st
    ∧ AverageMeter.count (top1 (mets st)) = length (concat (removelast loader))
    ∧ AverageMeter.count (losses (mets st)) = length (concat (removelast loader))
    ∧ filter is_progress (out st)
      = map (Progress epoch) (multiples (print_freq args) 0 (length loader - 1)).
Proof.
  intros Hi Hp Hne. unfold train.
  rewrite (train_loop_removelast forward criterion backward step topk args epoch
             loader 0).
  destruct (train_run args epoch (removelast loader) Hi Hp
              (Forall_removelast _ _ Hne) 0%Z
              {| lrn := l; mets := fresh_meters; out := [] |} meter_ok_reset)
    as (st & -> & Hc & Hl & Ho).
  exists st. split; [done|]. cbn in Hc, Hl, Ho.
  by rewrite <- length_removelast.
Qed.

End TrainFacts.

(** ** Both loops stop before the final batch *)

Section DiscardFinalBatch.

Context {clip net buffers : Type}.
Variable forward : bool → net → list clip → list (list R).
Variable criterion : list (list R) → list nat → R.
Variable backward : net → list (clip * nat) → list R.
Variable step : list Optim.param_group → buffers → net → list R → buffers * net.
Variable topk : nat → list R → result (list nat).

(** C5.  [train] and [validate] run their loop body on every batch of the
    loader except the last one, in order, which makes [len(loader) - 1]
    batches.  This shows in what they measure and print.  When the network
    returns one row of scores per sample, [topk] answers on every such row,
    and [iter_size] and the print frequency are not zero, [train] on a loader
    with a positive batch size returns; its meters have counted exactly the
    samples of all batches but the last, which are [len(loader) - 1] full
    batches, and its progress lines are those of the batch indices below
    [len(loader) - 1] that the print frequency selects.  Under the same
    conditions [validate] returns a value between 0 and 100 which is, in
    percent, the share of top-1 hits among the samples of all batches but the
    last, and it prints the progress lines of the selected indices below
    [len(loader) - 1] and then the result.  A set of 9
    samples in batches of 4 gives three batches of 4, 4 and 1 samples; the
    two full ones are processed, which makes 8 samples measured and batch
    indices 0 and 1. *)
Theorem loops_discard_final_batch (args : Args) :
  (∀ (loader : list (list (clip * nat))) (l : learner net buffers) (epoch : Z),
     train forward criterion backward step topk args loader l epoch
     = run_indexed (train_batch forward criterion backward step topk args epoch)
         0 (removelast loader) {| lrn := l; mets := fresh_meters; out := [] |}
     ∧ length (removelast loader) = length loader - 1)
  ∧ (∀ (loader : list (list (clip * nat))) (m : net),
       validate forward criterion topk args loader m
       = rbind (run_indexed (validate_batch forward criterion topk args m)
                  0 (removelast loader) (fresh_meters, []))
           (λ st, ok (AverageMeter.avg (top1 st.1),
                      st.2 ++ [TestingResults (AverageMeter.avg (top1 st.1))])))
  ∧ (∀ samples : list (clip * nat), length samples = 9 →
       ∃ b1 b2 b3, DataLoader 4 samples = [b1; b2; b3]
         ∧ length b1 = 4 ∧ length b2 = 4 ∧ length b3 = 1
         ∧ removelast (DataLoader 4 samples) = [b1; b2])
  ∧ (∀ (samples : list (clip * nat)) (bs : nat) (l : learner net buffers)
       (epoch : Z),
       (∀ m xs, length (forward true m xs) = length xs) →
       (∀ m xs, Forall (λ row, ∃ idx, topk 5 row = ok idx) (forward true m xs)) →
       iter_size args ≠ 0%Z →
       print_freq args ≠ 0%Z →
       0 < bs →
       ∃ st,
         train forward criterion backward step topk args (DataLoader bs samples)
           l epoch = ok st
         ∧ AverageMeter.count (top1 (mets st))
           = length (concat (removelast (DataLoader bs samples)))
         ∧ AverageMeter.count (losses (mets st))
           = length (concat (removelast (DataLoader bs samples)))
         ∧ AverageMeter.count (top1 (mets st))
           = bs * (length (DataLoader bs samples) - 1)
         ∧ filter is_progress (out st)
           = map (Progress epoch)
               (multiples (print_freq args) 0 (length (DataLoader bs samples) - 1))
         ∧ (length samples = 9 → bs = 4 →
              AverageMeter.count (top1 (mets st)) = 8
              ∧ length (DataLoader bs samples) - 1 = 2))
  ∧ (∀ (samples : list (clip * nat)) (bs : nat) (m : net),
       (∀ m xs, length (forward false m xs) = length xs) →
       (∀ m xs, Forall (λ row, ∃ idx, topk 5 row = ok idx) (forward false m xs)) →
       print_freq args ≠ 0%Z →
       0 < bs →
       ∃ v out,
         validate forward criterion topk args (DataLoader bs samples) m = ok (v, out)
         ∧ (0 <= v <= 100)%R
         ∧ (v * INR (length (concat (removelast (DataLoader bs samples))))
            = 100 * INR (sum_list (map (top1_hits forward topk false m)
                                     (removelast (DataLoader bs samples)))))%R
         ∧ length (concat (removelast (DataLoader bs samples)))
           = bs * (length (DataLoader bs samples) - 1)
         ∧ out = map TestProgress
                   (multiples (print_freq args) 0 (length (DataLoader bs samples) - 1))
                 ++ [TestingResults v]
         ∧ (length samples = 9 → bs = 4 →
              length (concat (removelast (DataLoader bs samples))) = 8)).
Proof.
  assert (Hnine : ∀ samples : list (clip * nat), length samples = 9 →
            length (concat (removelast (DataLoader 4 samples))) = 8
            ∧ length (DataLoader 4 samples) - 1 = 2).
  { intros samples H9.
    destruct (DataLoader_nine samples H9) as (b1 & b2 & b3 & -> & H1 & H2 & _ & ->).
    cbn [concat length]. rewrite !length_app, H1, H2. done. }
  assert (Hpos : ∀ (samples : list (clip * nat)) bs, 0 < bs →
            Forall (λ b, 0 < length b) (DataLoader bs samples)).
  { intros samples bs Hbs. eapply Forall_impl; [by apply DataLoader_nonempty|].
    simpl. lia. }
  split; [|split; [|split; [|split]]].
  - intros loader l epoch. split; [|apply length_removelast].
    apply (train_loop_removelast forward criterion backward step topk args epoch
             loader 0).
  - intros loader m. unfold validate.
    by rewrite (validate_loop_removelast forward criterion topk args m loader 0).
  - intros samples. apply DataLoader_nine.
  - intros samples bs l epoch Hrows Htopk Hi Hpf Hbs.
    destruct (train_measures forward criterion backward step topk Hrows Htopk args
                epoch (DataLoader bs samples) l Hi Hpf (Hpos samples bs Hbs))
      as (st & Ht & Hc & Hl & Ho).
    exists st. split; [done|]. split; [done|]. split; [done|].
    split; [by rewrite Hc, DataLoader_full|]. split; [done|].
    intros H9 ->. rewrite Hc. by apply Hnine.
  - intros samples bs m Hrows Htopk Hpf Hbs.
    destruct (validate_mean forward criterion topk Hrows Htopk args m
                (DataLoader bs samples) Hpf (Hpos samples bs Hbs))
      as (v & out & Hv & Hr & Hm & Ho).
    exists v, out. split; [done|]. split; [done|]. split; [done|].
    split; [by apply DataLoader_full|]. split; [done|].
    intros H9 ->. by apply Hnine.
Qed.

End DiscardFinalBatch.

Lemma toy_forward_rows (t : bool) (m : list R) (xs : list unit) :
  length (toy_forward t m xs) = length xs.
Proof. apply length_map. Qed.

Lemma first_indices_rows (t : bool) (m : list R) (xs : list unit) :
  Forall (λ row, ∃ idx, first_indices 5 row = ok idx) (toy_forward t m xs).
Proof.
  unfold toy_forward. induction xs as [|x xs IH]; simpl; constructor; [|done].
  by eexists.
Qed.

Lemma loops_discard_final_batch_witness :
  let loader := DataLoader 4 nine_samples in
  (∃ b1 b2 b3, loader = [b1; b2; b3]
     ∧ length b1 = 4 ∧ length b2 = 4 ∧ length b3 = 1
     ∧ removelast loader = [b1; b2])
  ∧ (∃ st,
       train toy_forward toy_criterion unit_gradient plain_sgd first_indices
         example_args loader learner0 0 = ok st
       ∧ AverageMeter.count (top1 (mets st)) = length (concat (removelast loader))
       ∧ AverageMeter.count (losses (mets st)) = length (concat (removelast loader))
       ∧ AverageMeter.count (top1 (mets st)) = 4 * (length loader - 1)
       ∧ filter is_progress (out st)
         = map (Progress 0) (multiples (print_freq example_args) 0 (length loader - 1))
       ∧ (length nine_samples = 9 → 4 = 4 →
            AverageMeter.count (top1 (mets st)) = 8 ∧ length loader - 1 = 2))
  ∧ ∃ v out,
      validate toy_forward toy_criterion first_indices example_args loader [0%R]
      = ok (v, out)
      ∧ (0 <= v <= 100)%R
      ∧ (v * INR (length (concat (removelast loader)))
         = 100 * INR (sum_list (map (top1_hits toy_forward first_indices false [0%R])
                                  (removelast loader))))%R
      ∧ length (concat (removelast loader)) = 4 * (length loader - 1)
      ∧ out = map TestProgress
                (multiples (print_freq example_args) 0 (length loader - 1))
              ++ [TestingResults v]
      ∧ (length nine_samples = 9 → 4 = 4 →
           length (concat (removelast loader)) = 8).
Proof.
  intros loader.
  destruct (loops_discard_final_batch toy_forward toy_criterion unit_gradient
              plain_sgd first_indices example_args) as (_ & _ & H9 & Ht & Hv).
  split; [|split].
  - apply H9. reflexivity.
  - apply (Ht nine_samples 4 learner0 0%Z).
    + apply toy_forward_rows.
    + apply first_indices_rows.
    + discriminate.
    + discriminate.
    + lia.
  - apply (Hv nine_samples 4 [0%R]).
    + apply toy_forward_rows.
    + apply first_indices_rows.
    + discriminate.
    + lia.
Defined.

(** ** Gradient accumulation *)

Section Accumulation.

Context {clip net buffers : Type}.
Variable forward : bool → net → list clip → list (list R).
Variable criterion : list (list R) → list nat → R.
Variable backward : net → list (clip * nat) → list R.
Variable step : list Optim.param_group → buffers → net → list R → buffers * net.
Variable topk : nat → list R → result (list nat).

Lemma n_steps_optimizer_step (l : learner net buffers) (g : list R) :
  n_steps (optimizer_step step l g) = S (n_steps l).
Proof. unfold optimizer_step. by destruct (step _ _ _ _). Qed.

(** Every batch the loop processes ends with a call of [optimizer.step()],
    and a batch whose index is a multiple of [iter_size] makes two. *)
Lemma train_batch_steps (args : Args) (epoch i : Z) (b : list (clip * nat))
    (st st' : train_state) :
  train_batch forward criterion backward step topk args epoch i b st = ok st' →
  ∃ at_boundary : bool,
    divides (iter_size args) i = ok at_boundary
    ∧ n_steps (lrn st') = n_steps (lrn st) + (if at_boundary then 2 else 1).
Proof.
  unfold train_batch. intros H.
  destruct (measure _ _ _ _ _ _ _) as [|mets']; cbn [rbind] in H; [done|].
  destruct (divides (iter_size args) i) as [|at_boundary]; cbn [rbind] in H; [done|].
  exists at_boundary. split; [done|].
  destruct at_boundary.
  - unfold boundary in H. destruct (clip_and_report args _ (out st)) as [g2 out'].
    destruct (clip_and_report args _ out') as [g3 out3].
    destruct (divides (print_freq args) i) as [|printing]; cbn [rbind] in H; [done|].
    injection H as <-. cbn [lrn]. rewrite !n_steps_optimizer_step. lia.
  - destruct (clip_and_report args _ (out st)) as [g2 out'].
    destruct (divides (print_freq args) i) as [|printing]; cbn [rbind] in H; [done|].
    injection H as <-. cbn [lrn]. rewrite !n_steps_optimizer_step. lia.
Qed.

End Accumulation.

(** C1 (the code departs from the claim).  With [iter_size] 2, no
    clipping, one parameter starting at 0, plain gradient descent with
    learning rate 1 and a gradient of 1 on every batch, the two batches that
    [train] processes lead to three optimizer steps and to the parameter
    [-3/2]: batch 0 steps on its own gradient divided by 2 and then once
    more on the zeroed gradient, batch 1 steps on its undivided gradient.
    One step on the two gradients summed and divided by 2 would give
    [-1]. *)
Theorem accumulation_steps_on_every_batch :
  ∃ st,
    train toy_forward toy_criterion unit_gradient plain_sgd first_indices
      accumulate_args three_batches learner0 0 = ok st
    ∧ model (lrn st) = [(- (3 / 2))%R]
    ∧ n_steps (lrn st) = 3
    ∧ (plain_sgd [] tt [0%R] [((1 + 1) / 2)%R]).2 = [(0 - 1 * ((1 + 1) / 2))%R]
    ∧ model (lrn st) ≠ (plain_sgd [] tt [0%R] [((1 + 1) / 2)%R]).2.
Proof.
  eexists. split; [vm_compute; reflexivity|].
  assert (Hm : ∀ x y : R, [x] = [y] → x = y) by (intros x y H; by injection H).
  split; [|split; [|split]].
  - simpl. f_equal. lra.
  - reflexivity.
  - reflexivity.
  - simpl. intros H. apply Hm in H. lra.
Qed.

(** ** Configuration errors and the control flow of [main] *)

Lemma eqb_neq_false (a b : string) : a ≠ b → String.eqb a b = false.
Proof. apply String.eqb_neq. Qed.

Lemma dataset_config_unknown (args : Args) :
  dataset args ≠ "ucf101" → dataset args ≠ "hmdb51" →
  dataset args ≠ "kinetics" → dataset args ≠ "something" →
  dataset_config args
  = raise (ValueError (String.append "Unknown dataset " (dataset args))).
Proof.
  intros H1 H2 H3 H4. unfold dataset_config.
  by rewrite !eqb_neq_false.
Qed.

Lemma dataset_config_hmdb51 (args : Args) :
  dataset args = "hmdb51" → dataset_config args = ok (51%Z, None).
Proof. intros H. unfold dataset_config. by rewrite H. Qed.

Lemma dataset_arguments_unbound (args : Args) (data_length : option nat) :
  dataset_arguments args data_length None
  = match data_length with
    | Some _ => raise (UnboundLocalError "rgb_read_format")
    | None => raise (UnboundLocalError "data_length")
    end.
Proof.
  unfold dataset_arguments. destruct data_length; cbn [read_local rbind ok raise]; [|done].
  by destruct (_ || _).
Qed.

Lemma init_C3DRes18_invalid (files : Pretrained) (args : Args) (model_dict : state_dict) :
  pretrained_parts args ≠ "scratch" → pretrained_parts args ≠ "3D" →
  init_C3DRes18 files args model_dict = raise (ValueError C3DRes18_parts_message).
Proof.
  intros H1 H2. unfold init_C3DRes18. by rewrite !eqb_neq_false.
Qed.

Section MainFacts.

Context {clip net buffers rng : Type}.
Variable forward : bool → net → list clip → list (list R).
Variable criterion : list (list R) → list nat → R.
Variable backward : net → list (clip * nat) → list R.
Variable step : list Optim.param_group → buffers → net → list R → buffers * net.
Variable topk : nat → list R → result (list nat).
Variable xavier_uniform_ : rng → tensor → result (rng * tensor).
Variable TSN : Args → Z → result net.
Variable state_dict_of : net → state_dict.
Variable load_state_dict : net → state_dict → result net.
Variable get_optim_policies : net → list Optim.param_group.
Variable TSNDataSet : string → nat → string → list (clip * nat).
Variable shuffle : rng → list (clip * nat) → rng * list (clip * nat).
Variable files : Pretrained.
Variable SGD : list Optim.param_group → R → R → R → bool → result buffers.

Abbreviation main_ :=
  (main forward criterion backward step topk xavier_uniform_ TSN state_dict_of
     load_state_dict get_optim_policies TSNDataSet shuffle files SGD).
Abbreviation initialise_ :=
  (initialise xavier_uniform_ state_dict_of load_state_dict files).
Abbreviation resume_from_ := (resume_from (rng := rng) load_state_dict).
Abbreviation build_loaders_ := (build_loaders (rng := rng) TSNDataSet).

Abbreviation set_up_ :=
  (set_up (rng := rng) xavier_uniform_ TSN state_dict_of load_state_dict
     get_optim_policies TSNDataSet files).
Abbreviation run_ :=
  (run forward criterion backward step topk state_dict_of shuffle SGD).

Lemma initialise_trace (args : Args) (m : net) (w w' : world rng) (r : result net) :
  initialise_ args m w = (w', r) →
  fs w' = fs w
  ∧ ∃ s, trace w' = trace w ++ s ∧ Forall early_event s.
Proof.
  unfold initialise.
  destruct (initial_state _ _ _ _ _ _) as [z' [e|[g' nsd]]].
  { intros H. injection H as <- <-. split; [done|]. exists []. by rewrite app_nil_r. }
  destruct (load_state_dict m nsd) as [e|m']; intros H; injection H as <- <-.
  - split; [done|]. exists []. by rewrite app_nil_r.
  - split; [done|]. eexists. split; [reflexivity|]. by repeat constructor.
Qed.

Lemma initialise_C3DRes18_invalid (args : Args) (m : net) (w : world rng) :
  arch args = "C3DRes18" →
  pretrained_parts args ≠ "scratch" → pretrained_parts args ≠ "3D" →
  initialise_ args m w = (w, raise (ValueError C3DRes18_parts_message)).
Proof.
  intros Ha H1 H2. unfold initialise. rewrite initial_state_value.
  unfold resolve. rewrite Ha. cbn [String.eqb Ascii.eqb Bool.eqb].
  rewrite init_C3DRes18_invalid by done. unfold lift. cbn [fst snd rbind raise].
  by destruct w.
Qed.

Lemma resume_from_trace (args : Args) (m : net) (best : R) (w w' : world rng)
    (r : result (net * Z * R)) :
  resume_from_ args m best w = (w', r) →
  fs w' = fs w
  ∧ ∃ s, trace w' = trace w ++ s ∧ Forall early_event s.
Proof.
  unfold resume_from. destruct (String.eqb _ _).
  { intros H. injection H as <- <-. split; [done|]. exists []. by rewrite app_nil_r. }
  destruct (fs w !! resume args) as [ck|].
  - destruct (load_state_dict _ _) as [e|m']; intros H; injection H as <- <-.
    + split; [done|]. exists []. by rewrite app_nil_r.
    + split; [done|]. eexists. split; [reflexivity|]. by repeat constructor.
  - intros H; injection H as <- <-.
    split; [done|]. eexists. split; [reflexivity|]. by repeat constructor.
Qed.

Lemma resume_from_missing (args : Args) (m : net) (best : R) (w : world rng) :
  resume args ≠ "" → fs w !! resume args = None →
  resume_from_ args m best w
  = ({| fs := fs w; trace := trace w ++ [NoCheckpointFound (resume args)];
        gen := gen w; zoo := zoo w |},
     ok (m, start_epoch args, best)).
Proof.
  intros Hr Hf. unfold resume_from. rewrite (eqb_neq_false _ _ Hr), Hf. done.
Qed.

Lemma build_loaders_unbound (args : Args) (w : world rng) :
  build_loaders_ args None w
  = (w, raise (UnboundLocalError
                 (match data_length_of args with
                  | Some _ => "rgb_read_format"
                  | None => "data_length"
                  end))).
Proof.
  unfold build_loaders, pbind, lift. rewrite dataset_arguments_unbound.
  by destruct (data_length_of args).
Qed.

Lemma build_loaders_trace (args : Args) (fmt : option string) (w w' : world rng)
    (r : result (list (clip * nat) * list (clip * nat))) :
  build_loaders_ args fmt w = (w', r) →
  fs w' = fs w
  ∧ ((trace w' = trace w ∧ is_error r)
     ∨ (trace w' = trace w ++ [LoadersBuilt] ∧ is_ok r)).
Proof.
  unfold build_loaders, pbind, lift, emit.
  destruct (dataset_arguments _ _ _) as [e|a].
  { intros H. injection H as <- <-. split; [done|]. left. split; [done|]. by exists e. }
  destruct (check_batch_size args) as [e|[]].
  { intros H. injection H as <- <-. split; [done|]. left. split; [done|]. by exists e. }
  intros H. injection H as <- <-. split; [done|]. right. split; [done|]. by eexists.
Qed.

(** The set-up touches no file; it leaves early events and, exactly when it
    succeeds, the event of the loaders after them. *)
Lemma set_up_trace (args : Args) (w w' : world rng) (r : result (setup net clip)) :
  set_up_ args w = (w', r) →
  fs w' = fs w
  ∧ ∃ s, Forall early_event s
      ∧ ((is_error r ∧ trace w' = trace w ++ s)
         ∨ (is_ok r ∧ trace w' = trace w ++ s ++ [LoadersBuilt])).
Proof.
  unfold set_up, pbind, lift.
  destruct (dataset_config args) as [e|cfg].
  { intros H. injection H as <- <-. split; [done|]. exists []. split; [done|].
    left. split; [by exists e|]. by rewrite app_nil_r. }
  destruct (TSN args cfg.1) as [e|m0].
  { intros H. injection H as <- <-. split; [done|]. exists []. split; [done|].
    left. split; [by exists e|]. by rewrite app_nil_r. }
  cbn [emit].
  destruct (initialise_ args m0 _) as [w1 r1] eqn:E1.
  apply initialise_trace in E1 as [Hf1 (s1 & Ht1 & Hs1)]. cbn [fs trace] in Hf1, Ht1.
  destruct r1 as [e|m1].
  { intros H. injection H as <- <-. split; [done|].
    exists (ModelConstructed cfg.1 :: s1). split; [by constructor|].
    left. split; [by exists e|]. by rewrite Ht1, <- app_assoc. }
  destruct (resume_from_ args m1 0%R w1) as [w2 r2] eqn:E2.
  apply resume_from_trace in E2 as [Hf2 (s2 & Ht2 & Hs2)].
  destruct r2 as [e|r2].
  { intros H. injection H as <- <-. split; [congruence|].
    exists (ModelConstructed cfg.1 :: s1 ++ s2).
    split; [constructor; [done|by apply Forall_app]|].
    left. split; [by exists e|]. rewrite Ht2, Ht1, <- !app_assoc. done. }
  destruct (build_loaders_ args cfg.2 w2) as [w3 r3] eqn:E3.
  apply build_loaders_trace in E3 as [Hf3 Ht3].
  assert (He : Forall early_event (ModelConstructed cfg.1 :: s1 ++ s2))
    by (constructor; [done|by apply Forall_app]).
  destruct r3 as [e|sets]; intros H; injection H as <- <-.
  - split; [congruence|]. exists (ModelConstructed cfg.1 :: s1 ++ s2).
    split; [done|]. left. split; [by exists e|].
    destruct Ht3 as [[-> _] | [_ [x Hx]]]; [|done].
    rewrite Ht2, Ht1, <- !app_assoc. done.
  - split; [congruence|]. exists (ModelConstructed cfg.1 :: s1 ++ s2).
    split; [done|]. right. split; [by eexists|].
    destruct Ht3 as [[_ [x Hx]] | [-> _]]; [done|].
    rewrite Ht2, Ht1. by simplify_list_eq.
Qed.

Lemma set_up_unknown_dataset (args : Args) (w : world rng) :
  dataset args ≠ "ucf101" → dataset args ≠ "hmdb51" →
  dataset args ≠ "kinetics" → dataset args ≠ "something" →
  set_up_ args w
  = (w, raise (ValueError (String.append "Unknown dataset " (dataset args)))).
Proof.
  intros H1 H2 H3 H4. unfold set_up, pbind, lift.
  by rewrite dataset_config_unknown.
Qed.

Lemma set_up_hmdb51 (args : Args) (w : world rng) :
  dataset args = "hmdb51" → is_error (set_up_ args w).2.
Proof.
  intros Hd. unfold set_up, pbind, lift. rewrite (dataset_config_hmdb51 _ Hd).
  unfold ok. cbn [fst snd]. destruct (TSN args 51%Z) as [e|m0]; [by exists e|].
  cbn [emit fst snd].
  destruct (initialise_ args m0 _) as [w1 [e|m1]]; [by exists e|].
  destruct (resume_from_ args m1 0%R w1) as [w2 [e|r2]]; [by exists e|].
  rewrite build_loaders_unbound. by eexists.
Qed.

Lemma set_up_hmdb51_reaches_loaders (args : Args) (w w1 w2 : world rng)
    (m0 m1 : net) (r : net * Z * R) :
  dataset args = "hmdb51" →
  TSN args 51 = ok m0 →
  initialise_ args m0 (emit [ModelConstructed 51] w).1 = (w1, ok m1) →
  resume_from_ args m1 0%R w1 = (w2, ok r) →
  set_up_ args w
  = (w2, raise (UnboundLocalError
                  (match data_length_of args with
                  | Some _ => "rgb_read_format"
                  | None => "data_length"
                  end))).
Proof.
  intros Hd Hm Hi Hr. unfold set_up, pbind, lift.
  rewrite (dataset_config_hmdb51 _ Hd). unfold ok. cbn [fst snd].
  unfold ok in Hm. rewrite Hm.
  cbn [emit fst snd] in Hi |- *. unfold ok in Hi. rewrite Hi.
  unfold ok in Hr. rewrite Hr. by rewrite build_loaders_unbound.
Qed.

Lemma run_unknown_loss (args : Args) (su : setup net clip) (w : world rng) :
  loss_type args ≠ "nll" →
  run_ args su w = (w, raise (ValueError "Unknown loss type")).
Proof.
  intros H. unfold run, pbind, lift. by rewrite (eqb_neq_false _ _ H).
Qed.

Lemma main_set_up_error (args : Args) (w w' : world rng) (e : exn) :
  set_up_ args w = (w', inl e) → main_ args w = (w', inl e).
Proof. intros H. unfold main, pbind. by rewrite H. Qed.

Lemma main_set_up_ok (args : Args) (w w' : world rng) (su : setup net clip) :
  set_up_ args w = (w', inr su) → main_ args w = run_ args su w'.
Proof. intros H. unfold main, pbind. by rewrite H. Qed.

(** C9.  An unknown dataset name makes [main] raise [ValueError] at once:
    the world is untouched and no model has been constructed.  An unknown
    loss type makes [main] end in an error after the set-up only: no file
    is written and nothing beyond the set-up events has happened, so no
    optimizer is built and no epoch is started; when the set-up itself
    succeeds the error is [ValueError("Unknown loss type")].  For
    [C3DRes18], a pretrained source other than [scratch] and [3D] makes the
    resolver, and with it the initialisation of [main], raise [ValueError]
    with the message of line 254 and leave the download cache alone.
    A resume path that names no file is reported and the run goes on with
    the model, the start epoch and the best precision it had. *)
Theorem configuration_errors (args : Args) (w : world rng) :
  (dataset args ≠ "ucf101" → dataset args ≠ "hmdb51" →
   dataset args ≠ "kinetics" → dataset args ≠ "something" →
     main_ args w
     = (w, raise (ValueError (String.append "Unknown dataset " (dataset args)))))
  ∧ (loss_type args ≠ "nll" →
       ∃ w' e s,
         main_ args w = (w', inl e)
         ∧ fs w' = fs w
         ∧ trace w' = trace w ++ s
         ∧ Forall setup_event s
         ∧ (is_ok (set_up_ args w).2 → e = ValueError "Unknown loss type"))
  ∧ (arch args = "C3DRes18" →
     pretrained_parts args ≠ "scratch" → pretrained_parts args ≠ "3D" →
       (∀ model_dict z,
          resolve files args model_dict z
          = (z, raise (ValueError C3DRes18_parts_message)))
       ∧ ∀ m, initialise_ args m w = (w, raise (ValueError C3DRes18_parts_message)))
  ∧ (resume args ≠ "" → fs w !! resume args = None →
       ∀ m best,
         resume_from_ args m best w
         = ({| fs := fs w; trace := trace w ++ [NoCheckpointFound (resume args)];
               gen := gen w; zoo := zoo w |},
            ok (m, start_epoch args, best))).
Proof.
  split; [|split; [|split]].
  - intros H1 H2 H3 H4. apply main_set_up_error. by apply set_up_unknown_dataset.
  - intros Hl. destruct (set_up_ args w) as [w' r] eqn:E.
    destruct (set_up_trace _ _ _ _ E) as [Hfs (s & Hs & Ht)].
    assert (Hs' : Forall setup_event s).
    { eapply Forall_impl; [exact Hs|]. by intros []. }
    destruct r as [e|su].
    + exists w', e, s. split; [by apply main_set_up_error|]. split; [done|].
      destruct Ht as [[_ Ht] | [[x Hx] _]]; [|done].
      split; [done|]. split; [done|]. by intros [x Hx].
    + exists w', (ValueError "Unknown loss type"), (s ++ [LoadersBuilt]).
      split; [by rewrite (main_set_up_ok _ _ _ _ E), run_unknown_loss|].
      split; [done|].
      destruct Ht as [[[x Hx] _] | [_ Ht]]; [done|].
      split; [done|]. split; [|done].
      apply Forall_app. split; [done|]. by repeat constructor.
  - intros Ha H1 H2. split.
    + intros model_dict z. unfold resolve. rewrite Ha.
      cbn [String.eqb Ascii.eqb Bool.eqb]. by rewrite init_C3DRes18_invalid.
    + intros m. by apply initialise_C3DRes18_invalid.
  - intros Hr Hf m best. by apply resume_from_missing.
Qed.

(** C10.  For the dataset [hmdb51] the class count is 51 and no
    frame-filename format is bound.  Constructing the loaders then raises
    an unbound-name error and leaves the world as it was: for
    [rgb_read_format] when the modality binds [data_length], for
    [data_length] itself otherwise.  So [main] never returns normally and
    never gets as far as having loaders; when the model is constructed,
    initialised and resumed without an error, the error of [main] is that
    unbound-name error. *)
Theorem hmdb51_read_format_unbound (args : Args) (w : world rng) :
  dataset args = "hmdb51" →
  dataset_config args = ok (51%Z, None)
  ∧ (∀ w0, build_loaders_ args None w0
           = (w0, raise (UnboundLocalError
                           (match data_length_of args with
                            | Some _ => "rgb_read_format"
                            | None => "data_length"
                            end))))
  ∧ (∃ w' e s,
       main_ args w = (w', inl e)
       ∧ fs w' = fs w
       ∧ trace w' = trace w ++ s
       ∧ Forall early_event s)
  ∧ (∀ m0 w1 m1 w2 r,
       TSN args 51 = ok m0 →
       initialise_ args m0 (emit [ModelConstructed 51] w).1 = (w1, ok m1) →
       resume_from_ args m1 0%R w1 = (w2, ok r) →
       main_ args w
       = (w2, raise (UnboundLocalError
                       (match data_length_of args with
                        | Some _ => "rgb_read_format"
                        | None => "data_length"
                        end)))).
Proof.
  intros Hd. split; [by apply dataset_config_hmdb51|].
  split; [intros w0; apply build_loaders_unbound|]. split.
  - pose proof (set_up_hmdb51 args w Hd) as [e He].
    destruct (set_up_ args w) as [w' r] eqn:E. simpl in He. subst r.
    destruct (set_up_trace _ _ _ _ E) as [Hfs (s & Hs & Ht)].
    exists w', e, s. split; [by apply main_set_up_error|]. split; [done|].
    destruct Ht as [[_ Ht] | [[x Hx] _]]; [done|done].
  - intros m0 w1 m1 w2 r Hm Hi Hr. apply main_set_up_error.
    by eapply set_up_hmdb51_reaches_loaders.
Qed.

End MainFacts.

Lemma configuration_errors_witness :
  toy_main (make_args "imagenet" "ECO" "scratch" "RGB" "nll" "" 1 None) empty_world
  = (empty_world, raise (ValueError "Unknown dataset imagenet"))
  ∧ (∃ w' e s,
       toy_main (make_args "ucf101" "ECO" "scratch" "RGB" "mse" "" 1 None) empty_world
       = (w', inl e)
       ∧ fs w' = fs empty_world
       ∧ trace w' = trace empty_world ++ s
       ∧ Forall setup_event s)
  ∧ (∀ model_dict z,
       resolve files_example
         (make_args "ucf101" "C3DRes18" "2D" "RGB" "nll" "" 1 None) model_dict z
       = (z, raise (ValueError C3DRes18_parts_message)))
  ∧ resume_from toy_load_state_dict
      (make_args "ucf101" "ECO" "scratch" "RGB" "nll" "missing.pth.tar" 1 None)
      [0%R] 0%R empty_world
    = ({| fs := ∅; trace := [] ++ [NoCheckpointFound "missing.pth.tar"]; gen := tt;
          zoo := ∅ |},
       ok ([0%R], 0%Z, 0%R)).
Proof.
  unfold toy_main. split; [|split; [|split]].
  - destruct
      (configuration_errors toy_forward toy_criterion unit_gradient plain_sgd
         first_indices no_xavier toy_TSN toy_state_dict_of toy_load_state_dict
         toy_policies toy_dataset toy_shuffle files_example toy_SGD
         (make_args "imagenet" "ECO" "scratch" "RGB" "nll" "" 1 None) empty_world)
      as (H & _).
    apply H; discriminate.
  - destruct
      (configuration_errors toy_forward toy_criterion unit_gradient plain_sgd
         first_indices no_xavier toy_TSN toy_state_dict_of toy_load_state_dict
         toy_policies toy_dataset toy_shuffle files_example toy_SGD
         (make_args "ucf101" "ECO" "scratch" "RGB" "mse" "" 1 None) empty_world)
      as (_ & H & _).
    assert (Hl : loss_type (make_args "ucf101" "ECO" "scratch" "RGB" "mse" "" 1 None)
                 ≠ "nll") by discriminate.
    destruct (H Hl) as (w' & e & s & H1 & H2 & H3 & H4 & _).
    exists w', e, s. split; [exact H1|]. split; [exact H2|]. split; [exact H3|exact H4].
  - destruct
      (configuration_errors toy_forward toy_criterion unit_gradient plain_sgd
         first_indices no_xavier toy_TSN toy_state_dict_of toy_load_state_dict
         toy_policies toy_dataset toy_shuffle files_example toy_SGD
         (make_args "ucf101" "C3DRes18" "2D" "RGB" "nll" "" 1 None) empty_world)
      as (_ & _ & H & _).
    apply H; [reflexivity | discriminate | discriminate].
  - destruct
      (configuration_errors toy_forward toy_criterion unit_gradient plain_sgd
         first_indices no_xavier toy_TSN toy_state_dict_of toy_load_state_dict
         toy_policies toy_dataset toy_shuffle files_example toy_SGD
         (make_args "ucf101" "ECO" "scratch" "RGB" "nll" "missing.pth.tar" 1 None)
         empty_world)
      as (_ & _ & _ & H).
    apply H; [discriminate | apply lookup_empty].
Defined.

Lemma hmdb51_read_format_unbound_witness :
  let args := make_args "hmdb51" "ECO" "scratch" "RGB" "nll" "" 1 None in
  dataset_config args = ok (51%Z, None)
  ∧ (∀ w0 : world unit,
       build_loaders toy_dataset args None w0
       = (w0, raise (UnboundLocalError
                       (match data_length_of args with
                        | Some _ => "rgb_read_format"
                        | None => "data_length"
                        end))))
  ∧ (∃ w' e s,
       toy_main args empty_world = (w', inl e)
       ∧ fs w' = fs empty_world
       ∧ trace w' = trace empty_world ++ s
       ∧ Forall early_event s).
Proof.
  intros args.
  destruct
    (hmdb51_read_format_unbound toy_forward toy_criterion unit_gradient plain_sgd
       first_indices no_xavier toy_TSN toy_state_dict_of toy_load_state_dict
       toy_policies toy_dataset toy_shuffle files_example toy_SGD args empty_world)
    as (H1 & H2 & H3 & _); [reflexivity|].
  split; [exact H1|]. split; [exact H2|exact H3].
Defined.

Lemma learning_rate_schedule_witness :
  decayed_lr example_args 29 = (1 / 10)%R
  ∧ decayed_lr example_args 30 = (1 / 100)%R
  ∧ decayed_lr example_args 90 = (1 / 10000)%R.
Proof.
  destruct
    (learning_rate_schedule toy_forward toy_criterion unit_gradient plain_sgd
       first_indices toy_state_dict_of toy_shuffle example_args)
    as (_ & _ & H).
  apply H; reflexivity.
Defined.

Lemma best_model_promotion_witness :
  ∃ w' best',
    evaluate_epoch toy_forward toy_criterion first_indices toy_state_dict_of
      example_args [] learner0 4 0%R empty_world = (w', ok best')
    ∧ ((0 > 0)%R →
         best' = 0%R
         ∧ fs w' !! best_name example_args
           = Some {| ck_epoch := 4 + 1; ck_arch := arch example_args;
                     ck_state_dict := toy_state_dict_of (model learner0);
                     ck_best_prec1 := 0 |})
    ∧ (¬ (0 > 0)%R →
         best' = 0%R
         ∧ fs w' !! best_name example_args = fs empty_world !! best_name example_args).
Proof.
  apply (best_model_promotion toy_forward toy_criterion first_indices
           toy_state_dict_of example_args [] learner0 4 0%R 0%R empty_world
           {| fs := ∅; trace := [] ++ [] ++ [TestingResults 0]; gen := tt; zoo := ∅ |}).
  - left. reflexivity.
  - reflexivity.
Defined.

(** * Further properties *)

(** ** Sequences of meter updates *)

Lemma run_updates_counted (us : list (R * nat)) :
  ∀ m : AverageMeter.t, 0 < AverageMeter.count m →
    ∃ m', run_updates m us = ok m'
      ∧ AverageMeter.sum m' = (AverageMeter.sum m + weighted_sum us)%R
      ∧ AverageMeter.count m' = AverageMeter.count m + total_weight us
      ∧ (us ≠ [] →
           AverageMeter.avg m' = (AverageMeter.sum m' / INR (AverageMeter.count m'))%R
           ∧ AverageMeter.val m' = (List.last us (0%R, 0)).1).
Proof.
  induction us as [|[v n] us IH]; intros m Hm.
  - exists m. unfold weighted_sum, total_weight. simpl.
    split; [done|]. split; [lra|]. split; [lia|]. done.
  - cbn [run_updates]. unfold AverageMeter.update.
    destruct (Nat.eqb_spec (AverageMeter.count m + n) 0) as [E|E]; [lia|].
    cbn [rbind ok].
    set (m1 := {| AverageMeter.val := v |}).
    destruct (IH m1) as (m' & Hrun & Hs & Hc & Hav); [simpl; lia|].
    exists m'. split; [done|].
    split. { rewrite Hs. unfold weighted_sum. simpl. lra. }
    split. { rewrite Hc. unfold total_weight. simpl. lia. }
    intros _. destruct us as [|u us'].
    + simpl in Hrun. injection Hrun as <-. done.
    + destruct Hav as [Ha Hv]; [done|]. split; [done|]. by rewrite Hv.
Qed.

(** X1.  Whatever updates follow a first update of positive weight, the
    meter ends with the weighted sum of all values as its sum, the total
    weight as its count, their quotient as its average and the last value as
    [val]; no update of the sequence raises. *)
Theorem meter_weighted_mean (v : R) (n : nat) (rest : list (R * nat)) :
  0 < n →
  ∃ m, run_updates AverageMeter.reset ((v, n) :: rest) = ok m
    ∧ AverageMeter.sum m = weighted_sum ((v, n) :: rest)
    ∧ AverageMeter.count m = total_weight ((v, n) :: rest)
    ∧ AverageMeter.avg m
      = (weighted_sum ((v, n) :: rest) / INR (total_weight ((v, n) :: rest)))%R
    ∧ AverageMeter.val m = (List.last ((v, n) :: rest) (0%R, 0)).1.
Proof.
  intros Hn. cbn [run_updates]. unfold AverageMeter.update.
  cbn [AverageMeter.count AverageMeter.sum AverageMeter.reset].
  destruct (Nat.eqb_spec (0 + n) 0) as [E|E]; [lia|]. cbn [rbind ok].
  set (m1 := {| AverageMeter.val := v |}).
  destruct (run_updates_counted rest m1) as (m & Hrun & Hs & Hc & Hav); [simpl; lia|].
  assert (Hs' : AverageMeter.sum m = weighted_sum ((v, n) :: rest)).
  { rewrite Hs. unfold weighted_sum. simpl. lra. }
  assert (Hc' : AverageMeter.count m = total_weight ((v, n) :: rest)).
  { rewrite Hc. unfold total_weight. simpl. lia. }
  exists m. split; [done|]. split; [done|]. split; [done|].
  destruct rest as [|u rest'].
  - simpl in Hrun. injection Hrun as <-.
    rewrite <- Hs', <- Hc'. done.
  - destruct Hav as [Ha Hv]; [done|]. rewrite <- Hs', <- Hc'. split; [done|].
    by rewrite Hv.
Qed.

(** X2.  A sequence of updates of a fresh meter raises exactly when its first
    update has weight 0, and the only error it can raise is
    [ZeroDivisionError]: a weight of 0 later in the sequence is harmless. *)
Theorem meter_updates_fail_iff (us : list (R * nat)) :
  (run_updates AverageMeter.reset us = raise ZeroDivisionError
   ↔ ∃ v rest, us = (v, 0) :: rest)
  ∧ ∀ e, run_updates AverageMeter.reset us = inl e → e = ZeroDivisionError.
Proof.
  assert (Hpos : ∀ v n rest,
             ∃ m, run_updates AverageMeter.reset ((v, S n) :: rest) = ok m).
  { intros v n rest. cbn [run_updates]. unfold AverageMeter.update.
    cbn [AverageMeter.count AverageMeter.reset Nat.add Nat.eqb rbind ok].
    set (m1 := {| AverageMeter.val := v |}).
    destruct (run_updates_counted rest m1) as (m & Hrun & _); [simpl; lia|].
    by exists m. }
  split; [split|].
  - intros He. destruct us as [|[v n] rest]; [done|].
    destruct n as [|n]; [by eexists _, _|].
    destruct (Hpos v n rest) as [m Hm]. rewrite Hm in He. done.
  - by intros (v & rest & ->).
  - intros e He. destruct us as [|[v n] rest]; [done|].
    destruct n as [|n].
    + simpl in He. by injection He as <-.
    + destruct (Hpos v n rest) as [m Hm]. rewrite Hm in He. done.
Qed.

Lemma meter_weighted_mean_witness :
  ∃ m, run_updates AverageMeter.reset [(2%R, 3%nat); (4%R, 1%nat)] = ok m
    ∧ AverageMeter.sum m = weighted_sum [(2%R, 3%nat); (4%R, 1%nat)]
    ∧ AverageMeter.count m = total_weight [(2%R, 3%nat); (4%R, 1%nat)]
    ∧ AverageMeter.avg m
      = (weighted_sum [(2%R, 3%nat); (4%R, 1%nat)] / INR (total_weight [(2%R, 3%nat); (4%R, 1%nat)]))%R
    ∧ AverageMeter.val m = (List.last [(2%R, 3%nat); (4%R, 1%nat)] (0%R, 0%nat)).1.
Proof. apply (meter_weighted_mean 2 3 [(4%R, 1%nat)]). lia. Defined.

(** ** Top-1 and top-5 precision *)

Lemma one_hit_per_row (p : list nat) (t : nat) :
  NoDup p →
  (if bool_decide (p !! 0 = Some t) then 1 else 0)
  + (if bool_decide (p !! 1 = Some t) then 1 else 0)
  + (if bool_decide (p !! 2 = Some t) then 1 else 0)
  + (if bool_decide (p !! 3 = Some t) then 1 else 0)
  + (if bool_decide (p !! 4 = Some t) then 1 else 0) ≤ 1.
Proof.
  intros Hnd.
  assert (H : ∀ i j, p !! i = Some t → p !! j = Some t → i = j)
    by (intros i j; apply NoDup_lookup; done).
  repeat case_bool_decide; try lia;
    repeat match goal with
    | H1 : p !! ?i = Some t, H2 : p !! ?j = Some t |- _ =>
        lazymatch i with j => fail | _ => pose proof (H i j H1 H2); discriminate end
    end.
Qed.

Lemma five_ranks_hits (pred : list (list nat)) :
  Forall NoDup pred → ∀ target,
  hits 0 pred target + hits 1 pred target + hits 2 pred target
  + hits 3 pred target + hits 4 pred target ≤ length target.
Proof.
  induction 1 as [|p pred Hp _ IH]; intros target.
  - rewrite !hits_nil_l. lia.
  - destruct target as [|t target]; [rewrite !hits_nil_r; lia|].
    rewrite !hits_cons. specialize (IH target).
    pose proof (one_hit_per_row p t Hp). simpl. lia.
Qed.

Section PrecisionFacts.

Variable topk : nat → list R → result (list nat).

Lemma mapM_Forall {A B} (f : A → result B) (P : B → Prop) (xs : list A) (ys : list B) :
  (∀ x y, f x = ok y → P y) → mapM f xs = ok ys → Forall P ys.
Proof.
  intros Hf. revert ys. induction xs as [|x xs IH]; intros ys; simpl.
  - intros H. injection H as <-. constructor.
  - destruct (f x) as [|y] eqn:E; cbn [rbind]; [done|].
    destruct (mapM f xs) as [|ys']; cbn [rbind]; [done|].
    intros H. injection H as <-. constructor; [by eapply Hf|by apply IH].
Qed.

(** X3.  When there is one label per row of scores, as in every call of
    the two loops, and [topk] answers with distinct class indices, the two
    values [accuracy] returns for the ranks (1, 5) are ordered and bounded:
    0 <= prec@1 <= prec@5 <= 100. *)
Theorem accuracy_top5_bounds (output : list (list R)) (target : list nat)
    (p1 p5 : R) :
  length output = length target →
  (∀ row idx, topk 5 row = ok idx → NoDup idx) →
  accuracy topk output target [1; 5] = ok [p1; p5] →
  (0 <= p1 <= p5)%R ∧ (p5 <= 100)%R.
Proof.
  intros Hlen Hnd. unfold accuracy. change (max_list [1; 5]) with 5.
  destruct (mapM (topk 5) output) as [|pred] eqn:Hpred; cbn [rbind]; [done|].
  rewrite expand_as_same by (by rewrite (mapM_length _ _ _ Hpred)).
  cbn [rbind ok mapM]. destruct (Nat.eqb_spec (length target) 0) as [E|E]; [done|].
  cbn [rbind ok]. intros H. injection H as <- <-.
  cbn [seq map take concat]. rewrite !app_nil_r, !filter_app, !length_app.
  fold (hits 0 pred target) (hits 1 pred target) (hits 2 pred target)
       (hits 3 pred target) (hits 4 pred target).
  pose proof (five_ranks_hits pred (mapM_Forall _ _ _ _ Hnd Hpred) target) as H5.
  assert (Hn : (0 < INR (length target))%R) by (apply lt_0_INR; lia).
  assert (Hc : (0 < 100 / INR (length target))%R).
  { apply Rdiv_lt_0_compat; lra. }
  set (h0 := hits 0 pred target) in *.
  set (h := h0 + (hits 1 pred target + (hits 2 pred target
             + (hits 3 pred target + hits 4 pred target)))).
  assert (Hh0 : (0 <= INR h0 <= INR h)%R).
  { split; [apply pos_INR|]. apply le_INR. subst h. lia. }
  assert (Hh : (INR h <= INR (length target))%R) by (apply le_INR; subst h; lia).
  split; [split|].
  - apply Rmult_le_pos; lra.
  - apply Rmult_le_compat_r; lra.
  - assert (H1 : (INR h * (100 / INR (length target))
                   <= INR (length target) * (100 / INR (length target)))%R)
      by (apply Rmult_le_compat_r; lra).
    assert (H2 : (INR (length target) * (100 / INR (length target)) = 100)%R)
      by (field; lra).
    lra.
Qed.

End PrecisionFacts.

Lemma first_indices_NoDup (row : list R) (idx : list nat) :
  first_indices 5 row = ok idx → NoDup idx.
Proof.
  unfold first_indices. destruct (_ <? _); [done|].
  intros H. injection H as <-. apply (NoDup_seq 0 5).
Qed.

Lemma accuracy_top5_bounds_witness :
  let p := (INR 1 * (100 / INR 1))%R in
  (0 <= p <= p)%R ∧ (p <= 100)%R.
Proof.
  intros p.
  apply (accuracy_top5_bounds first_indices [[0; 0; 0; 0; 0]%R] [0] p p).
  - reflexivity.
  - apply first_indices_NoDup.
  - reflexivity.
Defined.

(** ** The schedule does not compound and never raises the rate *)

(** X4.  [adjust_learning_rate] sets the rate and the weight decay of every
    group from the arguments and the multipliers of the group, not from the
    values in place: adjusting for one epoch and then for another leaves the
    groups as adjusting for the second alone does, so decays do not
    compound. *)
Theorem adjust_learning_rate_overrides (args : Args)
    (groups : list Optim.param_group) (e1 e2 : Z) :
  adjust_learning_rate args (adjust_learning_rate args groups e1) e2
  = adjust_learning_rate args groups e2.
Proof.
  unfold adjust_learning_rate. rewrite map_map. apply map_ext.
  intros g. reflexivity.
Qed.

Lemma steps_passed_mono (steps : list Z) (e1 e2 : Z) :
  (e1 ≤ e2)%Z → steps_passed e1 steps ≤ steps_passed e2 steps.
Proof.
  intros He. unfold steps_passed.
  induction steps as [|s steps IH]; [done|].
  rewrite !filter_cons. repeat case_decide; simpl; lia.
Qed.

Lemma steps_passed_le_length (steps : list Z) (e : Z) :
  steps_passed e steps ≤ length steps.
Proof. unfold steps_passed. apply length_filter. Qed.

Lemma steps_passed_before (steps : list Z) (e : Z) :
  Forall (λ s, (e < s)%Z) steps → steps_passed e steps = 0.
Proof.
  unfold steps_passed. induction 1 as [|s steps Hs _ IH]; [done|].
  rewrite filter_cons. case_decide; [lia|done].
Qed.

Lemma pow_tenth_antitone (j k : nat) : j ≤ k → ((1 / 10) ^ k <= (1 / 10) ^ j)%R.
Proof.
  induction 1 as [|k Hjk IH]; [lra|].
  assert (0 < (1 / 10) ^ k)%R by (apply pow_lt; lra).
  simpl. lra.
Qed.

(** X5.  For a base rate that is not negative the scheduled rate never
    grows with the epoch; it stays between the base rate divided by 10 once
    per step and the base rate, and it is the base rate before the first
    step. *)
Theorem decayed_lr_never_increases (args : Args) (e1 e2 : Z) :
  (0 <= lr args)%R → (e1 ≤ e2)%Z →
  (decayed_lr args e2 <= decayed_lr args e1)%R
  ∧ (lr args * (1 / 10) ^ length (lr_steps args) <= decayed_lr args e2)%R
  ∧ (decayed_lr args e1 <= lr args)%R
  ∧ (Forall (λ s, (e1 < s)%Z) (lr_steps args) → decayed_lr args e1 = lr args).
Proof.
  intros Hlr He. unfold decayed_lr.
  pose proof (pow_tenth_antitone _ _ (steps_passed_mono (lr_steps args) _ _ He))
    as Hm.
  pose proof (pow_tenth_antitone _ _ (steps_passed_le_length (lr_steps args) e2))
    as Hl.
  pose proof (pow_tenth_antitone 0 (steps_passed e1 (lr_steps args)) (Nat.le_0_l _))
    as Hu.
  simpl in Hu.
  split; [by apply Rmult_le_compat_l|]. split; [by apply Rmult_le_compat_l|].
  split.
  - rewrite <- (Rmult_1_r (lr args)) at 2. by apply Rmult_le_compat_l.
  - intros Hb. rewrite (steps_passed_before _ _ Hb). simpl. lra.
Qed.

Lemma decayed_lr_never_increases_witness :
  (decayed_lr example_args 40 <= decayed_lr example_args 10)%R
  ∧ (lr example_args * (1 / 10) ^ length (lr_steps example_args)
     <= decayed_lr example_args 40)%R
  ∧ (decayed_lr example_args 10 <= lr example_args)%R
  ∧ (Forall (λ s, (10 < s)%Z) (lr_steps example_args) →
     decayed_lr example_args 10 = lr example_args).
Proof.
  apply (decayed_lr_never_increases example_args 10 40).
  - simpl. lra.
  - lia.
Defined.

(** ** How many optimizer steps an epoch makes *)

Lemma boundaries_S (iter i : Z) (n : nat) :
  boundaries iter i (S n)
  = (if (i mod iter =? 0)%Z then 1 else 0) + boundaries iter (i + 1) n.
Proof.
  unfold boundaries. rewrite <- cons_seq, <- fmap_S_seq. cbn [map].
  rewrite filter_cons. rewrite Z.add_0_r.
  replace (map (λ k, (i + Z.of_nat k)%Z) (S <$> seq 0 n))
    with (map (λ k, (i + 1 + Z.of_nat k)%Z) (seq 0 n)).
  2:{ rewrite <- list_fmap_compose. apply map_ext. intros k. simpl. lia. }
  destruct (Z.eqb_spec (i mod iter) 0) as [E|E]; case_decide; done.
Qed.

Lemma divides_value (m i : Z) (b : bool) :
  divides m i = ok b → b = (i mod m =? 0)%Z.
Proof.
  unfold divides. destruct (m =? 0)%Z; [done|]. intros H. by injection H.
Qed.

Section StepCount.

Context {clip net buffers : Type}.
Variable forward : bool → net → list clip → list (list R).
Variable criterion : list (list R) → list nat → R.
Variable backward : net → list (clip * nat) → list R.
Variable step : list Optim.param_group → buffers → net → list R → buffers * net.
Variable topk : nat → list R → result (list nat).

Lemma run_indexed_steps (args : Args) (epoch : Z) (bs : list (list (clip * nat))) :
  ∀ (i : Z) (st st' : train_state),
    run_indexed (train_batch forward criterion backward step topk args epoch)
      i bs st = ok st' →
    n_steps (lrn st')
    = n_steps (lrn st) + length bs + boundaries (iter_size args) i (length bs).
Proof.
  induction bs as [|b bs IH]; intros i st st' H.
  - injection H as <-. unfold boundaries. simpl. lia.
  - cbn [run_indexed] in H.
    destruct (train_batch _ _ _ _ _ _ _ _ _ _) as [|st1] eqn:E; cbn [rbind] in H;
      [done|].
    apply train_batch_steps in E as (at_b & Hd & Hs).
    apply divides_value in Hd. subst at_b.
    rewrite (IH _ _ _ H), Hs. cbn [length]. rewrite boundaries_S.
    destruct (_ =? _)%Z; lia.
Qed.

Lemma boundaries_one (i : Z) (n : nat) : boundaries 1 i n = n.
Proof.
  revert i. induction n as [|n IH]; intros i; [done|].
  rewrite boundaries_S, IH, Z.mod_1_r. done.
Qed.

(** X6.  A call of [train] that returns has called [optimizer.step()] once
    for each of the [len(loader) - 1] batches it processes and once more for
    each of them whose index is a multiple of [iter_size]; without
    accumulation ([iter_size = 1]) that is two steps per batch. *)
Theorem train_optimizer_steps (args : Args) (loader : list (list (clip * nat)))
    (l : learner net buffers) (epoch : Z) (st : train_state) :
  train forward criterion backward step topk args loader l epoch = ok st →
  n_steps (lrn st)
  = n_steps l + (length loader - 1)
    + boundaries (iter_size args) 0 (length loader - 1)
  ∧ (iter_size args = 1%Z → n_steps (lrn st) = n_steps l + 2 * (length loader - 1)).
Proof.
  intros H. unfold train in H.
  rewrite (train_loop_removelast forward criterion backward step topk args epoch
             loader 0) in H.
  apply run_indexed_steps in H. rewrite length_removelast in H. cbn [lrn] in H.
  split; [done|]. intros E. rewrite H, E, boundaries_one. lia.
Qed.

(** ** A loader of at most one batch *)

(** X7.  On a loader of at most one batch neither loop runs its body:
    [train] returns with the learner untouched and nothing printed, and
    [validate] reports and returns a precision of 0. *)
Theorem single_batch_loader_is_skipped (args : Args)
    (loader : list (list (clip * nat))) (l : learner net buffers) (epoch : Z)
    (m : net) :
  length loader ≤ 1 →
  train forward criterion backward step topk args loader l epoch
  = ok {| lrn := l; mets := fresh_meters; out := [] |}
  ∧ validate forward criterion topk args loader m
    = ok (0%R, [TestingResults 0]).
Proof.
  intros Hl. unfold train, validate.
  rewrite (train_loop_removelast forward criterion backward step topk args epoch
             loader 0).
  rewrite (validate_loop_removelast forward criterion topk args m loader 0).
  destruct loader as [|b [|b' loader]]; [done|done|simpl in Hl; lia].
Qed.

End StepCount.

Lemma train_optimizer_steps_witness :
  ∃ st,
    train toy_forward toy_criterion unit_gradient plain_sgd first_indices
      accumulate_args three_batches learner0 0 = ok st
    ∧ n_steps (lrn st)
      = n_steps learner0 + (length three_batches - 1)
        + boundaries (iter_size accumulate_args) 0 (length three_batches - 1)
    ∧ (iter_size accumulate_args = 1%Z →
       n_steps (lrn st) = n_steps learner0 + 2 * (length three_batches - 1)).
Proof.
  eexists. split; [reflexivity|].
  apply (train_optimizer_steps toy_forward toy_criterion unit_gradient plain_sgd
           first_indices accumulate_args three_batches learner0 0).
  reflexivity.
Defined.

Lemma single_batch_loader_is_skipped_witness :
  train toy_forward toy_criterion unit_gradient plain_sgd first_indices
    example_args [[(tt, 0)]] learner0 0
  = ok {| lrn := learner0; mets := fresh_meters; out := [] |}
  ∧ validate toy_forward toy_criterion first_indices example_args [[(tt, 0)]] [0%R]
    = ok (0%R, [TestingResults 0]).
Proof.
  apply (single_batch_loader_is_skipped toy_forward toy_criterion unit_gradient
           plain_sgd first_indices example_args [[(tt, 0)]] learner0 0 [0%R]).
  simpl. lia.
Defined.

(** ** Checkpoints of different epochs are different files *)

Lemma cut_at_underscore (s1 s2 r1 r2 : string) :
  no_underscore s1 = true → no_underscore s2 = true →
  String.append s1 (String "_" r1) = String.append s2 (String "_" r2) →
  s1 = s2 ∧ r1 = r2.
Proof.
  revert s2. induction s1 as [|c s1 IH]; intros [|c2 s2] H1 H2 H; simpl in *.
  - by injection H.
  - injection H as <- _. by rewrite Ascii.eqb_refl in H2.
  - injection H as -> _. by rewrite Ascii.eqb_refl in H1.
  - injection H as -> H. apply andb_true_iff in H1 as [_ H1].
    apply andb_true_iff in H2 as [_ H2].
    destruct (IH s2 H1 H2 H) as [-> ->]. done.
Qed.

Lemma no_underscore_uint (d : Decimal.uint) :
  no_underscore (NilEmpty.string_of_uint d) = true.
Proof. induction d; simpl; done. Qed.

Lemma no_underscore_str (n : Z) : no_underscore (str n) = true.
Proof.
  unfold str, NilZero.string_of_int, NilZero.string_of_uint.
  destruct (Z.to_int n) as [d|d]; destruct d; try done;
    simpl; apply no_underscore_uint.
Qed.

Lemma str_inj (n n' : Z) : str n = str n' → n = n'.
Proof.
  unfold str. intros H. apply DecimalZ.to_int_inj.
  assert (Hn : ∀ z, Z.to_int z ≠ Decimal.Pos Decimal.Nil
                    ∧ Z.to_int z ≠ Decimal.Neg Decimal.Nil).
  { intros [|p|p]; simpl; split; try discriminate;
      intros E; injection E as E; by apply Unsigned.to_uint_nonnil in E. }
  pose proof (NilZero.isi (Z.to_int n) (proj1 (Hn n)) (proj2 (Hn n))) as H1.
  pose proof (NilZero.isi (Z.to_int n') (proj1 (Hn n')) (proj2 (Hn n'))) as H2.
  rewrite H in H1. rewrite H1 in H2. by injection H2.
Qed.

Lemma checkpoint_filename_inj (args : Args) (e1 e2 : Z) (f1 f2 : string) :
  checkpoint_filename args e1 f1 = checkpoint_filename args e2 f2 →
  e1 = e2 ∧ f1 = f2.
Proof.
  rewrite !checkpoint_filename_eq. intros H.
  do 4 apply append_inj_l in H.
  apply cut_at_underscore in H as [H ->]; [|apply no_underscore_str..].
  split; [by apply str_inj|done].
Qed.

(** X8.  The checkpoint names of two different epochs differ, so saving the
    checkpoint of one epoch leaves the checkpoint file of every other epoch
    as it was. *)
Theorem checkpoints_of_epochs_distinct (args : Args) (state : checkpoint)
    (is_best : bool) (fs0 : filesystem) (e : Z) :
  e ≠ ck_epoch state →
  checkpoint_filename args e "checkpoint.pth.tar"
    ≠ checkpoint_filename args (ck_epoch state) "checkpoint.pth.tar"
  ∧ save_checkpoint args state is_best fs0
      !! checkpoint_filename args e "checkpoint.pth.tar"
    = fs0 !! checkpoint_filename args e "checkpoint.pth.tar".
Proof.
  intros He.
  assert (Hne : checkpoint_filename args e "checkpoint.pth.tar"
                ≠ checkpoint_filename args (ck_epoch state) "checkpoint.pth.tar").
  { intros H. by apply checkpoint_filename_inj in H as [H _]. }
  split; [done|]. apply save_checkpoint_other; [done|].
  apply checkpoint_filename_not_best.
Qed.

(** ** Saving and resuming *)

Lemma checkpoint_filename_nonempty (args : Args) (e : Z) (f : string) :
  String.eqb (checkpoint_filename args e f) "" = false.
Proof.
  rewrite checkpoint_filename_eq. by destruct (snapshot_pref args).
Qed.

Lemma best_name_nonempty (args : Args) : String.eqb (best_name args) "" = false.
Proof. rewrite best_name_eq. by destruct (snapshot_pref args). Qed.

Section SaveResume.

Context {net rng : Type}.
Variable load_state_dict : net → state_dict → result net.

(** X9.  Saving and resuming compose: when the resume path is the name
    [save_checkpoint] wrote to (the checkpoint of the epoch or, for a best
    checkpoint, the best-model file) and the model accepts the saved state
    dict, the resume step loads that state dict, continues at the saved epoch
    with the saved best precision, and reports the load. *)
Theorem save_then_resume (args args' : Args) (state : checkpoint) (is_best : bool)
    (m m' : net) (best : R) (w : world rng) (fs0 : filesystem) :
  fs w = save_checkpoint args state is_best fs0 →
  resume args' = checkpoint_filename args (ck_epoch state) "checkpoint.pth.tar"
    ∨ (is_best = true ∧ resume args' = best_name args) →
  load_state_dict m (ck_state_dict state) = ok m' →
  resume_from load_state_dict args' m best w
  = ({| fs := fs w;
        trace := trace w ++ [CheckpointLoaded (resume args') (ck_epoch state)];
        gen := gen w; zoo := zoo w |},
     ok (m', ck_epoch state, ck_best_prec1 state)).
Proof.
  intros Hfs Hr Hl. unfold resume_from.
  assert (Hlook : fs w !! resume args' = Some state
                  ∧ String.eqb (resume args') "" = false).
  { rewrite Hfs. destruct Hr as [-> | [-> ->]].
    - split; [apply save_checkpoint_written|apply checkpoint_filename_nonempty].
    - split; [by rewrite save_checkpoint_best|apply best_name_nonempty]. }
  destruct Hlook as [-> ->]. unfold ok in Hl. by rewrite Hl.
Qed.

End SaveResume.

Lemma checkpoints_of_epochs_distinct_witness :
  checkpoint_filename example_args 4 "checkpoint.pth.tar"
    ≠ checkpoint_filename example_args (ck_epoch example_checkpoint) "checkpoint.pth.tar"
  ∧ save_checkpoint example_args example_checkpoint true ∅
      !! checkpoint_filename example_args 4 "checkpoint.pth.tar"
    = (∅ : filesystem) !! checkpoint_filename example_args 4 "checkpoint.pth.tar".
Proof.
  apply (checkpoints_of_epochs_distinct example_args example_checkpoint true ∅ 4).
  discriminate.
Defined.

Lemma save_then_resume_witness :
  let args' :=
    make_args "ucf101" "ECO" "scratch" "RGB" "nll" "run_rgb_epoch_3_checkpoint.pth.tar"
      1 None in
  let w : world unit :=
    {| fs := save_checkpoint example_args example_checkpoint false ∅;
       trace := []; gen := tt; zoo := ∅ |} in
  resume_from toy_load_state_dict args' [0%R] 0%R w
  = ({| fs := fs w;
        trace := trace w ++ [CheckpointLoaded (resume args') (ck_epoch example_checkpoint)];
        gen := gen w; zoo := zoo w |},
     ok ([0%R], ck_epoch example_checkpoint, ck_best_prec1 example_checkpoint)).
Proof.
  intros args' w.
  apply (save_then_resume toy_load_state_dict example_args args' example_checkpoint
           false [0%R] [0%R] 0%R w ∅).
  - reflexivity.
  - left. reflexivity.
  - reflexivity.
Defined.

(** ** What a run writes *)

Lemma remember_best_frame (args : Args) (epoch : Z) (sd : state_dict)
    (prec1 best : R) (fs0 : filesystem) (p : string) :
  ¬ run_file args p →
  (remember_best args epoch sd prec1 best fs0).2 !! p = fs0 !! p.
Proof.
  intros Hp. unfold remember_best. cbn [snd].
  apply save_checkpoint_other; intros ->; apply Hp; [right|left]; eauto.
Qed.

Section RunFacts.

Context {clip net buffers rng : Type}.
Variable forward : bool → net → list clip → list (list R).
Variable criterion : list (list R) → list nat → R.
Variable backward : net → list (clip * nat) → list R.
Variable step : list Optim.param_group → buffers → net → list R → buffers * net.
Variable topk : nat → list R → result (list nat).
Variable xavier_uniform_ : rng → tensor → result (rng * tensor).
Variable TSN : Args → Z → result net.
Variable state_dict_of : net → state_dict.
Variable load_state_dict : net → state_dict → result net.
Variable get_optim_policies : net → list Optim.param_group.
Variable TSNDataSet : string → nat → string → list (clip * nat).
Variable shuffle : rng → list (clip * nat) → rng * list (clip * nat).
Variable files : Pretrained.
Variable SGD : list Optim.param_group → R → R → R → bool → result buffers.

Abbreviation main' :=
  (main forward criterion backward step topk xavier_uniform_ TSN state_dict_of
     load_state_dict get_optim_policies TSNDataSet shuffle files SGD).
Abbreviation set_up' :=
  (set_up (rng := rng) xavier_uniform_ TSN state_dict_of load_state_dict
     get_optim_policies TSNDataSet files).
Abbreviation run' :=
  (run forward criterion backward step topk state_dict_of shuffle SGD).
Abbreviation epoch_loop' :=
  (epoch_loop forward criterion backward step topk state_dict_of shuffle).
Abbreviation train_epoch' :=
  (train_epoch forward criterion backward step topk shuffle).
Abbreviation evaluate_epoch' :=
  (evaluate_epoch (buffers := buffers) forward criterion topk state_dict_of).
Abbreviation run_validate' := (run_validate (rng := rng) forward criterion topk).

Lemma train_epoch_fs (args : Args) (train_set : list (clip * nat))
    (l : learner net buffers) (epoch : Z) (w w' : world rng)
    (r : result (learner net buffers)) :
  train_epoch' args train_set l epoch w = (w', r) → fs w' = fs w ∧ zoo w' = zoo w.
Proof.
  unfold train_epoch. destruct (shuffle _ _) as [g' samples].
  destruct (train _ _ _ _ _ _ _ _ _) as [e|st]; intros H; by injection H as <- _.
Qed.

(** An evaluated epoch either leaves the files alone and keeps the best
    precision, or it saved a checkpoint through [remember_best]. *)
Lemma evaluate_epoch_cases (args : Args) (val_set : list (clip * nat))
    (l : learner net buffers) (epoch : Z) (best : R) (w w' : world rng)
    (r : result R) :
  evaluate_epoch' args val_set l epoch best w = (w', r) →
  (fs w' = fs w ∧ ∀ b, r = ok b → b = best)
  ∨ ∃ prec1,
      fs w' = (remember_best args epoch (state_dict_of (model l)) prec1 best (fs w)).2
      ∧ r = ok (remember_best args epoch (state_dict_of (model l)) prec1 best (fs w)).1.
Proof.
  unfold evaluate_epoch, pbind, lift.
  destruct (rbind _ _) as [e|due].
  { intros H. injection H as <- <-. left. split; [done|]. intros b Hb. done. }
  destruct due.
  - destruct (run_validate' args val_set (model l) w) as [w1 [e|prec1]] eqn:E;
      apply run_validate_fs in E as [Hfs _].
    + intros H. injection H as <- <-. left. split; [done|]. intros b Hb. done.
    + intros H. injection H as <- <-. right. exists prec1. cbn [fs].
      by rewrite Hfs.
  - intros H. injection H as <- <-. left. split; [done|]. intros b Hb.
    by injection Hb.
Qed.

Lemma evaluate_epoch_zoo (args : Args) (val_set : list (clip * nat))
    (l : learner net buffers) (epoch : Z) (best : R) (w w' : world rng)
    (r : result R) :
  evaluate_epoch' args val_set l epoch best w = (w', r) → zoo w' = zoo w.
Proof.
  unfold evaluate_epoch, pbind, lift.
  destruct (rbind _ _) as [e|due].
  { intros H. by injection H as <- _. }
  destruct due.
  - destruct (run_validate' args val_set (model l) w) as [w1 [e|prec1]] eqn:E;
      apply run_validate_fs in E as (_ & _ & Hz);
      intros H; injection H as <- _; done.
  - intros H. by injection H as <- _.
Qed.

Lemma epoch_loop_frame (args : Args) (train_set val_set : list (clip * nat))
    (p : string) :
  ¬ run_file args p →
  ∀ (count : nat) (epoch : Z) (l : learner net buffers) (best : R)
    (w w' : world rng) (r : result (outcome net buffers)),
    epoch_loop' args train_set val_set count epoch l best w = (w', r) →
    fs w' !! p = fs w !! p.
Proof.
  intros Hp. induction count as [|count IH]; intros epoch l best w w' r.
  - intros H. by injection H as <- _.
  - cbn [epoch_loop]. unfold pbind at 1.
    destruct (train_epoch' _ _ _ _ _) as [w1 [e|l1]] eqn:E1;
      apply train_epoch_fs in E1 as [E1 _].
    { intros H. injection H as <- _. by rewrite E1. }
    unfold pbind at 1.
    destruct (evaluate_epoch' _ _ _ _ _ _) as [w2 r2] eqn:E2.
    assert (Hw2 : fs w2 !! p = fs w !! p).
    { apply evaluate_epoch_cases in E2 as [[-> _] | (prec1 & -> & _)].
      - by rewrite E1.
      - rewrite remember_best_frame by done. by rewrite E1. }
    destruct r2 as [e|best'].
    { intros H. injection H as <- _. done. }
    intros H. apply IH in H. by rewrite H.
Qed.

Lemma epoch_loop_zoo (args : Args) (train_set val_set : list (clip * nat)) :
  ∀ (count : nat) (epoch : Z) (l : learner net buffers) (best : R)
    (w w' : world rng) (r : result (outcome net buffers)),
    epoch_loop' args train_set val_set count epoch l best w = (w', r) →
    zoo w' = zoo w.
Proof.
  induction count as [|count IH]; intros epoch l best w w' r.
  - intros H. by injection H as <- _.
  - cbn [epoch_loop]. unfold pbind at 1.
    destruct (train_epoch' _ _ _ _ _) as [w1 [e|l1]] eqn:E1;
      apply train_epoch_fs in E1 as [_ E1].
    { intros H. by injection H as <- _. }
    unfold pbind at 1.
    destruct (evaluate_epoch' _ _ _ _ _ _) as [w2 [e|best']] eqn:E2;
      apply evaluate_epoch_zoo in E2.
    { intros H. injection H as <- _. congruence. }
    intros H. apply IH in H. congruence.
Qed.

Lemma set_up_fs (args : Args) (w w' : world rng) (r : result (setup net clip)) :
  set_up' args w = (w', r) → fs w' = fs w.
Proof. intros H. by apply set_up_trace in H as [H _]. Qed.

Lemma initialise_zoo (args : Args) (m : net) (w w' : world rng) (r : result net) :
  initialise xavier_uniform_ state_dict_of load_state_dict files args m w = (w', r) →
  zoo w' = (resolve files args (state_dict_of m) (zoo w)).1.
Proof.
  unfold initialise. rewrite initial_state_value.
  destruct (rbind _ _) as [e|[g' nsd]].
  { intros H. by injection H as <- _. }
  destruct (load_state_dict m nsd) as [e|m']; intros H; by injection H as <- _.
Qed.

Lemma resume_from_zoo (args : Args) (m : net) (best : R) (w w' : world rng)
    (r : result (net * Z * R)) :
  resume_from load_state_dict args m best w = (w', r) → zoo w' = zoo w.
Proof.
  unfold resume_from. destruct (String.eqb _ _).
  { intros H. by injection H as <- _. }
  destruct (fs w !! resume args) as [ck|].
  - destruct (load_state_dict _ _) as [e|m']; intros H; by injection H as <- _.
  - intros H. by injection H as <- _.
Qed.

Lemma build_loaders_zoo (args : Args) (fmt : option string) (w w' : world rng)
    (r : result (list (clip * nat) * list (clip * nat))) :
  build_loaders TSNDataSet args fmt w = (w', r) → zoo w' = zoo w.
Proof.
  unfold build_loaders, pbind, lift, emit.
  destruct (dataset_arguments _ _ _) as [e|a].
  { intros H. by injection H as <- _. }
  destruct (check_batch_size args) as [e|[]]; intros H; by injection H as <- _.
Qed.

(** The set-up changes the cache by at most the download of the 2D
    weights. *)
Lemma set_up_zoo (args : Args) (w w' : world rng) (r : result (setup net clip)) :
  set_up' args w = (w', r) → cache_step files args (zoo w) (zoo w').
Proof.
  unfold set_up, pbind, lift.
  destruct (dataset_config args) as [e|cfg].
  { intros H. injection H as <- _. by left. }
  destruct (TSN args cfg.1) as [e|m0].
  { intros H. injection H as <- _. by left. }
  cbn [emit].
  destruct (initialise _ _ _ _ _ _ _) as [w1 r1] eqn:E1.
  apply initialise_zoo in E1. cbn [zoo] in E1.
  pose proof (resolve_cache files args (state_dict_of m0) (zoo w)) as Hc.
  rewrite <- E1 in Hc.
  destruct r1 as [e|m1].
  { intros H. by injection H as <- _. }
  destruct (resume_from _ _ _ _ _) as [w2 r2] eqn:E2.
  apply resume_from_zoo in E2.
  destruct r2 as [e|r2].
  { intros H. injection H as <- _. by rewrite E2. }
  destruct (build_loaders _ _ _ _) as [w3 r3] eqn:E3.
  apply build_loaders_zoo in E3.
  destruct r3 as [e|sets]; intros H; injection H as <- _; by rewrite E3, E2.
Qed.

Lemma set_up_policies (args : Args) (w w' : world rng) (su : setup net clip) :
  set_up' args w = (w', ok su) → ∃ m0, su_policies su = get_optim_policies m0.
Proof.
  unfold set_up, pbind, lift.
  destruct (dataset_config args) as [e|cfg]; [done|].
  destruct (TSN args cfg.1) as [e|m0]; [done|].
  cbn [emit].
  destruct (initialise _ _ _ _ _ _ _) as [w1 [e|m1]]; [done|].
  destruct (resume_from _ _ _ _ _) as [w2 [e|r2]]; [done|].
  destruct (build_loaders _ _ _ _) as [w3 [e|sets]]; [done|].
  intros H. injection H as _ <-. by exists m0.
Qed.

(** From the choice of the loss on, a run either stops before it has an
    optimizer, leaving the world as it is, or goes on with the optimizer the
    constructor returned. *)
Lemma run_cases (args : Args) (su : setup net clip) (w w' : world rng)
    (r : result (outcome net buffers)) :
  run' args su w = (w', r) →
  (w' = w ∧ is_error r
   ∧ (loss_type args ≠ "nll"
      ∨ is_error (SGD (su_policies su) (lr args) (momentum args) (weight_decay args)
                    (nesterov args))))
  ∨ ∃ optimizer,
      SGD (su_policies su) (lr args) (momentum args) (weight_decay args)
        (nesterov args) = ok optimizer
      ∧ loss_type args = "nll"
      ∧ (if evaluate args then
           (_ <~ run_validate' args (su_val su) (su_model su) ;;
            lift (ok {| final := {| model := su_model su; grad := None;
                                    param_groups := su_policies su;
                                    buf := optimizer; n_steps := 0 |};
                        best_prec1 := su_best_prec1 su |}))
         else
           epoch_loop' args (su_train su) (su_val su)
             (Z.to_nat (epochs args - su_start_epoch su)) (su_start_epoch su)
             {| model := su_model su; grad := None; param_groups := su_policies su;
                buf := optimizer; n_steps := 0 |}
             (su_best_prec1 su))
          (emit [OptimizerBuilt] w).1 = (w', r).
Proof.
  unfold run, pbind at 1, lift at 1.
  destruct (String.eqb _ _) eqn:El.
  2:{ intros H. injection H as <- <-. left. split; [done|]. split; [by eexists|].
      left. intros E. by rewrite E in El. }
  apply String.eqb_eq in El.
  unfold pbind at 1, lift at 1.
  destruct (SGD _ _ _ _ _) as [e|optimizer].
  { intros H. injection H as <- <-. left. split; [done|]. split; [by eexists|].
    right. by eexists. }
  unfold pbind at 1. cbn [emit]. intros H. right. exists optimizer.
  split; [done|]. split; [done|]. exact H.
Qed.

Lemma run_frame (args : Args) (su : setup net clip) (p : string)
    (w w' : world rng) (r : result (outcome net buffers)) :
  ¬ run_file args p → run' args su w = (w', r) → fs w' !! p = fs w !! p.
Proof.
  intros Hp H. apply run_cases in H as [[-> _] | (opt & _ & _ & H)]; [done|].
  destruct (evaluate args).
  - revert H. unfold pbind, lift.
    destruct (run_validate' _ _ _ _) as [w1 [e|v]] eqn:E;
      apply run_validate_fs in E as [Hfs _]; cbn [fs emit fst] in Hfs;
      intros H; injection H as <- _; by rewrite Hfs.
  - apply (epoch_loop_frame _ _ _ _ Hp) in H. by rewrite H.
Qed.

Lemma run_zoo (args : Args) (su : setup net clip) (w w' : world rng)
    (r : result (outcome net buffers)) :
  run' args su w = (w', r) → zoo w' = zoo w.
Proof.
  intros H. apply run_cases in H as [[-> _] | (opt & _ & _ & H)]; [done|].
  destruct (evaluate args).
  - revert H. unfold pbind, lift.
    destruct (run_validate' _ _ _ _) as [w1 [e|v]] eqn:E;
      apply run_validate_fs in E as (_ & _ & Hz); cbn [zoo emit fst] in Hz;
      intros H; injection H as <- _; by rewrite Hz.
  - apply epoch_loop_zoo in H. by rewrite H.
Qed.

(** X10.  However [main] ends, a checkpoint file whose name is neither the
    best-model name nor the checkpoint name of some epoch is left as it was,
    and the download cache changes by at most one file: the 2D weights,
    which are stored there for [ECO] with the [2D] or [both] source when the
    cache did not have them and the download succeeded. *)
Theorem main_writes_only_checkpoints (args : Args) (p : string)
    (w w' : world rng) (r : result (outcome net buffers)) :
  p ≠ best_name args →
  (∀ e, p ≠ checkpoint_filename args e "checkpoint.pth.tar") →
  main' args w = (w', r) →
  fs w' !! p = fs w !! p
  ∧ cache_step files args (zoo w) (zoo w').
Proof.
  intros Hb Hc.
  assert (Hp : ¬ run_file args p) by (intros [E | [e E]]; [done|by apply (Hc e)]).
  unfold main, pbind.
  destruct (set_up' args w) as [w1 [e|su]] eqn:E;
    pose proof (set_up_zoo _ _ _ _ E) as Hz; apply set_up_fs in E.
  - intros H. injection H as <- _. by rewrite E.
  - intros H. pose proof (run_zoo _ _ _ _ _ H) as Hz'.
    apply (run_frame _ _ _ _ _ _ Hp) in H. by rewrite H, E, Hz'.
Qed.

Lemma run_no_epoch_fs (args : Args) (su : setup net clip)
    (w w' : world rng) (r : result (outcome net buffers)) :
  evaluate args = true ∨ (epochs args ≤ su_start_epoch su)%Z →
  run' args su w = (w', r) → fs w' = fs w.
Proof.
  intros Hc H. apply run_cases in H as [[-> _] | (opt & _ & _ & H)]; [done|].
  destruct (evaluate args) eqn:Ev.
  - revert H. unfold pbind, lift.
    destruct (run_validate' _ _ _ _) as [w1 [e|v]] eqn:E;
      apply run_validate_fs in E as [Hfs _]; cbn [fs emit fst] in Hfs;
      intros H; by injection H as <- _.
  - destruct Hc as [|Hc]; [done|]. revert H.
    replace (Z.to_nat _) with 0 by lia. intros H. by injection H as <- _.
Qed.

(** X11.  With [--evaluate] set, [main] writes no checkpoint file; the only
    file it may write is the download of the 2D weights into the cache of
    [model_zoo], which happens during the initialisation of the model.  When
    it returns, the optimizer is as its constructor returned it for the
    parameter groups of the model: it has made no step and holds no
    gradient. *)
Theorem evaluate_only_saves_nothing (args : Args) (w w' : world rng)
    (r : result (outcome net buffers)) :
  evaluate args = true →
  main' args w = (w', r) →
  fs w' = fs w
  ∧ cache_step files args (zoo w) (zoo w')
  ∧ ∀ o, r = ok o →
      n_steps (final o) = 0 ∧ grad (final o) = None
      ∧ ∃ m0,
          param_groups (final o) = get_optim_policies m0
          ∧ SGD (get_optim_policies m0) (lr args) (momentum args) (weight_decay args)
              (nesterov args)
            = ok (buf (final o)).
Proof.
  intros Hev. unfold main, pbind.
  destruct (set_up' args w) as [w1 [e|su]] eqn:E;
    pose proof (set_up_zoo _ _ _ _ E) as Hz;
    [|destruct (set_up_policies _ _ _ _ E) as [m0 Hm0]]; apply set_up_fs in E.
  { intros H. injection H as <- <-. split; [done|]. split; [done|].
    intros o Ho. done. }
  intros H. split.
  { rewrite <- E. eapply run_no_epoch_fs; [by left|done]. }
  split. { by rewrite (run_zoo _ _ _ _ _ H). }
  apply run_cases in H as [[_ [[e ->] _]] | (opt & Hopt & _ & H)].
  { intros o Ho. done. }
  rewrite Hev in H. revert H. unfold pbind, lift.
  destruct (run_validate' _ _ _ _) as [w2 [e|v]].
  - intros H. injection H as _ <-. intros o Ho. done.
  - intros H. injection H as _ <-. intros o Ho. injection Ho as <-.
    cbn [final n_steps grad buf param_groups]. split; [done|]. split; [done|].
    exists m0. split; [done|]. by rewrite <- Hm0.
Qed.

Lemma best_file_state_trans (args : Args) (b0 b1 b2 : R) (f0 f1 f2 : filesystem) :
  best_file_state args b0 b1 f0 f1 → best_file_state args b1 b2 f1 f2 →
  best_file_state args b0 b2 f0 f2.
Proof.
  intros [[-> E1] | [G1 (ck1 & F1 & B1 & A1)]] [[-> E2] | [G2 (ck2 & F2 & B2 & A2)]].
  - left. split; [done|]. by rewrite E2.
  - right. split; [done|]. by exists ck2.
  - right. split; [done|]. exists ck1. by rewrite E2.
  - right. split; [lra|]. by exists ck2.
Qed.

Lemma remember_best_state (args : Args) (epoch : Z) (sd : state_dict)
    (prec1 best : R) (fs0 : filesystem) :
  best_file_state args best (remember_best args epoch sd prec1 best fs0).1
    fs0 (remember_best args epoch sd prec1 best fs0).2.
Proof.
  unfold best_file_state.
  destruct (decide (prec1 > best)%R) as [H|H].
  - destruct (remember_best_exceeds args epoch sd prec1 best fs0 H) as [-> ->].
    right. split; [done|]. by eexists.
  - destruct (remember_best_not_exceeds args epoch sd prec1 best fs0 H) as [-> ->].
    by left.
Qed.

Lemma epoch_loop_best (args : Args) (train_set val_set : list (clip * nat)) :
  ∀ (count : nat) (epoch : Z) (l : learner net buffers) (best : R)
    (w w' : world rng) (o : outcome net buffers),
    epoch_loop' args train_set val_set count epoch l best w = (w', ok o) →
    best_file_state args best (best_prec1 o) (fs w) (fs w').
Proof.
  induction count as [|count IH]; intros epoch l best w w' o.
  - intros H. injection H as <- <-. by left.
  - cbn [epoch_loop]. unfold pbind at 1.
    destruct (train_epoch' _ _ _ _ _) as [w1 [e|l1]] eqn:E1;
      apply train_epoch_fs in E1 as [E1 _]; [done|].
    unfold pbind at 1.
    destruct (evaluate_epoch' _ _ _ _ _ _) as [w2 [e|best']] eqn:E2; [done|].
    intros H. apply IH in H.
    refine (best_file_state_trans _ _ _ _ _ _ _ _ H).
    rewrite <- E1.
    apply evaluate_epoch_cases in E2 as [[-> Hb] | (prec1 & -> & Hb)].
    + rewrite (Hb _ eq_refl). by left.
    + injection Hb as ->. apply remember_best_state.
Qed.

(** X12.  Over a whole run the best precision never decreases, and it moves
    together with the best-model file: either both are as they were when the
    epochs started, or the precision is strictly higher and the file holds a
    checkpoint of this architecture that records exactly that precision. *)
Theorem best_file_follows_best_precision (args : Args) (su : setup net clip)
    (w w' : world rng) (o : outcome net buffers) :
  run' args su w = (w', ok o) →
  (best_prec1 o = su_best_prec1 su
   ∧ fs w' !! best_name args = fs w !! best_name args)
  ∨ ((best_prec1 o > su_best_prec1 su)%R
     ∧ ∃ ck, fs w' !! best_name args = Some ck
           ∧ ck_best_prec1 ck = best_prec1 o ∧ ck_arch ck = arch args).
Proof.
  intros H. apply run_cases in H as [[_ [[e He] _]] | (opt & _ & _ & H)]; [done|].
  destruct (evaluate args).
  - revert H. unfold pbind, lift.
    destruct (run_validate' _ _ _ _) as [w1 [e|v]] eqn:E; [done|].
    apply run_validate_fs in E as [Hfs _]; cbn [fs emit fst] in Hfs.
    intros H. injection H as <- <-. left. by rewrite Hfs.
  - apply epoch_loop_best in H. exact H.
Qed.

End RunFacts.

Lemma main_writes_only_checkpoints_witness :
  let args := make_args "ucf101" "ECO" "2D" "RGB" "nll" "" 1 None in
  let res := toy_main args empty_world in
  fs res.1 !! "notes.txt" = fs empty_world !! "notes.txt"
  ∧ cache_step files_example args (zoo empty_world) (zoo res.1).
Proof.
  intros args res.
  apply (main_writes_only_checkpoints toy_forward toy_criterion unit_gradient
           plain_sgd first_indices no_xavier toy_TSN toy_state_dict_of
           toy_load_state_dict toy_policies toy_dataset toy_shuffle files_example toy_SGD
           args "notes.txt" empty_world res.1 res.2).
  - discriminate.
  - intros e. discriminate.
  - apply surjective_pairing.
Defined.

Lemma evaluate_only_saves_nothing_witness :
  let res := toy_main evaluate_args empty_world in
  fs res.1 = fs empty_world
  ∧ cache_step files_example evaluate_args (zoo empty_world) (zoo res.1)
  ∧ ∀ o, res.2 = ok o →
      n_steps (final o) = 0 ∧ grad (final o) = None
      ∧ ∃ m0,
          param_groups (final o) = toy_policies m0
          ∧ toy_SGD (toy_policies m0) (lr evaluate_args) (momentum evaluate_args)
              (weight_decay evaluate_args) (nesterov evaluate_args)
            = ok (buf (final o)).
Proof.
  intros res.
  apply (evaluate_only_saves_nothing toy_forward toy_criterion unit_gradient
           plain_sgd first_indices no_xavier toy_TSN toy_state_dict_of
           toy_load_state_dict toy_policies toy_dataset toy_shuffle files_example toy_SGD
           evaluate_args empty_world res.1 res.2).
  - reflexivity.
  - apply surjective_pairing.
Defined.

Lemma best_file_follows_best_precision_witness :
  ∃ w' o,
    toy_run example_args last_epoch_setup empty_world = (w', ok o)
    ∧ ((best_prec1 o = su_best_prec1 last_epoch_setup
        ∧ fs w' !! best_name example_args = fs empty_world !! best_name example_args)
       ∨ ((best_prec1 o > su_best_prec1 last_epoch_setup)%R
          ∧ ∃ ck, fs w' !! best_name example_args = Some ck
                ∧ ck_best_prec1 ck = best_prec1 o ∧ ck_arch ck = arch example_args)).
Proof.
  eexists _, _. split.
  { cbv [toy_run run pbind lift emit fst snd]. simpl. reflexivity. }
  apply (best_file_follows_best_precision toy_forward toy_criterion unit_gradient
           plain_sgd first_indices toy_state_dict_of toy_shuffle toy_SGD
           example_args last_epoch_setup empty_world).
  reflexivity.
Defined.

(** ** The names of the initial state *)

Lemma fits_is_Some (model_dict : state_dict) (k : string) (v : tensor) :
  fits model_dict k v = true → is_Some (model_dict !! k).
Proof. unfold fits. destruct (model_dict !! k); [eauto|done]. Qed.

Lemma transplant_is_Some (model_dict src base : state_dict) (k : string) :
  is_Some (transplant model_dict src base !! k) →
  is_Some (model_dict !! k) ∨ is_Some (base !! k).
Proof.
  rewrite lookup_transplant. destruct (src !! k) as [v|]; [|by right].
  destruct (fits model_dict k v) eqn:E; [|by right].
  left. by eapply fits_is_Some.
Qed.

Lemma channel_repair_inserts (src nsd nsd' : state_dict) :
  channel_repair src nsd = ok nsd' → is_Some (nsd' !! res3a_2_weight).
Proof.
  unfold channel_repair. intros H.
  destruct (getitem src res3a_2_weight) as [|w]; cbn [rbind] in H; [done|].
  destruct (chunk w 4 1) as [|cks]; cbn [rbind] in H; [done|].
  destruct (index cks 0) as [|c0]; cbn [rbind] in H; [done|].
  destruct (index cks 1) as [|c1]; cbn [rbind] in H; [done|].
  destruct (index cks 2) as [|c2]; cbn [rbind] in H; [done|].
  destruct (cat [c0; c1; c2] 1) as [|r]; cbn [rbind] in H; [done|].
  injection H as <-. rewrite lookup_insert_eq. eauto.
Qed.

Lemma remap_2d_is_Some (model_dict src : state_dict) (k : string) :
  is_Some (remap_2d model_dict src !! k) → is_Some (model_dict !! k).
Proof. intros [v Hv]. by apply lookup_remap_2d in Hv as [H _]. Qed.

Lemma keep_fitting_is_Some (model_dict src : state_dict) (k : string) :
  is_Some (keep_fitting model_dict src !! k) → is_Some (model_dict !! k).
Proof.
  intros [v Hv]. apply lookup_keep_fitting in Hv as [_ H]. by eapply fits_is_Some.
Qed.

Lemma repaired_names (model_dict src base nsd : state_dict) (k : string) :
  (∀ k, is_Some (base !! k) → is_Some (model_dict !! k)) →
  channel_repair src (transplant model_dict src base) = ok nsd →
  is_Some (nsd !! k) ↔ is_Some (transplant model_dict src base !! k) ∨ k = res3a_2_weight.
Proof.
  intros Hb H. destruct (decide (k = res3a_2_weight)) as [->|Hk].
  - split; [by right|]. intros _. by eapply channel_repair_inserts.
  - rewrite (channel_repair_other _ _ _ _ H Hk). split; [by left|].
    by intros [?|?].
Qed.

Lemma resolve_names (files : Pretrained) (args : Args) (model_dict nsd : state_dict)
    (z : cache) (k : string) :
  (resolve files args model_dict z).2 = ok nsd →
  (is_Some (nsd !! k) → is_Some (model_dict !! k) ∨ k = res3a_2_weight)
  ∧ (repairs args → is_Some (nsd !! res3a_2_weight))
  ∧ (is_Some (nsd !! k) → ¬ is_Some (model_dict !! k) → repairs args).
Proof.
  unfold resolve, repairs.
  destruct (String.eqb (arch args) "ECO") eqn:Ea.
  - apply String.eqb_eq in Ea. unfold init_ECO.
    destruct (String.eqb _ "scratch") eqn:E1.
    { apply String.eqb_eq in E1. unfold lift. cbn [snd]. intros H. injection H as <-.
      rewrite lookup_empty. split; [by intros [? ?]|].
      split; [|by intros [? ?]]. intros [_ [E|E]]; congruence. }
    destruct (String.eqb _ "2D") eqn:E2.
    { apply String.eqb_eq in E2. rewrite pbind_lift. cbn [snd].
      destruct (load_url _ _ _).2 as [|d]; cbn [rbind]; [done|].
      intros H. injection H as <-.
      split; [intros H; left; by eapply remap_2d_is_Some|].
      split; [intros [_ [E|E]]; congruence|].
      intros H Hn. destruct Hn. by eapply remap_2d_is_Some. }
    destruct (String.eqb _ "3D") eqn:E3.
    { apply String.eqb_eq in E3. unfold lift. cbn [snd].
      destruct (load _ _) as [|d]; cbn [rbind]; [done|]. intros H.
      split; [|split; [intros _; by eapply channel_repair_inserts|by auto]].
      intros Hk. apply (repaired_names model_dict d ∅ nsd k) in Hk; [|by intros ? [? ?]|done].
      destruct Hk as [Hk|Hk]; [|by right].
      apply transplant_is_Some in Hk as [Hk|[? Hk]]; [by left|done]. }
    destruct (String.eqb _ "finetune") eqn:E4.
    { apply String.eqb_eq in E4. unfold lift. cbn [snd].
      destruct (load _ _) as [|d]; cbn [rbind]; [done|]. intros H. injection H as <-.
      split; [intros H; left; by eapply keep_fitting_is_Some|].
      split; [intros [_ [E|E]]; congruence|].
      intros H Hn. destruct Hn. by eapply keep_fitting_is_Some. }
    destruct (String.eqb _ "both") eqn:E5; [|done].
    apply String.eqb_eq in E5.
    rewrite (pbind_lift (load_url weight_url_2d (weights_2d files))). cbn [snd].
    destruct (load_url _ _ _).2 as [|d2]; cbn [rbind]; [done|].
    destruct (load _ _) as [|d3]; cbn [rbind]; [done|]. intros H.
    split; [|split; [intros _; by eapply channel_repair_inserts|by auto]].
    intros Hk.
    apply (repaired_names model_dict d3 (remap_2d model_dict d2) nsd k) in Hk;
      [|intros ?; apply remap_2d_is_Some|done].
    destruct Hk as [Hk|Hk]; [|by right].
    apply transplant_is_Some in Hk as [Hk|Hk]; [by left|].
    left. by eapply remap_2d_is_Some.
  - destruct (String.eqb (arch args) "C3DRes18") eqn:Ec; unfold lift; cbn [snd];
      [|done].
    apply String.eqb_eq in Ec. unfold init_C3DRes18.
    destruct (String.eqb _ "scratch") eqn:E1.
    { intros H. injection H as <-.
      rewrite lookup_empty. split; [by intros [? ?]|].
      split; [|by intros [? ?]]. intros [E _]; congruence. }
    destruct (String.eqb _ "3D") eqn:E3; [|done].
    destruct (load _ _) as [|d]; cbn [rbind]; [done|]. intros H. injection H as <-.
    split; [intros H; left; by eapply keep_fitting_is_Some|].
    split; [intros [E _]; congruence|].
    intros H Hn. destruct Hn. by eapply keep_fitting_is_Some.
Qed.

Section Names.

Context {rng : Type}.
Variable xavier_uniform_ : rng → tensor → result (rng * tensor).

Lemma gap_fill_names (g g' : rng) (model_dict nsd st : state_dict) (k : string) :
  gap_fill xavier_uniform_ g model_dict nsd = ok (g', st) →
  is_Some (st !! k) ↔ is_Some (nsd !! k) ∨ is_Some (model_dict !! k).
Proof.
  intros Hg. destruct (nsd !! k) as [v|] eqn:Hn.
  - rewrite (gap_fill_resolved xavier_uniform_ g g' model_dict nsd st k v Hg Hn).
    split; [left|]; eauto.
  - destruct (model_dict !! k) as [t|] eqn:Hm.
    + destruct (gap_fill_unresolved xavier_uniform_ g g' model_dict nsd st k t Hg Hn Hm)
        as (g0 & g1 & v & _ & ->).
      split; [right|]; eauto.
    + rewrite (gap_fill_elsewhere xavier_uniform_ g g' model_dict nsd st k Hg Hn Hm).
      split; [by intros [? ?]|]. by intros [[? ?]|[? ?]].
Qed.

(** X13.  The state handed to [load_state_dict] has exactly the parameter
    names of the target, plus the repaired convolution weight when the
    architecture is [ECO] and the source is [3D] or [both]: no other name of
    a pretrained checkpoint gets through. *)
Theorem initial_state_names (files : Pretrained) (args : Args) (g g' : rng)
    (z : cache) (model_dict st : state_dict) (k : string) :
  (initial_state xavier_uniform_ files args g model_dict z).2 = ok (g', st) →
  is_Some (st !! k)
  ↔ is_Some (model_dict !! k)
    ∨ (k = res3a_2_weight ∧ arch args = "ECO"
       ∧ (pretrained_parts args = "3D" ∨ pretrained_parts args = "both")).
Proof.
  rewrite initial_state_value. cbn [snd].
  destruct (resolve files args model_dict z).2 as [|nsd] eqn:Hres; cbn [rbind];
    [done|].
  intros H. rewrite (gap_fill_names _ _ _ _ _ k H).
  destruct (resolve_names files args model_dict nsd z k Hres) as (H1 & H2 & H3).
  split.
  - intros [Hk|Hk]; [|by left].
    destruct (model_dict !! k) as [t|] eqn:Hm; [left; eauto|].
    right. destruct (H1 Hk) as [[? ?]| ->]; [done|].
    split; [done|]. apply H3; [done|]. by intros [? ?].
  - intros [Hk|(-> & Hr)]; [by right|]. left. by apply H2.
Qed.

End Names.

(** ** Failures of the channel repair *)

(** X14.  For [ECO] with the [3D] source (and with [both], once the 2D
    checkpoint is loaded, from the download or from the cache) resolution
    depends on the special convolution weight of the 3D checkpoint: without
    it resolution raises [KeyError] for its name, with fewer than two axes
    [torch.chunk] raises, and with an input-channel width of 1 or 2 there is
    no third chunk and the indexing raises [IndexError]. *)
Theorem special_weight_required (files : Pretrained) (args : Args)
    (model_dict src : state_dict) (z : cache) :
  arch args = "ECO" →
  pretrained_parts args = "3D"
    ∨ (pretrained_parts args = "both"
       ∧ (is_Some (weights_2d files) ∨ is_Some (z !! url_filename weight_url_2d))) →
  weights_3d files = Some src →
  (src !! res3a_2_weight = None →
     (resolve files args model_dict z).2 = raise (KeyError res3a_2_weight))
  ∧ (∀ w, src !! res3a_2_weight = Some w → length (shape w) ≤ 1 →
       is_error (resolve files args model_dict z).2)
  ∧ (∀ w n, src !! res3a_2_weight = Some w → shape w !! 1 = Some n →
       n = 1 ∨ n = 2 →
       (resolve files args model_dict z).2 = raise IndexError).
Proof.
  intros Ha Hm Hs.
  destruct (resolve_repairs files args model_dict src z Ha) as (base & -> & _);
    [|done|].
  { destruct Hm as [E | [E Hd]]; [by left|]. right. split; [done|].
    by apply load_url_succeeds. }
  unfold channel_repair, getitem. split; [|split].
  - intros ->. done.
  - intros w -> Hl. cbn [rbind ok]. unfold chunk.
    rewrite (lookup_ge_None_2 (shape w) 1) by lia. by eexists.
  - intros w n -> Hn Hc. cbn [rbind ok]. unfold chunk. rewrite Hn.
    by destruct Hc as [-> | ->].
Qed.

(** ** Precedence in [both] mode *)

(** X15.  In [both] mode a target name served by the 2D checkpoint that
    [load_url] returns, and other than the repaired weight, gets the tensor
    of the 3D checkpoint when that checkpoint has the name with the target's
    shape, and the 2D tensor otherwise. *)
Theorem both_prefers_fitting_3d (files : Pretrained) (args : Args)
    (model_dict d2 d3 nsd : state_dict) (z : cache) (k0 : string) (v2 t : tensor) :
  arch args = "ECO" → pretrained_parts args = "both" →
  (load_url weight_url_2d (weights_2d files) z).2 = ok d2 →
  weights_3d files = Some d3 →
  (resolve files args model_dict z).2 = ok nsd →
  d2 !! k0 = Some v2 →
  model_dict !! String.append "module.base_model." k0 = Some t →
  String.append "module.base_model." k0 ≠ res3a_2_weight →
  nsd !! String.append "module.base_model." k0
  = Some match d3 !! String.append "module.base_model." k0 with
         | Some v3 => if bool_decide (shape v3 = shape t) then v3 else v2
         | None => v2
         end.
Proof.
  intros Ha Hp H2 H3 Hres Hk0 Ht Hne.
  destruct (resolve_repairs files args model_dict d3 z Ha) as (base & E & Hb);
    [right; split; [done|by exists d2]|done|].
  destruct Hb as [[Hp' _] | (_ & d & Hd & ->)]; [congruence|].
  rewrite H2 in Hd. injection Hd as <-. rewrite E in Hres.
  rewrite (channel_repair_other _ _ _ _ Hres Hne), lookup_transplant.
  assert (Hr : remap_2d model_dict d2 !! String.append "module.base_model." k0 = Some v2).
  { apply lookup_remap_2d. split; [by rewrite Ht|]. by exists k0. }
  destruct (d3 !! _) as [v3|]; [|done].
  unfold fits. rewrite Ht. by destruct (bool_decide _).
Qed.

Lemma initial_state_names_witness :
  let args := make_args "ucf101" "ECO" "2D" "RGB" "nll" "" 1 None in
  ∃ st,
    (initial_state no_xavier files_example args tt target_example ∅).2 = ok (tt, st)
    ∧ (is_Some (st !! "module.base_model.conv1.weight")
       ↔ is_Some (target_example !! "module.base_model.conv1.weight")
         ∨ ("module.base_model.conv1.weight" = res3a_2_weight ∧ arch args = "ECO"
            ∧ (pretrained_parts args = "3D" ∨ pretrained_parts args = "both"))).
Proof.
  intros args.
  pose (nsd := remap_2d target_example {["conv1.weight" := zeros [2; 3]]}).
  destruct (gap_fill_succeeds no_xavier tt target_example nsd) as [[[] st] Hg].
  { intros k t Hk Hnk. unfold target_example in Hk.
    apply lookup_singleton_Some in Hk as [<- <-].
    assert (Hn : nsd !! "module.base_model.conv1.weight" = Some (zeros [2; 3])).
    { apply lookup_remap_2d. split.
      - unfold target_example. rewrite lookup_singleton_eq. eauto.
      - exists "conv1.weight". split; [reflexivity|]. apply lookup_singleton_eq. }
    congruence. }
  assert (E : (initial_state no_xavier files_example args tt target_example ∅).2
              = ok (tt, st)).
  { rewrite initial_state_value. cbn [snd].
    change (resolve _ _ _ _).2 with (ok nsd : result state_dict). exact Hg. }
  exists st. split; [exact E|].
  exact (initial_state_names no_xavier files_example args tt tt ∅ target_example st
           "module.base_model.conv1.weight" E).
Defined.

Lemma special_weight_required_witness :
  let files := {| weights_2d := None; weights_3d := Some ∅; weights_eco := None |} in
  let args := make_args "ucf101" "ECO" "3D" "RGB" "nll" "" 1 None in
  ((∅ : state_dict) !! res3a_2_weight = None →
     (resolve files args target_example ∅).2 = raise (KeyError res3a_2_weight))
  ∧ (∀ w, (∅ : state_dict) !! res3a_2_weight = Some w → length (shape w) ≤ 1 →
       is_error (resolve files args target_example ∅).2)
  ∧ (∀ w n, (∅ : state_dict) !! res3a_2_weight = Some w → shape w !! 1 = Some n →
       n = 1 ∨ n = 2 →
       (resolve files args target_example ∅).2 = raise IndexError).
Proof.
  intros files args.
  apply (special_weight_required files args target_example ∅ ∅).
  - reflexivity.
  - left. reflexivity.
  - reflexivity.
Defined.

Lemma both_prefers_fitting_3d_witness :
  let args := make_args "ucf101" "ECO" "both" "RGB" "nll" "" 1 None in
  ∃ nsd,
    (resolve files_both_example args target_example ∅).2 = ok nsd
    ∧ nsd !! String.append "module.base_model." "conv1.weight"
      = Some match ({[res3a_2_weight := zeros [2; 8; 3; 3; 3]]} : state_dict)
                     !! String.append "module.base_model." "conv1.weight" with
             | Some v3 => if bool_decide (shape v3 = shape (zeros [3; 3])) then v3
                          else zeros [2; 3]
             | None => zeros [2; 3]
             end.
Proof.
  intros args.
  destruct (channel_repair_ok {[res3a_2_weight := zeros [2; 8; 3; 3; 3]]}
              (transplant target_example {[res3a_2_weight := zeros [2; 8; 3; 3; 3]]}
                 (remap_2d target_example {["conv1.weight" := zeros [2; 3]]}))
              (zeros [2; 8; 3; 3; 3]) 2 (lookup_singleton_eq _ _) eq_refl)
    as (r & Hr & _).
  eexists. split; [exact Hr|].
  apply (both_prefers_fitting_3d files_both_example args target_example
           {["conv1.weight" := zeros [2; 3]]}
           {[res3a_2_weight := zeros [2; 8; 3; 3; 3]]}
           _ ∅ "conv1.weight" (zeros [2; 3]) (zeros [3; 3])).
  - reflexivity.
  - reflexivity.
  - reflexivity.
  - reflexivity.
  - exact Hr.
  - apply lookup_singleton_eq.
  - apply lookup_singleton_eq.
  - discriminate.
Defined.

(** ** Frequencies of zero *)

Lemma divides_zero (i : Z) : divides 0 i = raise ZeroDivisionError.
Proof. done. Qed.

Section ZeroFrequencies.

Context {clip net buffers rng : Type}.
Variable forward : bool → net → list clip → list (list R).
Variable criterion : list (list R) → list nat → R.
Variable backward : net → list (clip * nat) → list R.
Variable step : list Optim.param_group → buffers → net → list R → buffers * net.
Variable topk : nat → list R → result (list nat).
Variable state_dict_of : net → state_dict.
Variable shuffle : rng → list (clip * nat) → rng * list (clip * nat).
Variable SGD : list Optim.param_group → R → R → R → bool → result buffers.

Lemma train_batch_zero (args : Args) (epoch i : Z) (b : list (clip * nat))
    (st : train_state (net := net) (buffers := buffers)) :
  iter_size args = 0%Z ∨ print_freq args = 0%Z →
  is_error (train_batch forward criterion backward step topk args epoch i b st).
Proof.
  intros Hz. unfold train_batch.
  destruct (measure _ _ _ _ _ _ _) as [e|mets']; cbn [rbind]; [by exists e|].
  destruct (divides (iter_size args) i) as [e|at_boundary] eqn:Ed; cbn [rbind];
    [by exists e|].
  destruct Hz as [Hz|Hz]; [by rewrite Hz in Ed|].
  destruct (if at_boundary then _ else _) as [[l1 g1] out1].
  destruct (clip_and_report _ _ _) as [g2 out2].
  rewrite Hz, divides_zero. by eexists.
Qed.

Lemma validate_batch_zero (args : Args) (m : net) (i : Z) (b : list (clip * nat))
    (st : meters * list event) :
  print_freq args = 0%Z →
  is_error (validate_batch forward criterion topk args m i b st).
Proof.
  intros Hz. unfold validate_batch.
  destruct (measure _ _ _ _ _ _ _) as [e|mets']; cbn [rbind]; [by exists e|].
  rewrite Hz, divides_zero. by eexists.
Qed.

(** X16.  On a loader of at least two batches, an [iter_size] or a
    [print_freq] of 0 makes [train] raise, and a [print_freq] of 0 makes
    [validate] raise. *)
Theorem zero_frequency_fails (args : Args) (loader : list (list (clip * nat)))
    (l : learner net buffers) (epoch : Z) (m : net) :
  2 ≤ length loader →
  iter_size args = 0%Z ∨ print_freq args = 0%Z →
  is_error (train forward criterion backward step topk args loader l epoch)
  ∧ (print_freq args = 0%Z →
       is_error (validate forward criterion topk args loader m)).
Proof.
  intros Hlen Hz. destruct loader as [|b rest]; [simpl in Hlen; lia|].
  assert (Hn : (0 =? Z.of_nat (length (b :: rest)) - 1)%Z = false).
  { apply Z.eqb_neq. simpl in *. lia. }
  split.
  - unfold train. cbn [train_loop]. rewrite Hn.
    destruct (train_batch_zero args epoch 0 b
                {| lrn := l; mets := fresh_meters; out := [] |} Hz) as [e ->].
    by exists e.
  - intros Hp. unfold validate. cbn [validate_loop]. rewrite Hn.
    destruct (validate_batch_zero args m 0 b (fresh_meters, []) Hp) as [e ->].
    by exists e.
Qed.

Lemma evaluate_epoch_zero (args : Args) (val_set : list (clip * nat))
    (l : learner net buffers) (epoch : Z) (best : R) (w : world rng) :
  eval_freq args = 0%Z →
  evaluate_epoch forward criterion topk state_dict_of args val_set l epoch best w
  = (w, raise ZeroDivisionError).
Proof. intros Hz. unfold evaluate_epoch, pbind, lift. by rewrite Hz. Qed.

(** X17.  With an [eval_freq] of 0 a training run with an epoch to make never
    returns normally and writes no checkpoint file.  When the loss type is
    unknown or the constructor of the optimizer raises, it stops there, with
    the world as it was.  Otherwise it fails only after the first epoch was
    started, and when that epoch trains without an error the run ends in
    [ZeroDivisionError]. *)
Theorem zero_eval_freq_fails_after_training (args : Args) (su : setup net clip)
    (w w' : world rng) (r : result (outcome net buffers)) :
  eval_freq args = 0%Z →
  evaluate args = false →
  (su_start_epoch su < epochs args)%Z →
  run forward criterion backward step topk state_dict_of shuffle SGD args su w = (w', r) →
  is_error r
  ∧ fs w' = fs w
  ∧ (loss_type args ≠ "nll"
       ∨ is_error (SGD (su_policies su) (lr args) (momentum args) (weight_decay args)
                     (nesterov args)) →
     w' = w)
  ∧ (∀ optimizer,
       loss_type args = "nll" →
       SGD (su_policies su) (lr args) (momentum args) (weight_decay args)
         (nesterov args) = ok optimizer →
       ∃ s, trace w' = trace w ++ OptimizerBuilt :: EpochStarted (su_start_epoch su) :: s
          ∧ ((∃ l1, train_epoch forward criterion backward step topk shuffle args
                      (su_train su)
                      {| model := su_model su; grad := None;
                         param_groups :=
                           adjust_learning_rate args (su_policies su) (su_start_epoch su);
                         buf := optimizer; n_steps := 0 |}
                      (su_start_epoch su)
                      (emit [OptimizerBuilt] w).1 = (w', ok l1))
             → r = raise ZeroDivisionError)).
Proof.
  intros Hz Hev Hlt H.
  destruct (run_cases forward criterion backward step topk state_dict_of shuffle SGD
              args su w w' r H)
    as [(-> & He & Hstop) | (opt & Hopt & Hl & H')].
  { split; [done|]. split; [done|]. split; [done|].
    intros optimizer Hnll Hsgd. destruct Hstop as [Hn | [e Hn]]; [done|].
    rewrite Hsgd in Hn. done. }
  assert (Hgo : loss_type args ≠ "nll"
                  ∨ is_error (SGD (su_policies su) (lr args) (momentum args)
                                (weight_decay args) (nesterov args)) → w' = w).
  { intros [Hn | [e Hn]]; [done|]. rewrite Hopt in Hn. done. }
  rewrite Hev in H'. revert H'.
  destruct (Z.to_nat _) as [|count] eqn:Ec; [lia|].
  cbn [epoch_loop]. unfold pbind at 1.
  match goal with |- context [train_epoch _ _ _ _ _ _ ?a ?ts ?l0 ?e ?w0] =>
    destruct (train_epoch forward criterion backward step topk shuffle a ts l0 e w0)
      as [w1 r1] eqn:E1 end.
  assert (Ht : ∃ s, trace w1 = trace w ++ OptimizerBuilt :: EpochStarted (su_start_epoch su) :: s).
  { revert E1. unfold train_epoch. destruct (shuffle _ _) as [g' samples].
    cbn [fs trace gen emit fst].
    destruct (train _ _ _ _ _ _ _ _ _) as [e|st]; intros H0; injection H0 as <- _;
      cbn [emit fst trace]; eexists; rewrite <- ?app_assoc; simpl; reflexivity. }
  assert (Hfs : fs w1 = fs w).
  { revert E1. unfold train_epoch. destruct (shuffle _ _) as [g' samples].
    destruct (train _ _ _ _ _ _ _ _ _) as [e|st]; intros H0; by injection H0 as <- _. }
  destruct r1 as [e|l1].
  - intros H0. injection H0 as <- <-. split; [by eexists|]. split; [done|].
    split; [done|].
    intros optimizer _ Hsgd. rewrite Hopt in Hsgd. injection Hsgd as <-.
    destruct Ht as [s Hs]. exists s. split; [done|].
    intros [l1 Hl1].
    cbn [model grad param_groups buf n_steps emit fst] in E1, Hl1.
    unfold ok in Hl1. congruence.
  - unfold pbind at 1. rewrite evaluate_epoch_zero by done.
    intros H0. injection H0 as <- <-. split; [by eexists|]. split; [done|].
    split; [done|].
    intros optimizer _ Hsgd. destruct Ht as [s Hs]. exists s. done.
Qed.

End ZeroFrequencies.

(** ** A modality without a clip length *)

Section Modality.

Context {clip net buffers rng : Type}.
Variable forward : bool → net → list clip → list (list R).
Variable criterion : list (list R) → list nat → R.
Variable backward : net → list (clip * nat) → list R.
Variable step : list Optim.param_group → buffers → net → list R → buffers * net.
Variable topk : nat → list R → result (list nat).
Variable xavier_uniform_ : rng → tensor → result (rng * tensor).
Variable TSN : Args → Z → result net.
Variable state_dict_of : net → state_dict.
Variable load_state_dict : net → state_dict → result net.
Variable get_optim_policies : net → list Optim.param_group.
Variable TSNDataSet : string → nat → string → list (clip * nat).
Variable shuffle : rng → list (clip * nat) → rng * list (clip * nat).
Variable files : Pretrained.
Variable SGD : list Optim.param_group → R → R → R → bool → result buffers.

Lemma build_loaders_no_length (args : Args) (fmt : option string) (w : world rng) :
  modality args ≠ "RGB" → modality args ≠ "Flow" → modality args ≠ "RGBDiff" →
  build_loaders TSNDataSet args fmt w = (w, raise (UnboundLocalError "data_length")).
Proof.
  intros H1 H2 H3. unfold build_loaders, pbind, lift, dataset_arguments, data_length_of.
  by rewrite (eqb_neq_false _ _ H1), (eqb_neq_false _ _ H2), (eqb_neq_false _ _ H3).
Qed.

Abbreviation main'' :=
  (main forward criterion backward step topk xavier_uniform_ TSN state_dict_of
     load_state_dict get_optim_policies TSNDataSet shuffle files SGD).
Abbreviation set_up'' :=
  (set_up (rng := rng) xavier_uniform_ TSN state_dict_of load_state_dict
     get_optim_policies TSNDataSet files).

Lemma set_up_no_length (args : Args) (w : world rng) :
  modality args ≠ "RGB" → modality args ≠ "Flow" → modality args ≠ "RGBDiff" →
  is_error (set_up'' args w).2.
Proof.
  intros H1 H2 H3. unfold set_up, pbind, lift.
  destruct (dataset_config args) as [e|cfg]; [by exists e|].
  destruct (TSN args cfg.1) as [e|m0]; [by exists e|].
  cbn [emit fst snd].
  destruct (initialise _ _ _ _ _ _ _) as [w1 [e|m1]]; [by exists e|].
  destruct (resume_from _ _ _ _ _) as [w2 [e|r2]]; [by exists e|].
  rewrite build_loaders_no_length by done. by eexists.
Qed.

(** X18.  For a modality other than [RGB], [Flow] and [RGBDiff] no clip length
    is bound: constructing the loaders raises the unbound-name error for
    [data_length] and leaves the world as it was, so [main] never returns
    normally, writes no file and never has loaders; when the model is
    constructed, initialised and resumed without an error, the error of
    [main] is that unbound-name error. *)
Theorem unknown_modality_unbound (args : Args) (w : world rng) :
  modality args ≠ "RGB" → modality args ≠ "Flow" → modality args ≠ "RGBDiff" →
  (∀ fmt (w0 : world rng),
     build_loaders TSNDataSet args fmt w0
     = (w0, raise (UnboundLocalError "data_length")))
  ∧ (∃ w' e s,
       main'' args w = (w', inl e)
       ∧ fs w' = fs w
       ∧ trace w' = trace w ++ s
       ∧ Forall early_event s)
  ∧ (∀ cfg m0 w1 m1 w2 r,
       dataset_config args = ok cfg →
       TSN args cfg.1 = ok m0 →
       initialise xavier_uniform_ state_dict_of load_state_dict files args m0
         (emit [ModelConstructed cfg.1] w).1 = (w1, ok m1) →
       resume_from load_state_dict args m1 0%R w1 = (w2, ok r) →
       main'' args w = (w2, raise (UnboundLocalError "data_length"))).
Proof.
  intros H1 H2 H3. split; [intros fmt w0; by apply build_loaders_no_length|]. split.
  - pose proof (set_up_no_length args w H1 H2 H3) as [e He].
    destruct (set_up'' args w) as [w' r] eqn:E. simpl in He. subst r.
    destruct (set_up_trace xavier_uniform_ TSN state_dict_of load_state_dict
                get_optim_policies TSNDataSet files args w w' (inl e) E)
      as [Hfs (s & Hs & Ht)].
    exists w', e, s. split; [by apply main_set_up_error|]. split; [done|].
    destruct Ht as [[_ Ht] | [[x Hx] _]]; [done|done].
  - intros cfg m0 w1 m1 w2 r Hc Hm Hi Hr. apply main_set_up_error.
    unfold set_up, pbind, lift. unfold ok in Hc, Hm, Hi, Hr.
    rewrite Hc, Hm. cbn [emit fst snd] in Hi |- *. rewrite Hi, Hr.
    by rewrite build_loaders_no_length.
Qed.

End Modality.

Lemma zero_frequency_fails_witness :
  let args := make_args "ucf101" "ECO" "scratch" "RGB" "nll" "" 0 None in
  is_error (train toy_forward toy_criterion unit_gradient plain_sgd first_indices
              args three_batches learner0 0)
  ∧ (print_freq args = 0%Z →
       is_error (validate toy_forward toy_criterion first_indices args
                   three_batches [0%R])).
Proof.
  intros args.
  apply (zero_frequency_fails toy_forward toy_criterion unit_gradient plain_sgd
           first_indices args three_batches learner0 0 [0%R]).
  - simpl. lia.
  - left. reflexivity.
Defined.

Lemma zero_eval_freq_fails_after_training_witness :
  let su : setup (list R) unit :=
    {| su_policies := toy_policies [0%R]; su_model := [0%R]; su_start_epoch := 0;
       su_best_prec1 := 0; su_train := []; su_val := [] |} in
  let res := toy_run zero_eval_args su empty_world in
  is_error res.2
  ∧ fs res.1 = fs empty_world
  ∧ (loss_type zero_eval_args ≠ "nll"
       ∨ is_error (toy_SGD (su_policies su) (lr zero_eval_args)
                     (momentum zero_eval_args) (weight_decay zero_eval_args)
                     (nesterov zero_eval_args)) →
     res.1 = empty_world)
  ∧ (∀ optimizer,
       loss_type zero_eval_args = "nll" →
       toy_SGD (su_policies su) (lr zero_eval_args) (momentum zero_eval_args)
         (weight_decay zero_eval_args) (nesterov zero_eval_args) = ok optimizer →
       ∃ s, trace res.1
            = trace empty_world ++ OptimizerBuilt :: EpochStarted (su_start_epoch su) :: s
          ∧ ((∃ l1, train_epoch toy_forward toy_criterion unit_gradient plain_sgd
                      first_indices toy_shuffle zero_eval_args (su_train su)
                      {| model := su_model su; grad := None;
                         param_groups :=
                           adjust_learning_rate zero_eval_args (su_policies su)
                             (su_start_epoch su);
                         buf := optimizer; n_steps := 0 |}
                      (su_start_epoch su)
                      (emit [OptimizerBuilt] empty_world).1 = (res.1, ok l1))
             → res.2 = raise ZeroDivisionError)).
Proof.
  intros su res.
  apply (zero_eval_freq_fails_after_training toy_forward toy_criterion unit_gradient
           plain_sgd first_indices toy_state_dict_of toy_shuffle toy_SGD
           zero_eval_args su empty_world res.1 res.2).
  - reflexivity.
  - reflexivity.
  - reflexivity.
  - apply surjective_pairing.
Defined.

Lemma unknown_modality_unbound_witness :
  let args := make_args "ucf101" "ECO" "scratch" "Audio" "nll" "" 1 None in
  (∀ fmt (w0 : world unit),
     build_loaders toy_dataset args fmt w0
     = (w0, raise (UnboundLocalError "data_length")))
  ∧ (∃ w' e s,
       toy_main args empty_world = (w', inl e)
       ∧ fs w' = fs empty_world
       ∧ trace w' = trace empty_world ++ s
       ∧ Forall early_event s)
  ∧ (∀ cfg m0 w1 m1 w2 r,
       dataset_config args = ok cfg →
       toy_TSN args cfg.1 = ok m0 →
       initialise no_xavier toy_state_dict_of toy_load_state_dict files_example args m0
         (emit [ModelConstructed cfg.1] empty_world).1 = (w1, ok m1) →
       resume_from toy_load_state_dict args m1 0%R w1 = (w2, ok r) →
       toy_main args empty_world = (w2, raise (UnboundLocalError "data_length"))).
Proof.
  intros args.
  apply (unknown_modality_unbound toy_forward toy_criterion unit_gradient plain_sgd
           first_indices no_xavier toy_TSN toy_state_dict_of toy_load_state_dict
           toy_policies toy_dataset toy_shuffle files_example toy_SGD args empty_world);
    discriminate.
Defined.

(** ** The checkpoint of the last epoch *)

Section LastCheckpoint.

Context {clip net buffers rng : Type}.
Variable forward : bool → net → list clip → list (list R).
Variable criterion : list (list R) → list nat → R.
Variable backward : net → list (clip * nat) → list R.
Variable step : list Optim.param_group → buffers → net → list R → buffers * net.
Variable topk : nat → list R → result (list nat).
Variable state_dict_of : net → state_dict.
Variable shuffle : rng → list (clip * nat) → rng * list (clip * nat).
Variable SGD : list Optim.param_group → R → R → R → bool → result buffers.

Lemma evaluate_epoch_last (args : Args) (val_set : list (clip * nat))
    (l : learner net buffers) (best best' : R) (w w' : world rng) :
  evaluate_epoch forward criterion topk state_dict_of args val_set l
    (epochs args - 1) best w = (w', ok best') →
  fs w' !! checkpoint_filename args (epochs args) "checkpoint.pth.tar"
  = Some {| ck_epoch := epochs args; ck_arch := arch args;
            ck_state_dict := state_dict_of (model l); ck_best_prec1 := best' |}.
Proof.
  unfold evaluate_epoch, pbind, lift.
  destruct (divides _ _) as [e|d]; cbn [rbind ok]; [done|].
  rewrite Z.eqb_refl, orb_true_r.
  destruct (run_validate _ _ _ _ _ _ _) as [w1 [e|prec1]] eqn:E; [done|].
  apply run_validate_fs in E as [Hfs _].
  intros H. injection H as <- <-. cbn [fs]. unfold remember_best. cbn [fst snd].
  replace (epochs args - 1 + 1)%Z with (epochs args) by lia.
  apply (save_checkpoint_written args
           {| ck_epoch := epochs args; ck_arch := arch args;
              ck_state_dict := state_dict_of (model l);
              ck_best_prec1 := Rmax prec1 best |}).
Qed.

Lemma epoch_loop_last (args : Args) (train_set val_set : list (clip * nat)) :
  ∀ (count : nat) (epoch : Z) (l : learner net buffers) (best : R)
    (w w' : world rng) (o : outcome net buffers),
    (epoch + Z.of_nat (S count) = epochs args)%Z →
    epoch_loop forward criterion backward step topk state_dict_of shuffle
      args train_set val_set (S count) epoch l best w = (w', ok o) →
    fs w' !! checkpoint_filename args (epochs args) "checkpoint.pth.tar"
    = Some {| ck_epoch := epochs args; ck_arch := arch args;
              ck_state_dict := state_dict_of (model (final o));
              ck_best_prec1 := best_prec1 o |}.
Proof.
  induction count as [|count IH]; intros epoch l best w w' o He.
  - cbn [epoch_loop]. unfold pbind at 1.
    destruct (train_epoch _ _ _ _ _ _ _ _ _ _ _) as [w1 [e|l1]]; [done|].
    unfold pbind at 1.
    destruct (evaluate_epoch _ _ _ _ _ _ _ _ _ _) as [w2 [e|best']] eqn:E2; [done|].
    intros H. injection H as <- <-. cbn [final best_prec1].
    replace epoch with (epochs args - 1)%Z in E2 by lia.
    by eapply evaluate_epoch_last.
  - remember (S count) as c eqn:Ec. cbn [epoch_loop]. unfold pbind at 1.
    destruct (train_epoch _ _ _ _ _ _ _ _ _ _ _) as [w1 [e|l1]]; [done|].
    unfold pbind at 1.
    destruct (evaluate_epoch _ _ _ _ _ _ _ _ _ _) as [w2 [e|best']]; [done|].
    subst c. apply IH. lia.
Qed.

(** X19.  A training run with an epoch to make that returns normally has
    saved the checkpoint of its last epoch: the file named for epoch
    [args.epochs] holds the state dict of the final model and the best
    precision the run returns. *)
Theorem last_checkpoint_is_saved (args : Args) (su : setup net clip)
    (w w' : world rng) (o : outcome net buffers) :
  evaluate args = false →
  (su_start_epoch su < epochs args)%Z →
  run forward criterion backward step topk state_dict_of shuffle SGD args su w
  = (w', ok o) →
  fs w' !! checkpoint_filename args (epochs args) "checkpoint.pth.tar"
  = Some {| ck_epoch := epochs args; ck_arch := arch args;
            ck_state_dict := state_dict_of (model (final o));
            ck_best_prec1 := best_prec1 o |}.
Proof.
  intros Hev Hlt H.
  destruct (run_cases forward criterion backward step topk state_dict_of shuffle SGD
              args su w w' (ok o) H)
    as [(_ & [e He] & _) | (opt & _ & _ & H')]; [done|].
  rewrite Hev in H'. revert H'.
  destruct (Z.to_nat _) as [|count] eqn:Ec; [lia|].
  apply epoch_loop_last. lia.
Qed.

End LastCheckpoint.

Lemma last_checkpoint_is_saved_witness :
  ∃ w' o,
    toy_run example_args last_epoch_setup empty_world = (w', ok o)
    ∧ fs w' !! checkpoint_filename example_args (epochs example_args) "checkpoint.pth.tar"
      = Some {| ck_epoch := epochs example_args; ck_arch := arch example_args;
                ck_state_dict := toy_state_dict_of (model (final o));
                ck_best_prec1 := best_prec1 o |}.
Proof.
  eexists _, _. split.
  { cbv [toy_run run pbind lift emit fst snd]. simpl. reflexivity. }
  apply (last_checkpoint_is_saved toy_forward toy_criterion unit_gradient plain_sgd
           first_indices toy_state_dict_of toy_shuffle toy_SGD
           example_args last_epoch_setup empty_world).
  - reflexivity.
  - reflexivity.
  - reflexivity.
Defined.
